(** * InterView AI: session persistence and orchestrator state machine

    A shallow embedding of

    - [src/infra/persistence/sqlite_repository.py] (the Durable Store,
      [SQLiteSessionRepository]),
    - [src/infra/persistence/redis_store.py] (the Fast Store,
      [RedisSessionStore]),
    - the orchestrator state machine exercised by
      [tests/test_orchestrator.py],

    together with the properties of the specification that concern them.

    Conventions.  Python [int] is [Z]; [str] is [string]; [None]-able values
    are [option]; a [dict] is a [gmap]; SQL tables with an integer rowid are
    lists of rows in rowid order; the [sessions] table, whose primary key is
    the session id, is a [gmap] from the id to the remaining columns.
    Reading the clock ([datetime.now()]) is an explicit argument.  A
    database or Redis call that raises is decided by an explicit oracle. *)

From Stdlib Require Import ZArith String Ascii Lia QArith Lqa.
From stdpp Require Import gmap strings list fin_maps.

#[local] Open Scope string_scope.
#[local] Open Scope Z_scope.

(* ===================================================================== *)
(** * Naive datetimes and their ISO-8601 text  *)
(* ===================================================================== *)

(** The repository stores every timestamp as [datetime.isoformat()] text
    and reads it back with [datetime.fromisoformat]; [cleanup_old_sessions]
    compares such texts inside SQL.  [datetime.now()] returns a naive
    datetime: a tuple of seven integer fields, compared field by field. *)
Module Datetime.

Record datetime : Type := mk_datetime {
  year : Z; month : Z; day : Z;
  hour : Z; minute : Z; second : Z; microsecond : Z
}.

Definition is_leap (y : Z) : bool :=
  (y mod 4 =? 0) && (negb (y mod 100 =? 0) || (y mod 400 =? 0)).

Definition days_in_month (y m : Z) : Z :=
  if m =? 2 then (if is_leap y then 29 else 28)
  else if (m =? 4) || (m =? 6) || (m =? 9) || (m =? 11) then 30
  else 31.

Definition between (lo x hi : Z) : bool := (lo <=? x) && (x <=? hi).

(** The range checks of the [datetime] constructor (MINYEAR = 1,
    MAXYEAR = 9999). *)
Definition valid (d : datetime) : bool :=
  between 1 (year d) 9999 && between 1 (month d) 12 &&
  between 1 (day d) (days_in_month (year d) (month d)) &&
  between 0 (hour d) 23 && between 0 (minute d) 59 &&
  between 0 (second d) 59 && between 0 (microsecond d) 999999.

(** Python's ordering of naive datetimes: lexicographic on the fields. *)
Definition lex (c : comparison) (k : comparison) : comparison :=
  match c with Eq => k | _ => c end.

Definition compare (a b : datetime) : comparison :=
  lex (year a ?= year b)
  (lex (month a ?= month b)
  (lex (day a ?= day b)
  (lex (hour a ?= hour b)
  (lex (minute a ?= minute b)
  (lex (second a ?= second b)
       (microsecond a ?= microsecond b)))))).

Definition ltb (a b : datetime) : bool :=
  match compare a b with Lt => true | _ => false end.

(** ** Formatting *)

Definition digit (n : Z) : ascii := ascii_of_N (Z.to_N (48 + n mod 10)).

(** [pad w n] is ["%0wd" % n] for [0 <= n < 10^w]. *)
Fixpoint pad (w : nat) (n : Z) : string :=
  match w with
  | O => EmptyString
  | S w' => String (digit (n / 10 ^ Z.of_nat w')) (pad w' n)
  end.

Definition fraction (us : Z) : string :=
  if us =? 0 then EmptyString else "." +:+ pad 6 us.

(** [datetime.isoformat()] of a naive datetime:
    [YYYY-MM-DDTHH:MM:SS], followed by [.ffffff] when the microsecond is
    not zero. *)
Definition isoformat (d : datetime) : string :=
  pad 4 (year d) +:+ "-" +:+ pad 2 (month d) +:+ "-" +:+ pad 2 (day d) +:+
  "T" +:+ pad 2 (hour d) +:+ ":" +:+ pad 2 (minute d) +:+ ":" +:+
  pad 2 (second d) +:+ fraction (microsecond d).

(** ** Parsing *)

Definition digit_val (c : ascii) : option Z :=
  let n := Z.of_N (N_of_ascii c) in
  if between 48 n 57 then Some (n - 48) else None.

Fixpoint read_digits (w : nat) (acc : Z) (s : string) : option (Z * string) :=
  match w with
  | O => Some (acc, s)
  | S w' =>
      match s with
      | String c s' =>
          match digit_val c with
          | Some v => read_digits w' (10 * acc + v) s'
          | None => None
          end
      | EmptyString => None
      end
  end.

Definition expect (c : ascii) (s : string) : option string :=
  match s with
  | String c' s' => if Ascii.eqb c c' then Some s' else None
  | EmptyString => None
  end.

Definition read_fraction (s : string) : option Z :=
  match s with
  | EmptyString => Some 0
  | String c s' =>
      if Ascii.eqb c "." then
        match read_digits 6 0 s' with
        | Some (us, EmptyString) => Some us
        | _ => None
        end
      else None
  end.

(** [datetime.fromisoformat] on the texts that [isoformat] produces for a
    naive datetime; [None] stands for [ValueError].  Out-of-range fields
    are rejected as the constructor rejects them.  (The library parser also
    accepts other ISO-8601 spellings, which the repository never writes;
    they are treated as malformed here.) *)
Definition fromisoformat (s : string) : option datetime :=
  '(y, s) ← read_digits 4 0 s;
  s ← expect "-" s;
  '(mo, s) ← read_digits 2 0 s;
  s ← expect "-" s;
  '(d, s) ← read_digits 2 0 s;
  s ← expect "T" s;
  '(h, s) ← read_digits 2 0 s;
  s ← expect ":" s;
  '(mi, s) ← read_digits 2 0 s;
  s ← expect ":" s;
  '(sec, s) ← read_digits 2 0 s;
  us ← read_fraction s;
  let r := mk_datetime y mo d h mi sec us in
  if valid r then Some r else None.

(** ** Subtracting hours

    [now - timedelta(hours=h)], computed as the library does: through the
    proleptic Gregorian ordinal of the date ([_ymd2ord], [_ord2ymd]).
    The result is built by the [datetime] constructor, which checks the
    range of every field.  [None] stands for the exception raised
    ([OverflowError]: "date value out of range"). *)

Definition days_before_year (y : Z) : Z :=
  let y := y - 1 in y * 365 + y / 4 - y / 100 + y / 400.

Fixpoint days_before_month_aux (y : Z) (m : nat) : Z :=
  match m with
  | O => 0
  | S m' => days_before_month_aux y m' + days_in_month y (Z.of_nat m)
  end.

Definition days_before_month (y m : Z) : Z :=
  days_before_month_aux y (Z.to_nat (m - 1)).

Definition ymd2ord (y m d : Z) : Z :=
  days_before_year y + days_before_month y m + d.

Definition ord2ymd (n : Z) : Z * Z * Z :=
  let n := n - 1 in
  let n400 := n / 146097 in let n := n mod 146097 in
  let y := n400 * 400 + 1 in
  let n100 := n / 36524 in let n := n mod 36524 in
  let n4 := n / 1461 in let n := n mod 1461 in
  let n1 := n / 365 in let n := n mod 365 in
  let y := y + n100 * 100 + n4 * 4 + n1 in
  if (n1 =? 4) || (n100 =? 4) then (y - 1, 12, 31)
  else
    let leapyear := (n1 =? 3) && (negb (n4 =? 24) || (n100 =? 3)) in
    let m := Z.shiftr (n + 50) 5 in
    let preceding :=
      days_before_month_aux 1 (Z.to_nat (m - 1)) +
      (if (2 <? m) && leapyear then 1 else 0) in
    if n <? preceding then
      let m := m - 1 in
      let preceding :=
        preceding - (days_in_month 1 m +
                     (if (m =? 2) && leapyear then 1 else 0)) in
      (y, m, n - preceding + 1)
    else (y, m, n - preceding + 1).

Definition MAXORDINAL : Z := 3652059.

Definition usec_per_day : Z := 86400 * 1000000.

Definition sub_hours (d : datetime) (h : Z) : option datetime :=
  let total :=
    ymd2ord (year d) (month d) (day d) * usec_per_day +
    ((hour d * 60 + minute d) * 60 + second d) * 1000000 + microsecond d -
    h * 3600 * 1000000 in
  let days := total / usec_per_day in
  let rest := total mod usec_per_day in
  if (0 <? days) && (days <=? MAXORDINAL) then
    let '(y, m, dd) := ord2ymd days in
    let secs := rest / 1000000 in
    let r := mk_datetime y m dd (secs / 3600) (secs mod 3600 / 60)
               (secs mod 60) (rest mod 1000000) in
    if valid r then Some r else None
  else None.

End Datetime.

(* ===================================================================== *)
(** * Domain model *)
(* ===================================================================== *)

Module Domain.
Import Datetime.

(** Modelled from the spec: [src/core/domain/models.py] is imported by both
    stores but is not among the sources.  The records below carry the
    fields that the stores read and write; the enumeration members are
    those of the specification (section 3 and 4.4) and of the tests
    ([CoachingAlertLevel.OK]); each member's [.value] is taken to be its
    name.  [Enum(value)] raises [ValueError] on an unknown value. *)
Inductive InterviewState : Type :=
  | IDLE | INTRO | LISTENING | EVALUATING | COMPLETE.

Definition state_value (s : InterviewState) : string :=
  match s with
  | IDLE => "IDLE" | INTRO => "INTRO" | LISTENING => "LISTENING"
  | EVALUATING => "EVALUATING" | COMPLETE => "COMPLETE"
  end.

Definition all_states : list InterviewState :=
  [IDLE; INTRO; LISTENING; EVALUATING; COMPLETE].

Definition state_of_value (v : string) : option InterviewState :=
  List.find (fun s => String.eqb (state_value s) v) all_states.

(** Modelled from the spec: [CoachingAlertLevel] of the missing
    [models.py]; section 3 names the levels OK, WARNING and CRITICAL. *)
Inductive CoachingAlertLevel : Type := OK | WARNING | CRITICAL.

Definition alert_value (a : CoachingAlertLevel) : string :=
  match a with OK => "OK" | WARNING => "WARNING" | CRITICAL => "CRITICAL" end.

Definition alert_of_value (v : string) : option CoachingAlertLevel :=
  List.find (fun a => String.eqb (alert_value a) v) [OK; WARNING; CRITICAL].

(** A Python [float], by the 64-bit pattern of its binary64 value.  The
    stores only carry floats between the session and a REAL column; no
    arithmetic is done on them. *)
Inductive float : Type := Float (bits : Z).

(** A NaN: the exponent bits are all ones and the fraction is not zero. *)
Definition is_nan (x : float) : bool :=
  let 'Float bits := x in
  (Z.land (Z.shiftr bits 52) 2047 =? 2047) &&
  negb (Z.land bits (2 ^ 52 - 1) =? 0).

(** [-0.0]: the sign bit alone. *)
Definition is_negative_zero (x : float) : bool :=
  let 'Float bits := x in bits =? 2 ^ 63.

(** The floats that a REAL column gives back as it got them.  SQLite
    stores a NaN as NULL, which [load] hands on as [None], and keeps a
    float without fractional part as an integer, which loses the sign of
    [-0.0].  The rows below hold the float that was bound: they follow
    the database on the [storable] floats only, and what is read back
    from a REAL column is stated for these. *)
Definition storable (x : float) : bool :=
  negb (is_nan x) && negb (is_negative_zero x).

(** Modelled from the spec: [AnswerEvaluation] of the missing
    [models.py]; the fields are those that [save] and [load] name. *)
Record AnswerEvaluation : Type := mk_evaluation {
  technical_accuracy : Z; clarity : Z; depth : Z; completeness : Z;
  improvement_tip : string; positive_note : string
}.

(** Modelled from the spec: [CoachingFeedback] of the missing
    [models.py]; the fields are those that [save] and [load] name. *)
Record CoachingFeedback : Type := mk_coaching {
  volume_status : string; pace_status : string; filler_count : Z;
  words_per_minute : float; primary_alert : string;
  alert_level : CoachingAlertLevel
}.

(** Modelled from the spec: [InterviewExchange] of the missing
    [models.py]; evaluation and coaching feedback are optional. *)
Record InterviewExchange : Type := mk_exchange {
  question : string; answer : string; answer_duration_seconds : float;
  evaluation : option AnswerEvaluation;
  coaching_feedback : option CoachingFeedback;
  timestamp : datetime
}.

(** Modelled from the spec: [InterviewSession] of the missing
    [models.py].  [save] tests [started_at] and [ended_at] for [None];
    the current question may be unset. *)
Record InterviewSession : Type := mk_session {
  session_id : string;
  state : InterviewState;
  resume_text : string;
  job_description : string;
  current_question : option string;
  started_at : option datetime;
  ended_at : option datetime;
  total_questions_asked : Z;
  total_filler_words : Z;
  average_wpm : float;
  exchanges : list InterviewExchange
}.

End Domain.

(* ===================================================================== *)
(** * Durable Store: [SQLiteSessionRepository] *)
(* ===================================================================== *)

Module DurableStore.
Import Datetime Domain.

(** ** The four tables

    [sessions] has the session id as primary key, so it is a finite map
    from the id to the other columns.  [exchanges] is kept in rowid order
    together with the counter that [AUTOINCREMENT] keeps in
    [sqlite_sequence]: a rowid is never handed out twice, also after its
    row was deleted.  The rowids of [evaluations] and [coaching_feedback]
    are read by no statement and are left out. *)

Record session_row : Type := mk_session_row {
  row_state : string;
  row_resume_text : string;
  row_job_description : string;
  row_current_question : option string;
  row_started_at : option string;
  row_ended_at : option string;
  row_total_questions_asked : Z;
  row_total_filler_words : Z;
  row_average_wpm : float;
  row_created_at : string;
  row_updated_at : string
}.

Record exchange_row : Type := mk_exchange_row {
  ex_id : Z;
  ex_session_id : string;
  ex_question : string;
  ex_answer : string;
  ex_answer_duration_seconds : float;
  ex_timestamp : string;
  ex_created_at : string
}.

Record evaluation_row : Type := mk_evaluation_row {
  ev_exchange_id : Z;
  ev_technical_accuracy : Z; ev_clarity : Z; ev_depth : Z;
  ev_completeness : Z;
  ev_improvement_tip : string; ev_positive_note : string
}.

Record coaching_row : Type := mk_coaching_row {
  cf_exchange_id : Z;
  cf_volume_status : string; cf_pace_status : string;
  cf_filler_count : Z; cf_words_per_minute : float;
  cf_primary_alert : string; cf_alert_level : string
}.

Record database : Type := mk_database {
  tbl_sessions : gmap string session_row;
  tbl_exchanges : list exchange_row;
  seq_exchanges : Z;
  tbl_evaluations : list evaluation_row;
  tbl_coaching : list coaching_row
}.

(** [_initialize_schema] on a new file: four empty tables. *)
Definition empty_db : database := mk_database ∅ [] 0 [] [].

(** ** Statements run on a connection

    A connection holds the working copy of the database inside the open
    transaction and an oracle for the driver: [Some k] makes the call
    number [k] (counted from 0, starting with the one that opens the
    connection) raise; [None] lets every call through.  The oracle stands
    for whatever makes [sqlite3] raise: a locked or unreadable file, a full
    disk, a value that cannot be bound. *)

Inductive exn : Type :=
  | OperationalError | IntegrityError | ValueError | OverflowError.

Record conn : Type := mk_conn { db : database; faults : option nat }.

Definition Tx (A : Type) : Type := conn -> exn + (A * conn).

Definition ret {A} (a : A) : Tx A := fun c => inr (a, c).

Definition bind {A B} (m : Tx A) (k : A -> Tx B) : Tx B :=
  fun c => match m c with
           | inl e => inl e
           | inr (a, c') => k a c'
           end.

Definition raise {A} (e : exn) : Tx A := fun _ => inl e.

Notation "'do' x <- m ; k" := (bind m (fun x => k))
  (at level 10, x name, m at level 100, k at level 200,
   format "'[v' 'do'  x  <-  m ; '/' k ']'").
Notation "m ;; k" := (bind m (fun _ => k))
  (at level 100, k at level 200, right associativity).

(** One call into the driver. *)
Definition call : Tx unit :=
  fun c => match faults c with
           | Some O => inl OperationalError
           | Some (S k) => inr (tt, mk_conn (db c) (Some k))
           | None => inr (tt, c)
           end.

Definition get : Tx database := fun c => inr (db c, c).

Definition put (d : database) : Tx unit :=
  fun c => inr (tt, mk_conn d (faults c)).

(** [x] or raise [e]: for library calls that raise on bad input. *)
Definition lift {A} (e : exn) (o : option A) : Tx A :=
  match o with Some a => ret a | None => raise e end.

Fixpoint for_each {A} (l : list A) (body : A -> Tx unit) : Tx unit :=
  match l with
  | [] => ret tt
  | x :: l' => body x ;; for_each l' body
  end.

Fixpoint map_tx {A B} (f : A -> Tx B) (l : list A) : Tx (list B) :=
  match l with
  | [] => ret []
  | x :: l' => do y <- f x; do ys <- map_tx f l'; ret (y :: ys)
  end.

(** [_get_connection]: [sqlite3.connect] and the WAL pragma. *)
Definition get_connection : Tx unit := call.

(** [SELECT ... FROM sessions WHERE session_id = ?] and [fetchone]. *)
Definition select_session (sid : string) : Tx (option session_row) :=
  call ;; do d <- get; ret (tbl_sessions d !! sid).

(** [UPDATE sessions SET state, current_question, ended_at,
    total_questions_asked, total_filler_words, average_wpm, updated_at
    WHERE session_id = ?]. *)
Definition update_session (sid : string) (st : string)
    (cq : option string) (ended : option string) (tq tf : Z) (wpm : float)
    (now : string) : Tx unit :=
  call ;;
  do d <- get;
  put (mk_database
         (alter (fun r =>
                   mk_session_row st (row_resume_text r)
                     (row_job_description r) cq (row_started_at r) ended
                     tq tf wpm (row_created_at r) now) sid (tbl_sessions d))
         (tbl_exchanges d) (seq_exchanges d) (tbl_evaluations d) (tbl_coaching d)).

(** [INSERT INTO sessions (...) VALUES (...)]; the primary key makes a
    second row with the same id an [IntegrityError]. *)
Definition insert_session (sid : string) (r : session_row) : Tx unit :=
  call ;;
  do d <- get;
  match tbl_sessions d !! sid with
  | Some _ => raise IntegrityError
  | None =>
      put (mk_database (<[sid := r]> (tbl_sessions d)) (tbl_exchanges d)
             (seq_exchanges d) (tbl_evaluations d) (tbl_coaching d))
  end.

Definition of_session (sid : string) (e : exchange_row) : bool :=
  String.eqb (ex_session_id e) sid.

(** [DELETE FROM exchanges WHERE session_id = ?]. *)
Definition delete_exchanges (sid : string) : Tx unit :=
  call ;;
  do d <- get;
  put (mk_database (tbl_sessions d)
         (List.filter (fun e => negb (of_session sid e)) (tbl_exchanges d))
         (seq_exchanges d) (tbl_evaluations d) (tbl_coaching d)).

(** [DELETE FROM sessions WHERE session_id = ?]. *)
Definition delete_session (sid : string) : Tx unit :=
  call ;;
  do d <- get;
  put (mk_database (delete sid (tbl_sessions d)) (tbl_exchanges d)
         (seq_exchanges d) (tbl_evaluations d) (tbl_coaching d)).

(** [INSERT INTO exchanges (...)], returning [cursor.lastrowid]. *)
Definition insert_exchange (sid q a : string) (dur : float)
    (ts now : string) : Tx Z :=
  call ;;
  do d <- get;
  let id := seq_exchanges d + 1 in
  put (mk_database (tbl_sessions d)
         (tbl_exchanges d ++ [mk_exchange_row id sid q a dur ts now])
         id (tbl_evaluations d) (tbl_coaching d)) ;;
  ret id.

(** [INSERT INTO evaluations (...)]. *)
Definition insert_evaluation (r : evaluation_row) : Tx unit :=
  call ;;
  do d <- get;
  put (mk_database (tbl_sessions d) (tbl_exchanges d) (seq_exchanges d)
         (tbl_evaluations d ++ [r]) (tbl_coaching d)).

(** [INSERT INTO coaching_feedback (...)]. *)
Definition insert_coaching (r : coaching_row) : Tx unit :=
  call ;;
  do d <- get;
  put (mk_database (tbl_sessions d) (tbl_exchanges d) (seq_exchanges d)
         (tbl_evaluations d) (tbl_coaching d ++ [r])).

(** [conn.commit()]. *)
Definition commit : Tx unit := call.

(** ** [save] *)

Definition session_columns (session : InterviewSession) (now : string)
    : session_row :=
  mk_session_row
    (state_value (state session))
    (resume_text session)
    (job_description session)
    (current_question session)
    (isoformat <$> started_at session)
    (isoformat <$> ended_at session)
    (total_questions_asked session)
    (total_filler_words session)
    (average_wpm session)
    now now.

Definition evaluation_columns (exchange_id : Z) (ev : AnswerEvaluation)
    : evaluation_row :=
  mk_evaluation_row exchange_id (technical_accuracy ev) (clarity ev)
    (depth ev) (completeness ev) (improvement_tip ev) (positive_note ev).

Definition coaching_columns (exchange_id : Z) (cf : CoachingFeedback)
    : coaching_row :=
  mk_coaching_row exchange_id (volume_status cf) (pace_status cf)
    (filler_count cf) (words_per_minute cf) (primary_alert cf)
    (alert_value (alert_level cf)).

(** The loop body of [save]: one exchange and its children. *)
Definition save_exchange (sid now : string) (exchange : InterviewExchange)
    : Tx unit :=
  do exchange_id <-
    insert_exchange sid (question exchange) (answer exchange)
      (answer_duration_seconds exchange) (isoformat (timestamp exchange))
      now;
  match evaluation exchange with
  | Some ev => insert_evaluation (evaluation_columns exchange_id ev)
  | None => ret tt
  end ;;
  match coaching_feedback exchange with
  | Some cf => insert_coaching (coaching_columns exchange_id cf)
  | None => ret tt
  end.

(** The [try] block of [save], up to and including [conn.commit()]. *)
Definition save_tx (now : datetime) (session : InterviewSession) : Tx unit :=
  let now := isoformat now in
  let sid := session_id session in
  do row <- select_session sid;
  match row with
  | Some _ =>
      update_session sid (state_value (state session))
        (current_question session) (isoformat <$> ended_at session)
        (total_questions_asked session) (total_filler_words session)
        (average_wpm session) now
  | None => insert_session sid (session_columns session now)
  end ;;
  delete_exchanges sid ;;
  for_each (exchanges session) (save_exchange sid now) ;;
  commit.

(** [save(session)] at clock reading [now] with driver oracle [f] on the
    database [d]: the value returned or the exception raised, and the
    database afterwards.  [_get_connection] runs before the [try]; inside
    it, [except Exception] rolls back and re-raises. *)
Definition save (now : datetime) (f : option nat)
    (session : InterviewSession) (d : database) : (exn + unit) * database :=
  match get_connection (mk_conn d f) with
  | inl e => (inl e, d)
  | inr (_, c) =>
      match save_tx now session c with
      | inl e => (inl e, d)
      | inr (_, c') => (inr tt, db c')
      end
  end.

(** ** [load] *)

Record joined_row : Type := mk_joined_row {
  j_exchange : exchange_row;
  j_evaluation : option evaluation_row;
  j_coaching : option coaching_row
}.

(** The right side of a [LEFT JOIN]: every matching row, or one row of
    NULLs when none matches. *)
Definition matches {A} (p : A -> bool) (table : list A) : list (option A) :=
  match List.filter p table with
  | [] => [None]
  | l => List.map Some l
  end.

Definition join_exchange (d : database) (e : exchange_row)
    : list joined_row :=
  ev ← matches (fun r => ev_exchange_id r =? ex_id e) (tbl_evaluations d);
  cf ← matches (fun r => cf_exchange_id r =? ex_id e) (tbl_coaching d);
  [mk_joined_row e ev cf].

(** [ORDER BY e.id] as a stable insertion sort. *)
Fixpoint insert_by_id (r : joined_row) (l : list joined_row)
    : list joined_row :=
  match l with
  | [] => [r]
  | r' :: l' =>
      if ex_id (j_exchange r) <=? ex_id (j_exchange r') then r :: l
      else r' :: insert_by_id r l'
  end.

Definition order_by_id (l : list joined_row) : list joined_row :=
  List.fold_right insert_by_id [] l.

(** [SELECT ... FROM exchanges e LEFT JOIN evaluations ev ... LEFT JOIN
    coaching_feedback cf ... WHERE e.session_id = ? ORDER BY e.id] and
    [fetchall]. *)
Definition select_exchanges (sid : string) : Tx (list joined_row) :=
  call ;;
  do d <- get;
  ret (order_by_id
         (List.filter (of_session sid) (tbl_exchanges d) ≫= join_exchange d)).

(** [fromisoformat(text) if text else None]: NULL and the empty text are
    both falsy. *)
Definition parse_optional (text : option string) : Tx (option datetime) :=
  match text with
  | None => ret None
  | Some EmptyString => ret None
  | Some s => do t <- lift ValueError (fromisoformat s); ret (Some t)
  end.

(** The loop body of [load].  The row's [technical_accuracy] (resp.
    [volume_status]) column is not NULL exactly when an [evaluations]
    (resp. [coaching_feedback]) row was joined, because [save] binds a
    value to these columns in every row it inserts. *)
Definition rebuild_exchange (ex_row : joined_row) : Tx InterviewExchange :=
  let evaluation :=
    match j_evaluation ex_row with
    | Some r =>
        Some (mk_evaluation (ev_technical_accuracy r) (ev_clarity r)
                (ev_depth r) (ev_completeness r) (ev_improvement_tip r)
                (ev_positive_note r))
    | None => None
    end in
  do coaching <-
    match j_coaching ex_row with
    | Some r =>
        do level <- lift ValueError (alert_of_value (cf_alert_level r));
        ret (Some (mk_coaching (cf_volume_status r) (cf_pace_status r)
                     (cf_filler_count r) (cf_words_per_minute r)
                     (cf_primary_alert r) level))
    | None => ret None
    end;
  do ts <- lift ValueError
             (fromisoformat (ex_timestamp (j_exchange ex_row)));
  ret (mk_exchange (ex_question (j_exchange ex_row))
         (ex_answer (j_exchange ex_row))
         (ex_answer_duration_seconds (j_exchange ex_row))
         evaluation coaching ts).

(** The [try] block of [load]. *)
Definition load_tx (sid : string) : Tx (option InterviewSession) :=
  do row <- select_session sid;
  match row with
  | None => ret None
  | Some row =>
      do st <- lift ValueError (state_of_value (row_state row));
      do started <- parse_optional (row_started_at row);
      do ended <- parse_optional (row_ended_at row);
      do ex_rows <- select_exchanges sid;
      do exs <- map_tx rebuild_exchange ex_rows;
      ret (Some (mk_session sid st (row_resume_text row)
                   (row_job_description row) (row_current_question row)
                   started ended (row_total_questions_asked row)
                   (row_total_filler_words row) (row_average_wpm row) exs))
  end.

(** [load(session_id)]: the exception raised, or the value returned.
    [_get_connection] runs before the [try]; inside it,
    [except Exception] logs and returns [None]. *)
Definition load (f : option nat) (sid : string) (d : database)
    : exn + option InterviewSession :=
  match get_connection (mk_conn d f) with
  | inl e => inl e
  | inr (_, c) =>
      match load_tx sid c with
      | inl _ => inr None
      | inr (r, _) => inr r
      end
  end.

(** ** [cleanup_old_sessions] *)

(** [SELECT session_id FROM sessions WHERE created_at < ?] and [fetchall].
    The comparison is SQLite's on TEXT: byte-wise. *)
Definition created_before (cutoff : string) (r : session_row) : bool :=
  String.ltb (row_created_at r) cutoff.

Definition select_created_before (cutoff : string) : Tx (list string) :=
  call ;;
  do d <- get;
  ret ((map_to_list
          (filter (fun kr => created_before cutoff kr.2 = true)
             (tbl_sessions d))).*1).

(** The [try] block of [cleanup_old_sessions]. *)
Definition cleanup_tx (now : datetime) (max_age_hours : Z) : Tx Z :=
  do cutoff <- lift OverflowError (sub_hours now max_age_hours);
  let cutoff := isoformat cutoff in
  do session_ids <- select_created_before cutoff;
  for_each session_ids
    (fun sid => delete_exchanges sid ;; delete_session sid) ;;
  commit ;;
  ret (Z.of_nat (length session_ids)).

(** [cleanup_old_sessions(max_age_hours)]: on an exception inside the
    [try] it rolls back and returns 0. *)
Definition cleanup_old_sessions (now : datetime) (f : option nat)
    (max_age_hours : Z) (d : database) : (exn + Z) * database :=
  match get_connection (mk_conn d f) with
  | inl e => (inl e, d)
  | inr (_, c) =>
      match cleanup_tx now max_age_hours c with
      | inl _ => (inr 0, d)
      | inr (n, c') => (inr n, db c')
      end
  end.

(** ** What [save] writes, as pure functions

    These describe the rows that a [save] without driver failure leaves
    behind; they are used to state and prove the properties below. *)

(** The exchange rows inserted for [exs] when the rowid counter is at
    [seq]: rowids [seq + 1], [seq + 2], ... in list order. *)
Fixpoint exchange_rows (sid now : string) (seq : Z)
    (exs : list InterviewExchange) : list exchange_row :=
  match exs with
  | [] => []
  | x :: rest =>
      mk_exchange_row (seq + 1) sid (question x) (answer x)
        (answer_duration_seconds x) (isoformat (timestamp x)) now
      :: exchange_rows sid now (seq + 1) rest
  end.

Fixpoint evaluation_rows (seq : Z) (exs : list InterviewExchange)
    : list evaluation_row :=
  match exs with
  | [] => []
  | x :: rest =>
      option_list (evaluation_columns (seq + 1) <$> evaluation x)
      ++ evaluation_rows (seq + 1) rest
  end.

Fixpoint coaching_rows (seq : Z) (exs : list InterviewExchange)
    : list coaching_row :=
  match exs with
  | [] => []
  | x :: rest =>
      option_list (coaching_columns (seq + 1) <$> coaching_feedback x)
      ++ coaching_rows (seq + 1) rest
  end.

(** The rows that the join of [load] returns for them. *)
Fixpoint joined_rows (sid now : string) (seq : Z)
    (exs : list InterviewExchange) : list joined_row :=
  match exs with
  | [] => []
  | x :: rest =>
      mk_joined_row
        (mk_exchange_row (seq + 1) sid (question x) (answer x)
           (answer_duration_seconds x) (isoformat (timestamp x)) now)
        (evaluation_columns (seq + 1) <$> evaluation x)
        (coaching_columns (seq + 1) <$> coaching_feedback x)
      :: joined_rows sid now (seq + 1) rest
  end.

(** The [sessions] table after the upsert. *)
Definition upsert (now : string) (session : InterviewSession)
    (m : gmap string session_row) : gmap string session_row :=
  match m !! session_id session with
  | Some r =>
      <[session_id session :=
          mk_session_row (state_value (state session)) (row_resume_text r)
            (row_job_description r) (current_question session)
            (row_started_at r) (isoformat <$> ended_at session)
            (total_questions_asked session) (total_filler_words session)
            (average_wpm session) (row_created_at r) now]> m
  | None => <[session_id session := session_columns session now]> m
  end.

(** The database after a [save] that meets no driver failure. *)
Definition saved (now : datetime) (session : InterviewSession)
    (d : database) : database :=
  let sid := session_id session in
  let kept :=
    List.filter (fun e => negb (of_session sid e)) (tbl_exchanges d) in
  mk_database
    (upsert (isoformat now) session (tbl_sessions d))
    (kept ++ exchange_rows sid (isoformat now) (seq_exchanges d)
               (exchanges session))
    (seq_exchanges d + Z.of_nat (length (exchanges session)))
    (tbl_evaluations d ++ evaluation_rows (seq_exchanges d)
                            (exchanges session))
    (tbl_coaching d ++ coaching_rows (seq_exchanges d) (exchanges session)).

(** The number of driver calls [save] makes for a session: connect,
    SELECT, UPDATE or INSERT, DELETE, the INSERTs of the loop, commit. *)
Definition exchange_calls (x : InterviewExchange) : nat :=
  (1 + match evaluation x with Some _ => 1 | None => 0 end
     + match coaching_feedback x with Some _ => 1 | None => 0 end)%nat.

Definition save_calls (session : InterviewSession) : nat :=
  (4 + sum_list (exchange_calls <$> exchanges session) + 1)%nat.

(** [uses m n]: the computation [m] makes exactly [n] driver calls and
    raises nothing of its own.  With an oracle that never fails it
    completes; with the oracle at [Some k] it raises [OperationalError]
    when [k < n], and otherwise completes in the same way, leaving the
    oracle at [Some (k - n)]. *)
Definition uses {A} (m : Tx A) (n : nat) : Prop :=
  forall d : database,
  exists (a : A) (d' : database),
    m (mk_conn d None) = inr (a, mk_conn d' None) /\
    forall k : nat,
      m (mk_conn d (Some k))
      = if (k <? n)%nat then inl OperationalError
        else inr (a, mk_conn d' (Some (k - n)%nat)).

(** ** Invariants *)

(** No child row refers to a rowid that [exchanges] has not handed out
    yet.  It holds of the empty database and is kept by every operation
    of the repository. *)
Definition wf (d : database) : bool :=
  forallb (fun r => ex_id r <=? seq_exchanges d) (tbl_exchanges d) &&
  forallb (fun r => ev_exchange_id r <=? seq_exchanges d)
    (tbl_evaluations d) &&
  forallb (fun r => cf_exchange_id r <=? seq_exchanges d) (tbl_coaching d).

(** Every datetime of the session was built by the [datetime]
    constructor. *)
Definition valid_optional (t : option datetime) : bool :=
  match t with Some t => valid t | None => true end.

Definition valid_session (session : InterviewSession) : bool :=
  valid_optional (started_at session) &&
  valid_optional (ended_at session) &&
  forallb (fun x => valid (timestamp x)) (exchanges session).

(** Every float of the session is one that a REAL column gives back
    unchanged: [average_wpm], each exchange's [answer_duration_seconds]
    and the [words_per_minute] of its coaching feedback. *)
Definition storable_session (session : InterviewSession) : bool :=
  storable (average_wpm session) &&
  forallb (fun x =>
             storable (answer_duration_seconds x) &&
             match coaching_feedback x with
             | Some c => storable (words_per_minute c)
             | None => true
             end)
    (exchanges session).

(** The stored row, if any, carries the columns that UPDATE leaves alone
    as the session has them. *)
Definition insert_only_columns_agree (session : InterviewSession)
    (d : database) : Prop :=
  match tbl_sessions d !! session_id session with
  | None => True
  | Some r =>
      row_resume_text r = resume_text session /\
      row_job_description r = job_description session /\
      row_started_at r = isoformat <$> started_at session
  end.

(** The rows of a table that belong to a session, counted. *)
Definition session_row_count (sid : string) (d : database) : nat :=
  length (filter (fun kr : string * session_row => kr.1 = sid)
            (map_to_list (tbl_sessions d))).

Definition exchange_row_count (sid : string) (d : database) : nat :=
  length (List.filter (of_session sid) (tbl_exchanges d)).

(** The ids that [cleanup_old_sessions] selects, and the database after
    its loop has run over a list of ids. *)
Definition old_ids (cutoff : string) (d : database) : list string :=
  (map_to_list
     (filter (fun kr : string * session_row =>
                created_before cutoff kr.2 = true)
        (tbl_sessions d))).*1.

Definition purged (ids : list string) (d : database) : database :=
  mk_database
    (foldl (fun m sid => delete sid m) (tbl_sessions d) ids)
    (List.filter
       (fun e => negb (existsb (String.eqb (ex_session_id e)) ids))
       (tbl_exchanges d))
    (seq_exchanges d) (tbl_evaluations d) (tbl_coaching d).

Definition is_old (cutoff : string) (d : database) (sid : string) : bool :=
  match tbl_sessions d !! sid with
  | Some r => created_before cutoff r
  | None => false
  end.

(** ** [delete]

    Named [delete_stored] here: [delete] is the removal of a key from a
    finite map. *)

(** The [try] block of [delete].  Without a row it returns [False] at
    once; the comment in the source expects the child rows to go with
    the exchanges, but no statement deletes them and the schema declares
    no cascade. *)
Definition delete_tx (sid : string) : Tx bool :=
  do row <- select_session sid;
  match row with
  | None => ret false
  | Some _ =>
      delete_exchanges sid ;;
      delete_session sid ;;
      commit ;;
      ret true
  end.

(** [delete(session_id)]: on an exception inside the [try] it rolls back
    and returns [False]. *)
Definition delete_stored (f : option nat) (sid : string) (d : database)
    : (exn + bool) * database :=
  match get_connection (mk_conn d f) with
  | inl e => (inl e, d)
  | inr (_, c) =>
      match delete_tx sid c with
      | inl _ => (inr false, d)
      | inr (found, c') => (inr found, db c')
      end
  end.

(** ** [list_sessions] *)

(** [ORDER BY created_at DESC] as an insertion sort on the TEXT column:
    a row goes in front of the first row that is not newer than it. *)
Fixpoint insert_newest_first (kr : string * session_row)
    (l : list (string * session_row)) : list (string * session_row) :=
  match l with
  | [] => [kr]
  | kr' :: l' =>
      if String.ltb (row_created_at kr.2) (row_created_at kr'.2)
      then kr' :: insert_newest_first kr l'
      else kr :: l
  end.

Definition newest_first (l : list (string * session_row))
    : list (string * session_row) :=
  List.fold_right insert_newest_first [] l.

(** [SELECT session_id FROM sessions ORDER BY created_at DESC] and
    [fetchall]. *)
Definition select_session_ids : Tx (list string) :=
  call ;;
  do d <- get;
  ret ((newest_first (map_to_list (tbl_sessions d))).*1).

(** [list_sessions()]: there is no [except]; an exception reaches the
    caller. *)
Definition list_sessions (f : option nat) (d : database)
    : exn + list string :=
  match get_connection (mk_conn d f) with
  | inl e => inl e
  | inr (_, c) =>
      match select_session_ids c with
      | inl e => inl e
      | inr (ids, _) => inr ids
      end
  end.

(** ** [get_session_stats] *)

Record session_stats : Type := mk_session_stats {
  total_sessions : Z;
  total_exchanges : Z;
  database_size_mb : Q
}.

(** [SELECT COUNT( * ) FROM sessions] and [SELECT COUNT( * ) FROM
    exchanges]. *)
Definition count_sessions : Tx Z :=
  call ;; do d <- get; ret (Z.of_nat (size (tbl_sessions d))).

Definition count_exchanges : Tx Z :=
  call ;; do d <- get; ret (Z.of_nat (length (tbl_exchanges d))).

(** [get_session_stats()], with the size in bytes of the database file
    as [stat()] reports it; the quotient is taken exactly.  There is no
    [except]. *)
Definition get_session_stats (f : option nat) (st_size : Z) (d : database)
    : exn + session_stats :=
  match get_connection (mk_conn d f) with
  | inl e => inl e
  | inr (_, c) =>
      match (do n <- count_sessions;
             do m <- count_exchanges;
             ret (mk_session_stats n m
                    (inject_Z st_size / inject_Z (1024 * 1024))%Q)) c with
      | inl e => inl e
      | inr (stats, _) => inr stats
      end
  end.

(** ** Words for the properties of these operations *)

(** What [load] decodes, as functions of the rows alone. *)
Definition decode_optional (text : option string)
    : option (option datetime) :=
  match text with
  | None => Some None
  | Some EmptyString => Some None
  | Some s => Some <$> fromisoformat s
  end.

Definition decode_exchange (r : joined_row) : option InterviewExchange :=
  cf ← match j_coaching r with
       | Some c =>
           level ← alert_of_value (cf_alert_level c);
           Some (Some (mk_coaching (cf_volume_status c) (cf_pace_status c)
                         (cf_filler_count c) (cf_words_per_minute c)
                         (cf_primary_alert c) level))
       | None => Some None
       end;
  ts ← fromisoformat (ex_timestamp (j_exchange r));
  Some (mk_exchange (ex_question (j_exchange r)) (ex_answer (j_exchange r))
          (ex_answer_duration_seconds (j_exchange r))
          (match j_evaluation r with
           | Some e =>
               Some (mk_evaluation (ev_technical_accuracy e) (ev_clarity e)
                       (ev_depth e) (ev_completeness e)
                       (ev_improvement_tip e) (ev_positive_note e))
           | None => None
           end)
          cf ts).



(** The rows that the join of [load] returns for a session id. *)
Definition selected (sid : string) (d : database) : list joined_row :=
  order_by_id
    (List.filter (of_session sid) (tbl_exchanges d) ≫= join_exchange d).

(** The session that [load] builds from a [sessions] row, if its scalar
    columns decode. *)
Definition decode_row (sid : string) (row : session_row)
    : option (list InterviewExchange -> InterviewSession) :=
  st ← state_of_value (row_state row);
  started ← decode_optional (row_started_at row);
  ended ← decode_optional (row_ended_at row);
  Some (mk_session sid st (row_resume_text row) (row_job_description row)
          (row_current_question row) started ended
          (row_total_questions_asked row) (row_total_filler_words row)
          (row_average_wpm row)).

(** What [load] returns for an id when the driver does not fail. *)
Definition loaded (sid : string) (d : database) : option InterviewSession :=
  row ← tbl_sessions d !! sid;
  build ← decode_row sid row;
  exs ← mapM decode_exchange (selected sid d);
  Some (build exs).

(** [keeps P m]: whenever [m] completes from a database that satisfies
    [P], it leaves one that satisfies [P]. *)
Definition keeps (P : database -> Prop) {A} (m : Tx A) : Prop :=
  forall (c : conn) (a : A) (c' : conn),
    P (db c) -> m c = inr (a, c') -> P (db c').

(** A row is at least as new as the next one ([created_at] compared as
    SQLite compares TEXT). *)
Definition not_older (a b : string * session_row) : Prop :=
  String.ltb (row_created_at a.2) (row_created_at b.2) = false.

(** Every row of the list is at least as new as the one after it. *)
Fixpoint newest_to_oldest (l : list (string * session_row)) : Prop :=
  match l with
  | a :: (b :: _) as rest => not_older a b /\ newest_to_oldest rest
  | _ => True
  end.

End DurableStore.

(* ===================================================================== *)
(** * Fast Store: [RedisSessionStore] *)
(* ===================================================================== *)

Module FastStore.

Inductive exn : Type :=
  | RedisError | PicklingError | UnpicklingError | RuntimeError.

(** The Redis server, outside the process: each key holds a value and the
    time at which [SETEX] makes it expire.  Times are the seconds of
    [datetime.now().timestamp()]. *)
Abbreviation server := (gmap string (string * Q)).

Section WithOrchestrator.

(** The stored objects and their pickling.  [None] from [pickle_dumps] or
    [pickle_loads] stands for the exception it raises. *)
Context {Orchestrator : Type}.
Variable pickle_dumps : Orchestrator -> option string.
Variable pickle_loads : string -> option Orchestrator.

Record store : Type := mk_store {
  redis_connected : bool;          (* [self._redis is not None] *)
  session_ttl_seconds : Z;
  fallback_to_memory : bool;
  in_memory : gmap string (Orchestrator * Q)
}.

(** The process-local store together with the server it talks to. *)
Record world : Type := mk_world { local : store; remote : server }.

(** A method body: it ends in a value or an exception; either way the
    changes made so far stay. *)
Definition M (A : Type) : Type := world -> (exn + A) * world.

Definition ret {A} (a : A) : M A := fun w => (inr a, w).

Definition raise {A} (e : exn) : M A := fun w => (inl e, w).

Definition bind {A B} (m : M A) (k : A -> M B) : M B :=
  fun w => match m w with
           | (inl e, w') => (inl e, w')
           | (inr a, w') => k a w'
           end.

(** [try: body except Exception as e: handler]. *)
Definition try_except {A} (body : M A) (handler : exn -> M A) : M A :=
  fun w => match body w with
           | (inl e, w') => handler e w'
           | r => r
           end.

Notation "'do' x <- m ; k" := (bind m (fun x => k))
  (at level 10, x name, m at level 100, k at level 200,
   format "'[v' 'do'  x  <-  m ; '/' k ']'").
Notation "m ;; k" := (bind m (fun _ => k))
  (at level 100, k at level 200, right associativity).

Definition lift {A} (e : exn) (o : option A) : M A :=
  match o with Some a => ret a | None => raise e end.

Definition self : M store := fun w => (inr (local w), w).

Definition set_in_memory (m : gmap string (Orchestrator * Q)) : M unit :=
  fun w =>
    (inr tt,
     mk_world (mk_store (redis_connected (local w))
                 (session_ttl_seconds (local w))
                 (fallback_to_memory (local w)) m)
       (remote w)).

(** ** Calls on the Redis client

    [raises] is the oracle of the call: the server cannot be reached, the
    socket times out, ... *)

Definition live (now : Q) (entry : string * Q) : bool :=
  if Qlt_le_dec now entry.2 then true else false.

Definition redis_setex (raises : bool) (now : Q) (key : string) (ttl : Z)
    (value : string) : M unit :=
  if raises then raise RedisError
  else fun w =>
    (inr tt,
     mk_world (local w)
       (<[key := (value, (now + inject_Z ttl)%Q)]> (remote w))).

Definition redis_get (raises : bool) (now : Q) (key : string)
    : M (option string) :=
  if raises then raise RedisError
  else fun w =>
    (inr (match remote w !! key with
          | Some entry => if live now entry then Some entry.1 else None
          | None => None
          end), w).

Definition redis_delete (raises : bool) (now : Q) (key : string) : M Z :=
  if raises then raise RedisError
  else fun w =>
    (inr (match remote w !! key with
          | Some entry => if live now entry then 1 else 0
          | None => 0
          end),
     mk_world (local w) (delete key (remote w))).

Definition session_key (session_id : string) : string :=
  "session:" +:+ session_id.

(** ** [__init__] and [_try_connect_redis]

    [ping_ok] tells whether [import redis], [from_url] and [ping] all
    succeed. *)
Definition init (ping_ok : bool) (fallback : bool) (session_ttl_hours : Z)
    : exn + store :=
  let s := mk_store false (session_ttl_hours * 3600) fallback ∅ in
  if ping_ok
  then inr (mk_store true (session_ttl_seconds s) fallback (in_memory s))
  else if negb fallback then inl RuntimeError
  else inr s.

(** ** [set_orchestrator] *)
Definition set_orchestrator (raises : bool) (now : Q) (session_id : string)
    (orchestrator : Orchestrator) : M unit :=
  do s <- self;
  if redis_connected s then
    try_except
      (do orchestrator_bytes <-
         lift PicklingError (pickle_dumps orchestrator);
       redis_setex raises now (session_key session_id)
         (session_ttl_seconds s) orchestrator_bytes)
      (fun _ =>
         do s <- self;
         set_in_memory (<[session_id := (orchestrator, now)]> (in_memory s)))
  else
    set_in_memory (<[session_id := (orchestrator, now)]> (in_memory s)).

(** ** [get_orchestrator] *)

(** Truthiness of [bytes]: a missing or empty value is falsy. *)
Definition truthy (value : option string) : option string :=
  match value with
  | Some EmptyString => None
  | v => v
  end.

(** The [if self._redis:] block: [Some o] when it returns [o], [None] when
    control falls through to the in-memory check. *)
Definition get_from_redis (raises : bool) (now : Q) (session_id : string)
    : M (option Orchestrator) :=
  do s <- self;
  if redis_connected s then
    try_except
      (do orchestrator_bytes <-
         redis_get raises now (session_key session_id);
       match truthy orchestrator_bytes with
       | Some b =>
           do orchestrator <- lift UnpicklingError (pickle_loads b);
           ret (Some orchestrator)
       | None => ret None
       end)
      (fun _ => ret None)
  else ret None.

(** The in-memory fallback of [get_orchestrator]. *)
Definition get_from_memory (now : Q) (session_id : string)
    : M (option Orchestrator) :=
  do s <- self;
  match in_memory s !! session_id with
  | Some (orchestrator, stored_at) =>
      let age_seconds := (now - stored_at)%Q in
      if Qlt_le_dec age_seconds (inject_Z (session_ttl_seconds s))
      then ret (Some orchestrator)
      else set_in_memory (delete session_id (in_memory s)) ;; ret None
  | None => ret None
  end.

Definition get_orchestrator (raises : bool) (now : Q) (session_id : string)
    : M (option Orchestrator) :=
  do r <- get_from_redis raises now session_id;
  match r with
  | Some orchestrator => ret (Some orchestrator)
  | None => get_from_memory now session_id
  end.

(** ** [delete_orchestrator] *)
Definition delete_orchestrator (raises : bool) (now : Q)
    (session_id : string) : M bool :=
  do s <- self;
  do found <-
    (if redis_connected s then
       try_except
         (do result <- redis_delete raises now (session_key session_id);
          ret (0 <? result))
         (fun _ => ret false)
     else ret false);
  do s <- self;
  match in_memory s !! session_id with
  | Some _ =>
      set_in_memory (delete session_id (in_memory s)) ;; ret true
  | None => ret found
  end.

(** ** Words of the specification *)

(** The local store with its fallback map replaced. *)
Definition with_memory (m : gmap string (Orchestrator * Q)) (w : world)
    : world :=
  mk_world (mk_store (redis_connected (local w))
              (session_ttl_seconds (local w))
              (fallback_to_memory (local w)) m)
    (remote w).

(** The value, if any, that the server holds for the session at [now]. *)
Definition backend_entry (now : Q) (session_id : string) (w : world)
    : option string :=
  match remote w !! session_key session_id with
  | Some entry => if live now entry then Some entry.1 else None
  | None => None
  end.

(** "The shared backend yields the session": the store is connected,
    the call does not raise, and the server holds a live, non-empty value
    that unpickles. *)
Definition backend_yields (raises : bool) (now : Q) (session_id : string)
    (w : world) : option Orchestrator :=
  if redis_connected (local w) && negb raises then
    match truthy (backend_entry now session_id w) with
    | Some b => pickle_loads b
    | None => None
    end
  else None.

(** What each side holds for the session when [delete_orchestrator]
    runs: a live key on the server of a connected store (DEL then answers
    1), an entry of the in-memory map. *)
Definition held_remotely (now : Q) (session_id : string) (w : world)
    : bool :=
  redis_connected (local w) &&
  match backend_entry now session_id w with
  | Some _ => true
  | None => false
  end.

Definition held_locally (session_id : string) (w : world) : bool :=
  match in_memory (local w) !! session_id with
  | Some _ => true
  | None => false
  end.

(** ** [list_active], [cleanup_expired], [get_stats] *)

(** [KEYS prefix*]: the live keys of the server that start with the
    prefix. *)
Definition redis_keys (raises : bool) (now : Q) (prefix : string)
    : M (list string) :=
  if raises then raise RedisError
  else fun w =>
    (inr (map_to_list
            (filter (fun kv : string * (string * Q) =>
                       String.prefix prefix kv.1 = true /\
                       live now kv.2 = true)
               (remote w))).*1, w).

(** [s.replace(old, EmptyString)] for a non-empty [old]: every occurrence
    of [old], found left to right and not overlapping, is dropped.
    [skip] counts the characters of the current occurrence still to
    drop. *)
Fixpoint remove_all (old : string) (skip : nat) (s : string) : string :=
  match s with
  | EmptyString => EmptyString
  | String c s' =>
      match skip with
      | S k => remove_all old k s'
      | O =>
          if String.prefix old s
          then remove_all old (String.length old - 1) s'
          else String c (remove_all old 0 s')
      end
  end.

(** [key.decode().replace("session:", EmptyString)]. *)
Definition key_to_id (key : string) : string := remove_all "session:" 0 key.

(** One step of the loop of [list_active] over the in-memory items: an
    unexpired id is added to the set, an expired entry is deleted. *)
Definition list_step (now : Q) (ttl : Z)
    (acc : gset string * gmap string (Orchestrator * Q))
    (item : string * (Orchestrator * Q))
    : gset string * gmap string (Orchestrator * Q) :=
  let '(sid, (_, stored_at)) := item in
  let age_seconds := (now - stored_at)%Q in
  if Qlt_le_dec age_seconds (inject_Z ttl)
  then ({[ sid ]} ∪ acc.1, acc.2)
  else (acc.1, delete sid acc.2).

(** [list_active()]: the list made of a set, in the order of the set's
    elements. *)
Definition list_active (raises : bool) (now : Q) : M (list string) :=
  do s <- self;
  do session_ids <-
    (if redis_connected s then
       try_except
         (do pattern_keys <- redis_keys raises now "session:";
          ret (list_to_set (key_to_id <$> pattern_keys)))
         (fun _ => ret ∅)
     else ret ∅);
  do s <- self;
  let acc :=
    foldl (list_step now (session_ttl_seconds s))
      (session_ids, in_memory s) (map_to_list (in_memory s)) in
  set_in_memory acc.2 ;;
  ret (elements acc.1).

(** One step of the loop of [cleanup_expired]. *)
Definition cleanup_step (now : Q) (ttl : Z)
    (acc : Z * gmap string (Orchestrator * Q))
    (item : string * (Orchestrator * Q))
    : Z * gmap string (Orchestrator * Q) :=
  let '(sid, (_, stored_at)) := item in
  let age_seconds := (now - stored_at)%Q in
  if Qlt_le_dec age_seconds (inject_Z ttl)
  then acc
  else (acc.1 + 1, delete sid acc.2).

(** [cleanup_expired()]. *)
Definition cleanup_expired (now : Q) : M Z :=
  do s <- self;
  let acc :=
    foldl (cleanup_step now (session_ttl_seconds s))
      (0, in_memory s) (map_to_list (in_memory s)) in
  set_in_memory acc.2 ;;
  ret acc.1.

(** The dictionary of [get_stats]; [redis_sessions] is present only when
    the backend is connected and its KEYS call went through. *)
Record store_stats : Type := mk_store_stats {
  backend : string;
  session_ttl_hours : Q;
  redis_sessions : option Z;
  memory_sessions : Z;
  total_active : Z
}.

(** [get_stats()].  It calls KEYS itself (oracle [raises_keys], server
    clock [now_keys]) and then calls [list_active] (oracle [raises],
    clock [now]). *)
Definition get_stats (raises_keys raises : bool) (now_keys now : Q)
    : M store_stats :=
  do s <- self;
  do counted <-
    (if redis_connected s then
       try_except
         (do keys <- redis_keys raises_keys now_keys "session:";
          ret (Some (Z.of_nat (length keys))))
         (fun _ => ret None)
     else ret None);
  do s <- self;
  let memory := Z.of_nat (size (in_memory s)) in
  do active <- list_active raises now;
  ret (mk_store_stats
         (if redis_connected s then "redis" else "memory")
         (inject_Z (session_ttl_seconds s) / 3600)%Q
         counted memory (Z.of_nat (length active))).

(** ** Words for the properties of these operations *)

(** An entry of the in-memory map has not reached its TTL at [now]. *)
Definition fresh (now : Q) (ttl : Z) (entry : Orchestrator * Q) : bool :=
  if Qlt_le_dec (now - entry.2) (inject_Z ttl) then true else false.

(** The in-memory map without its expired entries. *)
Definition fresh_entries (now : Q) (w : world)
    : gmap string (Orchestrator * Q) :=
  filter (fun kv : string * (Orchestrator * Q) =>
            fresh now (session_ttl_seconds (local w)) kv.2 = true)
    (in_memory (local w)).

(** [old] occurs somewhere in [s]. *)
Fixpoint occurs (old : string) (s : string) : bool :=
  match s with
  | EmptyString => String.prefix old s
  | String _ s' => String.prefix old s || occurs old s'
  end.

End WithOrchestrator.

End FastStore.

(* ===================================================================== *)
(** * Orchestrator state machine *)
(* ===================================================================== *)

Module Orchestrator.
Import Datetime Domain.

(** Modelled from the spec: [src/app/orchestrator.py] and
    [src/core/exceptions.py] are not among the sources; only
    [tests/test_orchestrator.py] is.  The definitions below follow section
    4.4 of the specification (states, operations, observers, failure
    semantics) and section 6 (the collaborator contracts). *)

(** Modelled from the spec: the errors of the missing
    [src/core/exceptions.py] that the operations signal. *)
Inductive error : Type :=
  | SessionError          (* no active session, or one already active *)
  | CollaboratorError.    (* a collaborator raised *)

(** What an operation does to the outside: collaborator calls and observer
    notifications, in the order they happen. *)
Inductive event : Type :=
  | OpeningQuestionCall (resume job : string)
  | NextQuestionCall (context : list InterviewExchange)
  | TranscribeCall (audio : string) (sample_rate : Z)
  | CoachCall (audio : string) (sample_rate : Z)
  | EvaluateCall (question answer : string)
                 (context : list InterviewExchange)
  | StateChanged (s : InterviewState)
  | QuestionProduced (q : string)
  | FeedbackComputed (cf : CoachingFeedback).

(** Modelled from the spec: the state of an [InterviewOrchestrator] of
    the missing [src/app/orchestrator.py]: its state, its session if any,
    and which observers are registered. *)
Record orchestrator : Type := mk_orchestrator {
  o_state : InterviewState;
  o_session : option InterviewSession;
  on_state_change : bool;      (* is an observer registered? *)
  on_question : bool;
  on_feedback : bool
}.

(** A new orchestrator: no session, no observers. *)
Definition new : orchestrator := mk_orchestrator IDLE None false false false.

Definition notify (registered : bool) (e : event) : list event :=
  if registered then [e] else [].

Definition with_session (o : orchestrator) (st : InterviewState)
    (s : option InterviewSession) : orchestrator :=
  mk_orchestrator st s (on_state_change o) (on_question o) (on_feedback o).

Section WithCollaborators.

(** The collaborators; [None] is a failure of the call. *)
Variable opening_question : string -> string -> option string.
Variable next_question : list InterviewExchange -> option string.
Variable transcribe : string -> Z -> option string.
Variable coach_feedback : string -> Z -> option CoachingFeedback.
Variable evaluate :
  string -> string -> list InterviewExchange -> option AnswerEvaluation.
(** Derived numbers that the specification leaves to the implementation:
    the duration of an answer and the running average words-per-minute. *)
Variable duration : string -> Z -> float.
Variable mean_wpm : list InterviewExchange -> float.

Definition outcome (A : Type) : Type :=
  (error + A) * orchestrator * list event.

(** Modelled from the spec: [start_session] of the missing
    [orchestrator.py].  It fails if a session is already active; otherwise
    it creates a session in state INTRO and notifies the state
    observer. *)
Definition start_session (new_id : string) (now : datetime)
    (resume job : string) (o : orchestrator) : outcome string :=
  match o_session o with
  | Some _ => (inl SessionError, o, [])
  | None =>
      let s := mk_session new_id INTRO resume job None (Some now) None
                 0 0 (Float 0) [] in
      (inr new_id, with_session o INTRO (Some s),
       notify (on_state_change o) (StateChanged INTRO))
  end.

(** Modelled from the spec: [get_next_question] of the missing
    [orchestrator.py].  It fails without a session; it takes the opening
    path when no exchange exists yet; it enters LISTENING. *)
Definition get_next_question (o : orchestrator) : outcome string :=
  match o_session o with
  | None => (inl SessionError, o, [])
  | Some s =>
      let '(call, answer) :=
        match exchanges s with
        | [] => (OpeningQuestionCall (resume_text s) (job_description s),
                 opening_question (resume_text s) (job_description s))
        | exs => (NextQuestionCall exs, next_question exs)
        end in
      match answer with
      | None => (inl CollaboratorError, o, [call])
      | Some q =>
          let s' :=
            mk_session (session_id s) LISTENING (resume_text s)
              (job_description s) (Some q) (started_at s) (ended_at s)
              (total_questions_asked s) (total_filler_words s)
              (average_wpm s) (exchanges s) in
          (inr q, with_session o LISTENING (Some s'),
           ([call] ++ notify (on_state_change o) (StateChanged LISTENING)
                   ++ notify (on_question o) (QuestionProduced q))%list)
      end
  end.

(** Modelled from the spec: [process_answer] of the missing
    [orchestrator.py].  It fails with a session-state error if no session
    is active.  Otherwise: EVALUATING; transcription, coaching, evaluation
    in this order; a new exchange; the counters; the feedback observer.
    A collaborator failure propagates and leaves the orchestrator as it
    was before the call. *)
Definition process_answer (now : datetime) (audio : string)
    (sample_rate : Z) (o : orchestrator)
    : outcome (string * CoachingFeedback * AnswerEvaluation) :=
  match o_session o with
  | None => (inl SessionError, o, [])
  | Some s =>
      let q := default EmptyString (current_question s) in
      let e0 := notify (on_state_change o) (StateChanged EVALUATING) in
      let e1 := (e0 ++ [TranscribeCall audio sample_rate])%list in
      match transcribe audio sample_rate with
      | None => (inl CollaboratorError, o, e1)
      | Some transcript =>
          let e2 := (e1 ++ [CoachCall audio sample_rate])%list in
          match coach_feedback audio sample_rate with
          | None => (inl CollaboratorError, o, e2)
          | Some cf =>
              let e3 :=
                (e2 ++ [EvaluateCall q transcript (exchanges s)])%list in
              match evaluate q transcript (exchanges s) with
              | None => (inl CollaboratorError, o, e3)
              | Some ev =>
                  let exs :=
                    (exchanges s ++
                     [mk_exchange q transcript (duration audio sample_rate)
                        (Some ev) (Some cf) now])%list in
                  let s' :=
                    mk_session (session_id s) EVALUATING (resume_text s)
                      (job_description s) (current_question s)
                      (started_at s) (ended_at s)
                      (total_questions_asked s + 1)
                      (total_filler_words s + filler_count cf)
                      (mean_wpm exs) exs in
                  (inr (transcript, cf, ev),
                   with_session o EVALUATING (Some s'),
                   (e3 ++ notify (on_feedback o) (FeedbackComputed cf))%list)
              end
          end
      end
  end.

(** Modelled from the spec: [reset] of the missing [orchestrator.py]:
    back to IDLE, the session dropped. *)
Definition reset (o : orchestrator) : orchestrator :=
  with_session o IDLE None.

(** IDLE is the state of an orchestrator without a session, and of no
    other. *)
Definition consistent (o : orchestrator) : bool :=
  match o_state o, o_session o with
  | IDLE, None => true
  | IDLE, Some _ => false
  | _, None => false
  | _, Some _ => true
  end.

End WithCollaborators.

End Orchestrator.

(* ===================================================================== *)
(** * Sample data *)
(* ===================================================================== *)

(** Concrete sessions and clock readings, built after the fixtures of
    [tests/test_orchestrator.py]; the examples and instances below run the
    stores on them. *)
Module Samples.
Import Datetime Domain.

Definition t_created : datetime := mk_datetime 2026 3 1 9 0 0 0.
Definition t_question : datetime := mk_datetime 2026 3 1 9 0 30 0.
Definition t_answer1 : datetime := mk_datetime 2026 3 1 9 2 10 250000.
Definition t_answer2 : datetime := mk_datetime 2026 3 1 9 5 0 0.

Definition good_evaluation : AnswerEvaluation :=
  mk_evaluation 8 8 7 8 "Could add more specific examples."
    "Great explanation of design patterns.".

Definition ok_coaching : CoachingFeedback :=
  mk_coaching "OK" "OK" 2 (Float 125) EmptyString OK.

Definition exchange1 : InterviewExchange :=
  mk_exchange "Tell me about yourself and your background."
    "I have five years of experience with Python and FastAPI."
    (Float 42) (Some good_evaluation) (Some ok_coaching) t_answer1.

Definition exchange2 : InterviewExchange :=
  mk_exchange "What's your experience with Python?" "Quite some."
    (Float 7) None None t_answer2.

(** A session whose start time is not set yet ([started_at] is
    [None]). *)
Definition session_new : InterviewSession :=
  mk_session "s-1" INTRO "resume" "job" None None None 0 0 (Float 0) [].

(** The same session with its start time set. *)
Definition session_started : InterviewSession :=
  mk_session "s-1" INTRO "resume" "job" None (Some t_created) None 0 0
    (Float 0) [].

(** The same session two answers later. *)
Definition session_two : InterviewSession :=
  mk_session "s-1" EVALUATING "resume" "job"
    (Some "What's your experience with Python?") (Some t_created) None
    2 2 (Float 125) [exchange1; exchange2].

Definition other_session : InterviewSession :=
  mk_session "s-2" INTRO "resume 2" "job 2" None (Some t_answer2) None 0 0
    (Float 0) [].

(** The clock 25 hours after [t_created], the cutoff 24 hours before it,
    and the clock one hour before it. *)
Definition t_now : datetime := mk_datetime 2026 3 2 10 0 0 0.
Definition t_cutoff : datetime := mk_datetime 2026 3 1 10 0 0 0.
Definition t_hour_ago : datetime := mk_datetime 2026 3 2 9 0 0 0.

(** A store with one session saved 25 hours ago and one saved an hour
    ago. *)
Definition db_old_and_recent : DurableStore.database :=
  (DurableStore.save t_hour_ago None other_session
     (DurableStore.save t_created None session_two
        DurableStore.empty_db).2).2.




(** Orchestrators stood in for by their names, pickled behind a one-byte
    tag. *)
Definition sample_dumps (o : string) : option string := Some ("P" +:+ o).

Definition sample_loads (b : string) : option string :=
  match b with
  | String "P" o => Some o
  | _ => None
  end.

(** A store whose connection attempt failed (fallback enabled, TTL two
    hours), one whose attempt succeeded, and servers for them. *)
Definition store_down : @FastStore.store string :=
  FastStore.mk_store false 7200 true ∅.

Definition store_up : @FastStore.store string :=
  FastStore.mk_store true 7200 true ∅.

Definition empty_server : FastStore.server := ∅.

(** The collaborators of the test fixtures. *)
Definition mock_transcribe (_ : string) (_ : Z) : option string :=
  Some "I have five years of experience with Python and FastAPI.".
Definition mock_coach (_ : string) (_ : Z) : option CoachingFeedback :=
  Some ok_coaching.
Definition mock_evaluate (_ _ : string) (_ : list InterviewExchange)
    : option AnswerEvaluation :=
  Some good_evaluation.
Definition mock_duration (_ : string) (_ : Z) : float := Float 0.
Definition mock_mean_wpm (_ : list InterviewExchange) : float := Float 125.
Definition mock_opening (_ _ : string) : option string :=
  Some "Tell me about yourself and your background.".
Definition mock_next (_ : list InterviewExchange) : option string :=
  Some "What's your experience with Python?".

End Samples.
Example isoformat_ex1 :
  Datetime.isoformat (Datetime.mk_datetime 2026 1 2 12 0 5 0)
  = "2026-01-02T12:00:05".
Proof. reflexivity. Qed.

Example isoformat_ex2 :
  Datetime.isoformat (Datetime.mk_datetime 987 11 30 23 59 59 1500)
  = "0987-11-30T23:59:59.001500".
Proof. reflexivity. Qed.

Example fromisoformat_ex1 :
  Datetime.fromisoformat "2026-01-02T12:00:05.000042"
  = Some (Datetime.mk_datetime 2026 1 2 12 0 5 42).
Proof. reflexivity. Qed.

Example fromisoformat_ex2 : Datetime.fromisoformat "yesterday" = None.
Proof. reflexivity. Qed.

Example sub_hours_ex1 :
  Datetime.sub_hours (Datetime.mk_datetime 2024 3 1 1 30 0 7) 25
  = Some (Datetime.mk_datetime 2024 2 29 0 30 0 7).
Proof. vm_compute. reflexivity. Qed.

Example sub_hours_ex2 :
  Datetime.sub_hours (Datetime.mk_datetime 2026 1 1 0 0 0 0) 1
  = Some (Datetime.mk_datetime 2025 12 31 23 0 0 0).
Proof. vm_compute. reflexivity. Qed.

(* ===================================================================== *)
(** * Facts about ISO-8601 texts *)
(* ===================================================================== *)

Section DatetimeFacts.
Import Datetime.

Lemma digit_code (n : Z) :
  Z.of_N (N_of_ascii (digit n)) = 48 + n mod 10.
Proof.
  unfold digit.
  assert (0 <= n mod 10 < 10) by (apply Z.mod_pos_bound; lia).
  rewrite N_ascii_embedding by lia.
  rewrite Z2N.id; lia.
Qed.

Lemma digit_val_digit (n : Z) : digit_val (digit n) = Some (n mod 10).
Proof.
  unfold digit_val, between. rewrite digit_code.
  assert (0 <= n mod 10 < 10) by (apply Z.mod_pos_bound; lia).
  replace (48 <=? 48 + n mod 10) with true by (symmetry; apply Z.leb_le; lia).
  replace (48 + n mod 10 <=? 57) with true by (symmetry; apply Z.leb_le; lia).
  simpl. f_equal. lia.
Qed.

Lemma pow10_pos (w : nat) : 0 < 10 ^ Z.of_nat w.
Proof. apply Z.pow_pos_nonneg; lia. Qed.

Lemma pow10_succ (w : nat) : 10 ^ Z.of_nat (S w) = 10 ^ Z.of_nat w * 10.
Proof. rewrite Nat2Z.inj_succ, Z.pow_succ_r by lia. lia. Qed.

Lemma mod_pow10_succ (n : Z) (w : nat) :
  n mod 10 ^ Z.of_nat (S w)
  = n mod 10 ^ Z.of_nat w + 10 ^ Z.of_nat w * ((n / 10 ^ Z.of_nat w) mod 10).
Proof.
  rewrite pow10_succ. pose proof (pow10_pos w).
  apply Z.rem_mul_r; lia.
Qed.

Lemma append_String (c : ascii) (s r : string) :
  String c s +:+ r = String c (s +:+ r).
Proof. reflexivity. Qed.

Lemma append_empty_r (s : string) : s +:+ EmptyString = s.
Proof. induction s as [|c s IH]; [done|]. by rewrite append_String, IH. Qed.

Lemma append_empty_l (s : string) : EmptyString +:+ s = s.
Proof. reflexivity. Qed.

Lemma read_digits_pad (w : nat) : forall (n acc : Z) (rest : string),
  read_digits w acc (pad w n +:+ rest)
  = Some (acc * 10 ^ Z.of_nat w + n mod 10 ^ Z.of_nat w, rest).
Proof.
  induction w as [|w IH]; intros n acc rest.
  - simpl. rewrite Z.mod_1_r. do 2 f_equal. lia.
  - cbn [pad]. rewrite append_String. cbn [read_digits]. rewrite digit_val_digit, IH.
    rewrite mod_pow10_succ, pow10_succ. do 2 f_equal. lia.
Qed.

Lemma ascii_compare_digit (a b : Z) :
  Ascii.compare (digit a) (digit b) = (a mod 10 ?= b mod 10).
Proof.
  unfold Ascii.compare.
  rewrite <- N2Z.inj_compare, !digit_code.
  apply Z.add_compare_mono_l.
Qed.

Lemma lex_compare_radix (p a a' b b' : Z) :
  0 <= b < p -> 0 <= b' < p ->
  (b + p * a ?= b' + p * a') = lex (a ?= a') (b ?= b').
Proof.
  intros Hb Hb'.
  destruct (Z.compare_spec a a') as [->|Hlt|Hgt]; simpl.
  - rewrite !(Z.add_comm _ (p * a')). apply Z.add_compare_mono_l.
  - apply Z.compare_lt_iff. nia.
  - apply Z.compare_gt_iff. nia.
Qed.

Lemma lex_assoc (a b c : comparison) : lex (lex a b) c = lex a (lex b c).
Proof. by destruct a. Qed.

Lemma compare_pad (w : nat) : forall (n m : Z) (r r' : string),
  String.compare (pad w n +:+ r) (pad w m +:+ r')
  = lex (n mod 10 ^ Z.of_nat w ?= m mod 10 ^ Z.of_nat w) (String.compare r r').
Proof.
  induction w as [|w IH]; intros n m r r'.
  - simpl. by rewrite !Z.mod_1_r.
  - cbn [pad]. rewrite !append_String. cbn [String.compare].
    rewrite ascii_compare_digit, !mod_pow10_succ.
    pose proof (pow10_pos w) as Hp.
    rewrite lex_compare_radix by (apply Z.mod_pos_bound; lia).
    rewrite lex_assoc, <- IH.
    by destruct (_ ?= _).
Qed.

Lemma days_in_month_le (y m : Z) : days_in_month y m <= 31.
Proof.
  unfold days_in_month.
  repeat match goal with |- context [if ?b then _ else _] => destruct b end;
    lia.
Qed.

Lemma valid_bounds (d : datetime) :
  valid d = true ->
  (1 <= year d < 10 ^ Z.of_nat 4) /\ (0 <= month d < 10 ^ Z.of_nat 2) /\
  (0 <= day d < 10 ^ Z.of_nat 2) /\ (0 <= hour d < 10 ^ Z.of_nat 2) /\
  (0 <= minute d < 10 ^ Z.of_nat 2) /\ (0 <= second d < 10 ^ Z.of_nat 2) /\
  (0 <= microsecond d < 10 ^ Z.of_nat 6).
Proof.
  unfold valid, between. rewrite !andb_true_iff, !Z.leb_le.
  pose proof (days_in_month_le (year d) (month d)).
  change (10 ^ Z.of_nat 4) with 10000. change (10 ^ Z.of_nat 2) with 100.
  change (10 ^ Z.of_nat 6) with 1000000. lia.
Qed.

Lemma read_fraction_fraction (us : Z) :
  0 <= us < 10 ^ Z.of_nat 6 -> read_fraction (fraction us) = Some us.
Proof.
  intros Hus. unfold fraction.
  destruct (Z.eqb_spec us 0) as [->|Hne]; [reflexivity|].
  change ("." +:+ pad 6 us) with (String "." (pad 6 us)).
  cbn [read_fraction]. change (Ascii.eqb "." ".") with true. cbn iota.
  rewrite <- (append_empty_r (pad 6 us)) at 1.
  rewrite read_digits_pad, Z.mod_small by lia. reflexivity.
Qed.

Lemma isoformat_nonempty (d : datetime) : isoformat d <> EmptyString.
Proof. unfold isoformat. cbn [pad]. by rewrite append_String. Qed.

Lemma fromisoformat_isoformat (d : datetime) :
  valid d = true -> fromisoformat (isoformat d) = Some d.
Proof.
  intros Hv. pose proof (valid_bounds d Hv) as (Hy & Hmo & Hd & Hh & Hmi & Hs & Hus).
  unfold fromisoformat, isoformat.
  repeat (rewrite read_digits_pad, Z.mod_small by lia; cbn [mbind option_bind];
          try (rewrite append_String, append_empty_l; cbn [expect];
               rewrite Ascii.eqb_refl; cbn [mbind option_bind])).
  rewrite read_fraction_fraction by lia. cbn [mbind option_bind].
  rewrite !Z.mul_0_l, !Z.add_0_l.
  destruct d; cbn [year month day hour minute second microsecond] in *.
  by rewrite Hv.
Qed.

Lemma compare_fraction (u u' : Z) :
  0 <= u < 10 ^ Z.of_nat 6 -> 0 <= u' < 10 ^ Z.of_nat 6 ->
  String.compare (fraction u) (fraction u') = (u ?= u').
Proof.
  intros Hu Hu'. unfold fraction.
  destruct (Z.eqb_spec u 0) as [->|Hne], (Z.eqb_spec u' 0) as [->|Hne'].
  - reflexivity.
  - change ("." +:+ pad 6 u') with (String "." (pad 6 u')).
    symmetry. apply Z.compare_lt_iff. lia.
  - change ("." +:+ pad 6 u) with (String "." (pad 6 u)).
    symmetry. apply Z.compare_gt_iff. lia.
  - change ("." +:+ pad 6 u) with (String "." (pad 6 u)).
    change ("." +:+ pad 6 u') with (String "." (pad 6 u')).
    cbn [String.compare]. change (Ascii.compare "." ".") with Eq. cbn iota.
    rewrite <- (append_empty_r (pad 6 u)), <- (append_empty_r (pad 6 u')).
    rewrite compare_pad, !Z.mod_small by lia.
    by destruct (u ?= u').
Qed.

Lemma compare_separator (c : ascii) (r r' : string) :
  String.compare (String c r) (String c r') = String.compare r r'.
Proof.
  cbn [String.compare].
  replace (Ascii.compare c c) with Eq; [done|].
  unfold Ascii.compare. by rewrite N.compare_refl.
Qed.

Lemma compare_isoformat (a b : datetime) :
  valid a = true -> valid b = true ->
  String.compare (isoformat a) (isoformat b) = compare a b.
Proof.
  intros Ha Hb.
  pose proof (valid_bounds a Ha) as (? & ? & ? & ? & ? & ? & ?).
  pose proof (valid_bounds b Hb) as (? & ? & ? & ? & ? & ? & ?).
  unfold isoformat, compare.
  repeat (rewrite compare_pad, !Z.mod_small by lia; f_equal;
          try (rewrite ?append_String, ?append_empty_l, compare_separator)).
  by apply compare_fraction.
Qed.

Lemma ltb_isoformat (a b : datetime) :
  valid a = true -> valid b = true ->
  String.ltb (isoformat a) (isoformat b) = ltb a b.
Proof.
  intros Ha Hb. unfold String.ltb, ltb. by rewrite compare_isoformat.
Qed.
End DatetimeFacts.


(* ===================================================================== *)
(** * Durable Store: properties *)
(* ===================================================================== *)

Section DurableFacts.
Import Datetime Domain DurableStore.

(** ** Running [save] when the driver never fails *)

Lemma save_exchange_run (sid now : string) (x : InterviewExchange)
    (d : database) :
  save_exchange sid now x (mk_conn d None)
  = inr (tt, mk_conn
          (mk_database (tbl_sessions d)
             (tbl_exchanges d ++ exchange_rows sid now (seq_exchanges d) [x])
             (seq_exchanges d + 1)
             (tbl_evaluations d ++ evaluation_rows (seq_exchanges d) [x])
             (tbl_coaching d ++ coaching_rows (seq_exchanges d) [x]))
          None).
Proof.
  destruct d as [ss xs seq evs cfs], x as [q a dur [ev|] [cf|] ts];
    cbn; rewrite ?app_nil_r; reflexivity.
Qed.

Lemma for_each_save_exchange_run (sid now : string)
    (exs : list InterviewExchange) : forall d : database,
  for_each exs (save_exchange sid now) (mk_conn d None)
  = inr (tt, mk_conn
          (mk_database (tbl_sessions d)
             (tbl_exchanges d ++ exchange_rows sid now (seq_exchanges d) exs)
             (seq_exchanges d + Z.of_nat (length exs))
             (tbl_evaluations d ++ evaluation_rows (seq_exchanges d) exs)
             (tbl_coaching d ++ coaching_rows (seq_exchanges d) exs))
          None).
Proof.
  induction exs as [|x exs IH]; intros d.
  - destruct d; cbn. rewrite !app_nil_r, Z.add_0_r. reflexivity.
  - cbn [for_each]. unfold bind at 1. rewrite save_exchange_run, IH.
    cbn [tbl_sessions tbl_exchanges seq_exchanges tbl_evaluations
         tbl_coaching exchange_rows evaluation_rows coaching_rows length].
    rewrite !app_nil_r, <- !app_assoc. cbn [app]. do 4 f_equal. lia.
Qed.

Lemma save_tx_run (now : datetime) (session : InterviewSession)
    (d : database) :
  save_tx now session (mk_conn d None)
  = inr (tt, mk_conn (saved now session d) None).
Proof.
  unfold save_tx, saved, upsert.
  unfold bind at 1. cbn [select_session call bind get ret faults db].
  destruct (tbl_sessions d !! session_id session) as [r|] eqn:Hrow.
  - unfold bind at 1. cbn [update_session call bind get put ret faults db].
    unfold bind at 1.
    cbn [delete_exchanges call bind get put ret faults db].
    unfold bind at 1. rewrite for_each_save_exchange_run.
    cbn [commit call faults db tbl_sessions tbl_exchanges seq_exchanges
         tbl_evaluations tbl_coaching].
    do 4 f_equal.
    apply map_eq; intros k. destruct (decide (k = session_id session)) as [->|].
    + rewrite lookup_alter_eq, Hrow, lookup_insert_eq. reflexivity.
    + rewrite lookup_alter_ne, lookup_insert_ne by done. reflexivity.
  - unfold bind at 1.
    cbn [insert_session call bind get put ret faults db]. rewrite Hrow.
    cbn [put faults db]. unfold bind at 1.
    cbn [delete_exchanges call bind get put ret faults db].
    unfold bind at 1. rewrite for_each_save_exchange_run.
    reflexivity.
Qed.

Lemma save_run (now : datetime) (session : InterviewSession) (d : database) :
  save now None session d = (inr tt, saved now session d).
Proof. unfold save. cbn [get_connection call faults]. by rewrite save_tx_run. Qed.

(** ** Reading back what [save] wrote *)

Lemma filter_none {A} (p : A -> bool) (l : list A) :
  Forall (fun x => p x = false) l -> List.filter p l = [].
Proof.
  induction 1 as [|x l Hx _ IH]; [done|]. cbn. by rewrite Hx.
Qed.

Lemma filter_all {A} (p : A -> bool) (l : list A) :
  Forall (fun x => p x = true) l -> List.filter p l = l.
Proof.
  induction 1 as [|x l Hx _ IH]; [done|]. cbn. by rewrite Hx, IH.
Qed.

Lemma matches_one {A} (p : A -> bool) (old new : list A) (mid : option A) :
  Forall (fun x => p x = false) old ->
  Forall (fun x => p x = false) new ->
  (forall x, mid = Some x -> p x = true) ->
  matches p (old ++ option_list mid ++ new) = [mid].
Proof.
  intros Hold Hnew Hmid. unfold matches.
  rewrite !List.filter_app, (filter_none p old), (filter_none p new) by done.
  destruct mid as [x|]; cbn; [|done].
  by rewrite (Hmid x eq_refl).
Qed.

Lemma exchange_rows_of_session (sid now : string)
    (exs : list InterviewExchange) : forall seq : Z,
  Forall (fun e => of_session sid e = true) (exchange_rows sid now seq exs).
Proof.
  induction exs as [|x exs IH]; intros seq; cbn; constructor; [|done].
  unfold of_session. cbn. apply String.eqb_refl.
Qed.

Lemma evaluation_rows_gt (exs : list InterviewExchange) : forall seq : Z,
  Forall (fun r => seq < ev_exchange_id r) (evaluation_rows seq exs).
Proof.
  induction exs as [|x exs IH]; intros seq; cbn; [constructor|].
  apply Forall_app. split.
  - destruct (evaluation x); cbn; repeat constructor. cbn. lia.
  - eapply Forall_impl; [apply IH|]. cbn. intros; lia.
Qed.

Lemma coaching_rows_gt (exs : list InterviewExchange) : forall seq : Z,
  Forall (fun r => seq < cf_exchange_id r) (coaching_rows seq exs).
Proof.
  induction exs as [|x exs IH]; intros seq; cbn; [constructor|].
  apply Forall_app. split.
  - destruct (coaching_feedback x); cbn; repeat constructor. cbn. lia.
  - eapply Forall_impl; [apply IH|]. cbn. intros; lia.
Qed.

Lemma join_exchange_rows (sid now : string) (exs : list InterviewExchange) :
  forall (seq : Z) (ss : gmap string session_row) (xs : list exchange_row)
         (s0 : Z) (old_ev : list evaluation_row) (old_cf : list coaching_row),
  Forall (fun r => ev_exchange_id r <= seq) old_ev ->
  Forall (fun r => cf_exchange_id r <= seq) old_cf ->
  exchange_rows sid now seq exs
    ≫= join_exchange
         (mk_database ss xs s0 (old_ev ++ evaluation_rows seq exs)
            (old_cf ++ coaching_rows seq exs))
  = joined_rows sid now seq exs.
Proof.
  induction exs as [|x exs IH]; intros seq ss xs s0 old_ev old_cf Hev Hcf;
    [done|].
  cbn [exchange_rows evaluation_rows coaching_rows joined_rows].
  set (D := mk_database _ _ _ _ _).
  set (row := mk_exchange_row _ _ _ _ _ _ _).
  assert (join_exchange D row
          = [mk_joined_row row
               (evaluation_columns (seq + 1) <$> evaluation x)
               (coaching_columns (seq + 1) <$> coaching_feedback x)])
    as Hhead.
  { unfold join_exchange, D, row.
    cbn [tbl_evaluations tbl_coaching ex_id].
    rewrite !matches_one; [done|..].
    - eapply Forall_impl; [apply Hev|]. cbn. intros. apply Z.eqb_neq. lia.
    - eapply Forall_impl; [apply evaluation_rows_gt|]. cbn.
      intros. apply Z.eqb_neq. lia.
    - intros r Hr. destruct (evaluation x); [|done].
      injection Hr as <-. cbn. apply Z.eqb_refl.
    - eapply Forall_impl; [apply Hcf|]. cbn. intros. apply Z.eqb_neq. lia.
    - eapply Forall_impl; [apply coaching_rows_gt|]. cbn.
      intros. apply Z.eqb_neq. lia.
    - intros r Hr. destruct (coaching_feedback x); [|done].
      injection Hr as <-. cbn. apply Z.eqb_refl. }
  rewrite bind_cons, Hhead. cbn [app]. f_equal.
  unfold D. rewrite !app_assoc. apply IH.
  - apply Forall_app. split.
    + eapply Forall_impl; [apply Hev|]. cbn. intros; lia.
    + destruct (evaluation x); cbn; repeat constructor. cbn. lia.
  - apply Forall_app. split.
    + eapply Forall_impl; [apply Hcf|]. cbn. intros; lia.
    + destruct (coaching_feedback x); cbn; repeat constructor. cbn. lia.
Qed.

Lemma joined_rows_ids (sid now : string) (exs : list InterviewExchange) :
  forall seq : Z,
  Forall (fun r => seq < ex_id (j_exchange r)) (joined_rows sid now seq exs).
Proof.
  induction exs as [|x exs IH]; intros seq; cbn; constructor.
  - cbn. lia.
  - eapply Forall_impl; [apply IH|]. cbn. intros; lia.
Qed.

Lemma insert_by_id_first (r : joined_row) (l : list joined_row) :
  Forall (fun r' => ex_id (j_exchange r) <= ex_id (j_exchange r')) l ->
  insert_by_id r l = r :: l.
Proof.
  destruct 1 as [|r' l Hr' _]; [done|]. cbn.
  by rewrite (proj2 (Z.leb_le _ _) Hr').
Qed.

Lemma order_by_id_joined (sid now : string) (exs : list InterviewExchange) :
  forall seq : Z,
  order_by_id (joined_rows sid now seq exs) = joined_rows sid now seq exs.
Proof.
  induction exs as [|x exs IH]; intros seq; [done|].
  cbn [joined_rows]. unfold order_by_id. cbn [fold_right].
  fold (order_by_id (joined_rows sid now (seq + 1) exs)). rewrite IH.
  apply insert_by_id_first.
  eapply Forall_impl; [apply joined_rows_ids|]. cbn. intros; lia.
Qed.

Lemma state_of_value_value (st : InterviewState) :
  state_of_value (state_value st) = Some st.
Proof. by destruct st. Qed.

Lemma alert_of_value_value (a : CoachingAlertLevel) :
  alert_of_value (alert_value a) = Some a.
Proof. by destruct a. Qed.

Lemma rebuild_exchange_joined (sid now : string) (seq : Z)
    (x : InterviewExchange) (c : conn) :
  valid (timestamp x) = true ->
  rebuild_exchange
    (mk_joined_row
       (mk_exchange_row seq sid (question x) (answer x)
          (answer_duration_seconds x) (isoformat (timestamp x)) now)
       (evaluation_columns seq <$> evaluation x)
       (coaching_columns seq <$> coaching_feedback x)) c
  = inr (x, c).
Proof.
  intros Hts. unfold rebuild_exchange, bind.
  cbn [j_exchange j_evaluation j_coaching ex_timestamp ex_question
       ex_answer ex_answer_duration_seconds].
  rewrite (fromisoformat_isoformat _ Hts).
  destruct x as [q a dur [[]|] [[]|] ts];
    cbn [fmap option_fmap option_map evaluation coaching_feedback
         evaluation_columns coaching_columns cf_alert_level lift ret
         question answer answer_duration_seconds timestamp
         ev_technical_accuracy ev_clarity ev_depth ev_completeness
         ev_improvement_tip ev_positive_note cf_volume_status
         cf_pace_status cf_filler_count cf_words_per_minute
         cf_primary_alert technical_accuracy clarity depth completeness
         improvement_tip positive_note volume_status pace_status
         filler_count words_per_minute primary_alert alert_level];
    rewrite ?alert_of_value_value; reflexivity.
Qed.

Lemma map_tx_rebuild_joined (sid now : string)
    (exs : list InterviewExchange) (c : conn) : forall seq : Z,
  forallb (fun x => valid (timestamp x)) exs = true ->
  map_tx rebuild_exchange (joined_rows sid now seq exs) c = inr (exs, c).
Proof.
  induction exs as [|x exs IH]; intros seq Hv; [done|].
  cbn in Hv. apply andb_true_iff in Hv as [Hx Hexs].
  cbn [joined_rows map_tx]. unfold bind at 1.
  rewrite rebuild_exchange_joined by done.
  unfold bind at 1. by rewrite IH.
Qed.

Lemma parse_optional_iso (t : option datetime) (c : conn) :
  valid_optional t = true ->
  parse_optional (isoformat <$> t) c = inr (t, c).
Proof.
  destruct t as [t|]; [|done]. cbn [valid_optional]. intros Hv.
  pose proof (isoformat_nonempty t) as Hne.
  pose proof (fromisoformat_isoformat t Hv) as Hrt.
  unfold parse_optional. cbn [fmap option_fmap option_map].
  destruct (isoformat t) as [|a s]; [done|].
  unfold bind. by rewrite Hrt.
Qed.

Lemma wf_forall (d : database) :
  wf d = true ->
  Forall (fun r => ex_id r <= seq_exchanges d) (tbl_exchanges d) /\
  Forall (fun r => ev_exchange_id r <= seq_exchanges d) (tbl_evaluations d) /\
  Forall (fun r => cf_exchange_id r <= seq_exchanges d) (tbl_coaching d).
Proof.
  unfold wf. rewrite !andb_true_iff, !forallb_forall, !Forall_forall.
  intros [[Hx Hev] Hcf].
  repeat split; intros r Hr%list_elem_of_In; apply Z.leb_le; auto.
Qed.

Lemma filter_filter_negb {A} (p : A -> bool) (l : list A) :
  List.filter p (List.filter (fun x => negb (p x)) l) = [].
Proof.
  induction l as [|x l IH]; [done|]. cbn.
  destruct (p x) eqn:Hp; cbn; [done|]. by rewrite Hp.
Qed.

Lemma exchanges_of_saved (now : datetime) (session : InterviewSession)
    (d : database) :
  List.filter (of_session (session_id session))
    (tbl_exchanges (saved now session d))
  = exchange_rows (session_id session) (isoformat now) (seq_exchanges d)
      (exchanges session).
Proof.
  unfold saved. cbn [tbl_exchanges].
  rewrite List.filter_app, filter_filter_negb. cbn [app].
  apply filter_all, exchange_rows_of_session.
Qed.

Lemma select_exchanges_saved (now : datetime) (session : InterviewSession)
    (d : database) :
  wf d = true ->
  select_exchanges (session_id session) (mk_conn (saved now session d) None)
  = inr (joined_rows (session_id session) (isoformat now) (seq_exchanges d)
           (exchanges session),
         mk_conn (saved now session d) None).
Proof.
  intros (_ & Hev & Hcf)%wf_forall.
  unfold select_exchanges. unfold bind at 1. cbn [call faults].
  unfold bind at 1. cbn [get ret db]. rewrite exchanges_of_saved.
  unfold saved at 1. rewrite join_exchange_rows by done.
  by rewrite order_by_id_joined.
Qed.

Lemma lookup_upsert (now : string) (session : InterviewSession)
    (m : gmap string session_row) :
  upsert now session m !! session_id session
  = Some (match m !! session_id session with
          | Some r =>
              mk_session_row (state_value (state session))
                (row_resume_text r) (row_job_description r)
                (current_question session) (row_started_at r)
                (isoformat <$> ended_at session)
                (total_questions_asked session)
                (total_filler_words session) (average_wpm session)
                (row_created_at r) now
          | None => session_columns session now
          end).
Proof.
  unfold upsert. destruct (m !! session_id session); apply lookup_insert_eq.
Qed.

Lemma load_saved (now : datetime) (session : InterviewSession)
    (d : database) :
  wf d = true ->
  valid_session session = true ->
  insert_only_columns_agree session d ->
  load None (session_id session) (saved now session d) = inr (Some session).
Proof.
  intros Hwf Hvalid Hagree.
  unfold valid_session in Hvalid.
  apply andb_true_iff in Hvalid as [[Hs He]%andb_true_iff Hx].
  unfold load. cbn [get_connection call faults].
  unfold load_tx. unfold bind at 1.
  unfold select_session. unfold bind at 1. cbn [call faults].
  unfold bind at 1. cbn [get ret db].
  unfold saved at 1. cbn [tbl_sessions]. rewrite lookup_upsert.
  unfold insert_only_columns_agree in Hagree.
  destruct (tbl_sessions d !! session_id session) as [r|].
  - destruct Hagree as (Hres & Hjob & Hstart).
    cbn [row_state row_started_at row_ended_at row_resume_text
         row_job_description row_current_question
         row_total_questions_asked row_total_filler_words row_average_wpm].
    unfold bind at 1. rewrite state_of_value_value. cbn [lift ret].
    unfold bind at 1. rewrite Hstart, parse_optional_iso by done.
    unfold bind at 1. rewrite parse_optional_iso by done.
    unfold bind at 1. rewrite select_exchanges_saved by done.
    unfold bind at 1. rewrite map_tx_rebuild_joined by done.
    cbn [ret]. rewrite Hres, Hjob. by destruct session.
  - unfold session_columns.
    cbn [row_state row_started_at row_ended_at row_resume_text
         row_job_description row_current_question
         row_total_questions_asked row_total_filler_words row_average_wpm].
    unfold bind at 1. rewrite state_of_value_value. cbn [lift ret].
    unfold bind at 1. rewrite parse_optional_iso by done.
    unfold bind at 1. rewrite parse_optional_iso by done.
    unfold bind at 1. rewrite select_exchanges_saved by done.
    unfold bind at 1. rewrite map_tx_rebuild_joined by done.
    cbn [ret]. by destruct session.
Qed.

(** ** The invariant *)

Lemma wf_empty_db : wf empty_db = true.
Proof. reflexivity. Qed.

Lemma forallb_Forall {A} (p : A -> bool) (l : list A) :
  forallb p l = true <-> Forall (fun x => p x = true) l.
Proof.
  rewrite forallb_forall, Forall_forall.
  split; intros H x Hx; apply H; by apply list_elem_of_In.
Qed.

Lemma exchange_rows_le (sid now : string) (exs : list InterviewExchange) :
  forall seq : Z,
  Forall (fun r => ex_id r <= seq + Z.of_nat (length exs))
    (exchange_rows sid now seq exs).
Proof.
  induction exs as [|x exs IH]; intros seq; cbn [exchange_rows length];
    constructor.
  - cbn. lia.
  - eapply Forall_impl; [apply IH|]. cbn. intros; lia.
Qed.

Lemma evaluation_rows_le (exs : list InterviewExchange) : forall seq : Z,
  Forall (fun r => ev_exchange_id r <= seq + Z.of_nat (length exs))
    (evaluation_rows seq exs).
Proof.
  induction exs as [|x exs IH]; intros seq;
    cbn [evaluation_rows length]; [constructor|].
  apply Forall_app. split.
  - destruct (evaluation x); cbn; repeat constructor. cbn. lia.
  - eapply Forall_impl; [apply IH|]. cbn. intros; lia.
Qed.

Lemma coaching_rows_le (exs : list InterviewExchange) : forall seq : Z,
  Forall (fun r => cf_exchange_id r <= seq + Z.of_nat (length exs))
    (coaching_rows seq exs).
Proof.
  induction exs as [|x exs IH]; intros seq;
    cbn [coaching_rows length]; [constructor|].
  apply Forall_app. split.
  - destruct (coaching_feedback x); cbn; repeat constructor. cbn. lia.
  - eapply Forall_impl; [apply IH|]. cbn. intros; lia.
Qed.

Lemma Forall_filter_keep {A} (P : A -> Prop) (p : A -> bool) (l : list A) :
  Forall P l -> Forall P (List.filter p l).
Proof.
  induction 1 as [|x l Hx _ IH]; cbn; [constructor|].
  destruct (p x); [by constructor|done].
Qed.

Lemma wf_saved (now : datetime) (session : InterviewSession) (d : database) :
  wf d = true -> wf (saved now session d) = true.
Proof.
  intros (Hx & Hev & Hcf)%wf_forall.
  unfold wf, saved.
  cbn [tbl_exchanges tbl_evaluations tbl_coaching seq_exchanges].
  rewrite !andb_true_iff, !forallb_Forall, !Forall_app.
  repeat split.
  - apply Forall_filter_keep.
    eapply Forall_impl; [apply Hx|]. cbn. intros. apply Z.leb_le. lia.
  - eapply Forall_impl; [apply exchange_rows_le|]. cbn.
    intros. by apply Z.leb_le.
  - eapply Forall_impl; [apply Hev|]. cbn. intros. apply Z.leb_le. lia.
  - eapply Forall_impl; [apply evaluation_rows_le|]. cbn.
    intros. by apply Z.leb_le.
  - eapply Forall_impl; [apply Hcf|]. cbn. intros. apply Z.leb_le. lia.
  - eapply Forall_impl; [apply coaching_rows_le|]. cbn.
    intros. by apply Z.leb_le.
Qed.

(** [save] either completes, or raises and leaves the database as it
    was. *)
Lemma save_cases (now : datetime) (f : option nat)
    (session : InterviewSession) (d : database) :
  (exists d', save now f session d = (inr tt, d')) \/
  (exists e, save now f session d = (inl e, d)).
Proof.
  unfold save.
  destruct (get_connection _) as [e|[[] c]]; [right; eauto|].
  destruct (save_tx _ _ _) as [e|[[] c']]; [right|left]; eauto.
Qed.

(** A primary key holds at most one row. *)
Lemma session_row_count_lookup (sid : string) (d : database) :
  session_row_count sid d
  = match tbl_sessions d !! sid with Some _ => 1%nat | None => 0%nat end.
Proof.
  unfold session_row_count. generalize (tbl_sessions d). intros m.
  induction m as [|k r m Hk IH] using map_ind.
  - by rewrite map_to_list_empty, lookup_empty.
  - rewrite map_to_list_insert by done. rewrite filter_cons. cbn [fst].
    destruct (decide (k = sid)) as [->|Hne].
    + rewrite lookup_insert_eq. cbn [length]. rewrite IH, Hk. reflexivity.
    + rewrite lookup_insert_ne by done. apply IH.
Qed.

(** ** Counting driver calls *)

Lemma uses_eq {A} (m : Tx A) (n n' : nat) : uses m n -> n = n' -> uses m n'.
Proof. by intros H <-. Qed.

Lemma uses_ret {A} (a : A) : uses (ret a) 0.
Proof.
  intros d. exists a, d. split; [done|]. intros k. cbn.
  by rewrite Nat.sub_0_r.
Qed.

Lemma uses_call : uses call 1.
Proof.
  intros d. exists tt, d. split; [done|]. intros [|k]; cbn; [done|].
  by rewrite Nat.sub_0_r.
Qed.

Lemma uses_bind {A B} (m : Tx A) (k : A -> Tx B) (n n' : nat) :
  uses m n -> (forall a, uses (k a) n') -> uses (bind m k) (n + n').
Proof.
  intros Hm Hk d.
  destruct (Hm d) as (a & d1 & Hm0 & Hmi).
  destruct (Hk a d1) as (b & d2 & Hk0 & Hki).
  exists b, d2. unfold bind. rewrite Hm0. split; [done|].
  intros i. rewrite Hmi.
  destruct (Nat.ltb_spec i n) as [Hlt|Hge].
  - by rewrite (proj2 (Nat.ltb_lt i (n + n')%nat)) by lia.
  - rewrite Hki.
    destruct (Nat.ltb_spec (i - n) n') as [Hlt'|Hge'].
    + by rewrite (proj2 (Nat.ltb_lt i (n + n')%nat)) by lia.
    + rewrite (proj2 (Nat.ltb_ge i (n + n')%nat)) by lia.
      do 4 f_equal. lia.
Qed.

(** A statement that makes its call and then rewrites the tables. *)
Lemma uses_statement (g : database -> database) :
  uses (call ;; do d <- get; put (g d)) 1.
Proof.
  intros d. exists tt, (g d). split; [done|]. intros [|k]; cbn; [done|].
  by rewrite Nat.sub_0_r.
Qed.

Lemma uses_insert_exchange (sid q a : string) (dur : float)
    (ts now : string) :
  uses (insert_exchange sid q a dur ts now) 1.
Proof.
  intros d. eexists _, _. split; [cbn; reflexivity|].
  intros [|k]; cbn; [done|]. by rewrite Nat.sub_0_r.
Qed.

Lemma uses_upsert (sid st : string) (cq ended : option string) (tq tf : Z)
    (wpm : float) (now : string) (r : session_row) :
  uses (do row <- select_session sid;
        match row with
        | Some _ => update_session sid st cq ended tq tf wpm now
        | None => insert_session sid r
        end) 2.
Proof.
  intros d.
  destruct (tbl_sessions d !! sid) as [r0|] eqn:Hrow.
  - eexists _, _. split; [cbn; rewrite Hrow; reflexivity|].
    intros [|[|k]]; cbn; rewrite ?Hrow; try reflexivity.
    by rewrite Nat.sub_0_r.
  - eexists _, _. split; [cbn; rewrite Hrow; cbn; rewrite Hrow; reflexivity|].
    intros [|[|k]]; cbn; rewrite ?Hrow; cbn; rewrite ?Hrow;
      try reflexivity.
    by rewrite Nat.sub_0_r.
Qed.

Lemma uses_save_exchange (sid now : string) (x : InterviewExchange) :
  uses (save_exchange sid now x) (exchange_calls x).
Proof.
  unfold save_exchange, exchange_calls.
  eapply uses_eq.
  - apply uses_bind; [apply uses_insert_exchange|]. intros id.
    apply uses_bind with
      (n := match evaluation x with Some _ => 1%nat | None => 0%nat end)
      (n' := match coaching_feedback x with
             | Some _ => 1%nat | None => 0%nat end).
    + destruct (evaluation x);
        [apply uses_statement with
           (g := fun d => mk_database _ _ _ (_ ++ [_]) _)
        |apply uses_ret].
    + intros _. destruct (coaching_feedback x);
        [apply uses_statement with
           (g := fun d => mk_database _ _ _ _ (_ ++ [_]))
        |apply uses_ret].
  - lia.
Qed.

Lemma uses_for_each_save_exchange (sid now : string)
    (exs : list InterviewExchange) :
  uses (for_each exs (save_exchange sid now))
    (sum_list (exchange_calls <$> exs)).
Proof.
  induction exs as [|x exs IH]; [apply uses_ret|].
  cbn [for_each fmap list_fmap sum_list sum_list_with].
  apply uses_bind; [apply uses_save_exchange|]. by intros _.
Qed.

Lemma uses_ext {A} (m m' : Tx A) (n : nat) :
  (forall c, m c = m' c) -> uses m n -> uses m' n.
Proof.
  intros Heq Hm d. destruct (Hm d) as (a & d' & H0 & Hk).
  exists a, d'. split; [by rewrite <- Heq|]. intros k. by rewrite <- Heq.
Qed.

Lemma bind_assoc {A B C} (m : Tx A) (k : A -> Tx B) (h : B -> Tx C)
    (c : conn) :
  bind (bind m k) h c = bind m (fun a => bind (k a) h) c.
Proof. unfold bind. by destruct (m c) as [e|[a c']]. Qed.

Lemma uses_save_tx (now : datetime) (session : InterviewSession) :
  uses (save_tx now session) (save_calls session - 1).
Proof.
  unfold save_tx, save_calls.
  eapply uses_ext; [intros c; apply bind_assoc|].
  eapply uses_eq.
  - apply uses_bind; [apply uses_upsert|]. intros _.
    apply uses_bind;
      [apply uses_statement with
         (g := fun d => mk_database _ (List.filter _ _) _ _ _)|].
    intros _.
    apply uses_bind; [apply uses_for_each_save_exchange|]. intros _.
    exact uses_call.
  - lia.
Qed.

(** What [save] does under an oracle: the call that fails rolls
    everything back; past the last call the oracle is not consulted. *)
Lemma save_under_oracle (now : datetime) (session : InterviewSession)
    (d : database) (k : nat) :
  save now (Some k) session d
  = if (k <? save_calls session)%nat then (inl OperationalError, d)
    else save now None session d.
Proof.
  rewrite save_run. unfold save. destruct k as [|k]; [reflexivity|].
  cbn [get_connection call faults db].
  destruct (uses_save_tx now session d) as ([] & d' & Hnone & Hsome).
  rewrite Hsome. rewrite save_tx_run in Hnone. injection Hnone as <-.
  assert (1 <= save_calls session)%nat by (unfold save_calls; lia).
  destruct (Nat.ltb_spec k (save_calls session - 1)),
    (Nat.ltb_spec (S k) (save_calls session)); (reflexivity || lia).
Qed.

(** ** Running [load] and [cleanup_old_sessions] *)

Lemma load_not_found (sid : string) (d : database) :
  tbl_sessions d !! sid = None -> load None sid d = inr None.
Proof.
  intros Hrow. unfold load. cbn [get_connection call faults db].
  unfold load_tx, select_session. unfold bind at 1. unfold bind at 1.
  cbn [call faults db]. unfold bind at 1. cbn [get ret db].
  by rewrite Hrow.
Qed.

Lemma filter_filter {A} (p q : A -> bool) (l : list A) :
  List.filter q (List.filter p l) = List.filter (fun x => p x && q x) l.
Proof.
  induction l as [|x l IH]; [done|]. cbn.
  destruct (p x); cbn; [|done]. destruct (q x); by rewrite IH.
Qed.

Lemma filter_true {A} (l : list A) : List.filter (fun _ => true) l = l.
Proof. induction l as [|x l IH]; [done|]. cbn. by rewrite IH. Qed.

Lemma for_each_delete_run (ids : list string) : forall d : database,
  for_each ids (fun sid => delete_exchanges sid ;; delete_session sid)
    (mk_conn d None)
  = inr (tt, mk_conn (purged ids d) None).
Proof.
  induction ids as [|sid ids IH]; intros d.
  - unfold purged. cbn. rewrite filter_true. by destruct d.
  - cbn [for_each]. unfold bind at 1.
    unfold bind at 1. cbn [delete_exchanges call bind get put ret faults db].
    cbn [delete_session call bind get put ret faults db].
    rewrite IH. unfold purged.
    cbn [tbl_sessions tbl_exchanges seq_exchanges tbl_evaluations
         tbl_coaching foldl existsb].
    rewrite filter_filter. do 4 f_equal.
    apply List.filter_ext. intros e. unfold of_session.
    by rewrite negb_orb.
Qed.

Lemma lookup_foldl_delete (ids : list string) :
  forall (m : gmap string session_row) (k : string),
  foldl (fun m sid => delete sid m) m ids !! k
  = if bool_decide (k ∈ ids) then None else m !! k.
Proof.
  induction ids as [|sid ids IH]; intros m k; [done|].
  cbn [foldl]. rewrite IH.
  destruct (decide (k = sid)) as [->|Hne].
  - rewrite lookup_delete_eq, (bool_decide_eq_true_2 (sid ∈ sid :: ids))
      by left.
    by destruct (bool_decide _).
  - rewrite lookup_delete_ne by done.
    rewrite (bool_decide_ext (k ∈ sid :: ids) (k ∈ ids)); [done|].
    rewrite elem_of_cons. intuition congruence.
Qed.

Lemma elem_of_old_ids (cutoff : string) (d : database) (k : string) :
  k ∈ old_ids cutoff d <-> is_old cutoff d k = true.
Proof.
  unfold old_ids, is_old. rewrite list_elem_of_fmap. split.
  - intros ([k' r] & -> & Hin). apply elem_of_map_to_list in Hin.
    apply map_lookup_filter_Some in Hin as [Hrow Hold]. cbn in *.
    by rewrite Hrow.
  - destruct (tbl_sessions d !! k) as [r|] eqn:Hrow; [|done].
    intros Hold. exists (k, r). split; [done|].
    apply elem_of_map_to_list, map_lookup_filter_Some. by split.
Qed.

Lemma existsb_old_ids (cutoff : string) (d : database) (k : string) :
  existsb (String.eqb k) (old_ids cutoff d) = is_old cutoff d k.
Proof.
  apply Bool.eq_iff_eq_true. rewrite <- elem_of_old_ids, existsb_exists.
  split.
  - intros (k' & Hin & ->%String.eqb_eq). by apply list_elem_of_In.
  - intros Hin. exists k. split; [by apply list_elem_of_In|].
    apply String.eqb_refl.
Qed.

Lemma sub_hours_valid (now : datetime) (h : Z) (c : datetime) :
  sub_hours now h = Some c -> valid c = true.
Proof.
  unfold sub_hours.
  destruct (_ && _); [|done]. destruct (ord2ymd _) as [[y m] dd].
  match goal with |- context [valid ?r] => destruct (valid r) eqn:Hv end;
    [|done].
  by intros [= <-].
Qed.

Lemma cleanup_run (now : datetime) (h : Z) (c : datetime) (d : database) :
  sub_hours now h = Some c ->
  cleanup_old_sessions now None h d
  = (inr (Z.of_nat (length (old_ids (isoformat c) d))),
     purged (old_ids (isoformat c) d) d).
Proof.
  intros Hc. unfold cleanup_old_sessions.
  cbn [get_connection call faults db].
  unfold cleanup_tx. unfold bind at 1. rewrite Hc. cbn [lift ret].
  unfold bind at 1. unfold select_created_before.
  unfold bind at 1. cbn [call faults db]. unfold bind at 1. cbn [get ret db].
  fold (old_ids (isoformat c) d).
  unfold bind at 1. rewrite for_each_delete_run.
  reflexivity.
Qed.

(** The sessions that stay are those that were not selected. *)
Lemma sessions_purged (cutoff : string) (d : database) :
  tbl_sessions (purged (old_ids cutoff d) d)
  = filter (fun kr : string * session_row =>
              ¬ created_before cutoff kr.2 = true) (tbl_sessions d).
Proof.
  apply map_eq. intros k. unfold purged. cbn [tbl_sessions].
  rewrite lookup_foldl_delete, map_lookup_filter.
  pose proof (elem_of_old_ids cutoff d k) as Hold. unfold is_old in Hold.
  destruct (tbl_sessions d !! k) as [r|] eqn:Hrow; cbn.
  - destruct (created_before cutoff r) eqn:Hcb.
    + rewrite bool_decide_eq_true_2 by by apply Hold.
      by rewrite option_guard_False by (intros Hn; by apply Hn).
    + rewrite bool_decide_eq_false_2 by (rewrite Hold; done).
      by rewrite option_guard_True by done.
  - by destruct (bool_decide _).
Qed.

Lemma size_purged (cutoff : string) (d : database) :
  (length (old_ids cutoff d)
   + size (tbl_sessions (purged (old_ids cutoff d) d)))%nat
  = size (tbl_sessions d).
Proof.
  rewrite sessions_purged. unfold old_ids.
  rewrite length_fmap, length_map_to_list.
  rewrite <- (map_filter_union_complement
                (fun kr : string * session_row =>
                   created_before cutoff kr.2 = true) (tbl_sessions d))
    at 3.
  symmetry. apply map_size_disj_union, map_disjoint_filter_complement.
Qed.

(** ** The invariant is kept *)

Lemma wf_purged (ids : list string) (d : database) :
  wf d = true -> wf (purged ids d) = true.
Proof.
  intros (Hx & Hev & Hcf)%wf_forall.
  unfold wf, purged.
  cbn [tbl_exchanges tbl_evaluations tbl_coaching seq_exchanges].
  rewrite !andb_true_iff, !forallb_Forall.
  repeat split.
  - apply Forall_filter_keep.
    eapply Forall_impl; [apply Hx|]. cbn. intros. by apply Z.leb_le.
  - eapply Forall_impl; [apply Hev|]. cbn. intros. by apply Z.leb_le.
  - eapply Forall_impl; [apply Hcf|]. cbn. intros. by apply Z.leb_le.
Qed.

Lemma wf_save (now : datetime) (f : option nat) (session : InterviewSession)
    (d : database) :
  wf d = true -> wf (save now f session d).2 = true.
Proof.
  intros Hwf. destruct f as [k|].
  - rewrite save_under_oracle. destruct (k <? save_calls session)%nat;
      [done|]. rewrite save_run. by apply wf_saved.
  - rewrite save_run. by apply wf_saved.
Qed.

Lemma wf_cleanup_old_sessions (now : datetime) (max_age_hours : Z)
    (d : database) :
  wf d = true ->
  wf (cleanup_old_sessions now None max_age_hours d).2 = true.
Proof.
  intros Hwf. destruct (sub_hours now max_age_hours) as [c|] eqn:Hc.
  - rewrite (cleanup_run now max_age_hours c d Hc). by apply wf_purged.
  - unfold cleanup_old_sessions, cleanup_tx. cbn [get_connection call faults].
    unfold bind at 1. by rewrite Hc.
Qed.

(** Saving a session leaves behind a row that agrees with every later
    version of the session that keeps its id, resume, job description and
    start time. *)
Lemma agree_after_save (now : datetime) (s s' : InterviewSession)
    (d : database) :
  insert_only_columns_agree s d ->
  session_id s' = session_id s ->
  resume_text s' = resume_text s ->
  job_description s' = job_description s ->
  started_at s' = started_at s ->
  insert_only_columns_agree s' (saved now s d).
Proof.
  unfold insert_only_columns_agree. intros Hagree Hid Hres Hjob Hstart.
  rewrite Hid, Hres, Hjob, Hstart.
  unfold saved at 1. cbn [tbl_sessions]. rewrite lookup_upsert.
  by destruct (tbl_sessions d !! session_id s).
Qed.

End DurableFacts.

(* ===================================================================== *)
(** * Durable Store: what [load] computes *)
(* ===================================================================== *)

Section DurableLoad.
Import Datetime Domain DurableStore.

(** ** [load] as a function of the rows *)

Lemma parse_optional_pure (text : option string) (c : conn) :
  parse_optional text c
  = match decode_optional text with
    | Some t => inr (t, c)
    | None => inl ValueError
    end.
Proof.
  destruct text as [[|a s]|]; try reflexivity.
  unfold parse_optional, decode_optional, bind.
  by destruct (fromisoformat (String a s)).
Qed.

Lemma rebuild_exchange_pure (r : joined_row) (c : conn) :
  rebuild_exchange r c
  = match decode_exchange r with
    | Some x => inr (x, c)
    | None => inl ValueError
    end.
Proof.
  unfold rebuild_exchange, decode_exchange, bind.
  destruct (j_coaching r) as [cf|].
  - destruct (alert_of_value (cf_alert_level cf)); [|reflexivity].
    cbn [lift ret mbind option_bind].
    by destruct (fromisoformat (ex_timestamp (j_exchange r))).
  - cbn [lift ret mbind option_bind].
    by destruct (fromisoformat (ex_timestamp (j_exchange r))).
Qed.

Lemma map_tx_rebuild_pure (rows : list joined_row) (c : conn) :
  map_tx rebuild_exchange rows c
  = match mapM decode_exchange rows with
    | Some exs => inr (exs, c)
    | None => inl ValueError
    end.
Proof.
  induction rows as [|r rows IH]; [reflexivity|].
  cbn [map_tx mapM]. unfold bind at 1. rewrite rebuild_exchange_pure.
  destruct (decode_exchange r) as [x|]; [|reflexivity].
  unfold bind at 1. rewrite IH. cbn [mbind option_bind].
  by destruct (mapM decode_exchange rows).
Qed.

(** [load] under any oracle: the failure to connect is raised; a failure
    of either SELECT gives [None]; otherwise the rows decide. *)
Lemma load_under_oracle (f : option nat) (sid : string) (d : database) :
  load f sid d
  = match f with
    | Some 0%nat => inl OperationalError
    | Some 1%nat | Some 2%nat => inr None
    | _ => inr (loaded sid d)
    end.
Proof.
  unfold load, loaded, decode_row.
  destruct f as [[|[|[|k]]]|]; try reflexivity;
    cbn [get_connection call faults db];
    unfold load_tx, select_session; unfold bind at 1; unfold bind at 1;
    cbn [call faults db]; unfold bind at 1; cbn [get ret db];
    (destruct (tbl_sessions d !! sid) as [row|]; [|reflexivity]);
    cbn [mbind option_bind];
    unfold bind at 1;
    (destruct (state_of_value (row_state row)) as [st|]; [|reflexivity]);
    cbn [lift ret mbind option_bind];
    unfold bind at 1; rewrite parse_optional_pure;
    (destruct (decode_optional (row_started_at row)) as [started|];
       [|reflexivity]);
    cbn [mbind option_bind];
    unfold bind at 1; rewrite parse_optional_pure;
    (destruct (decode_optional (row_ended_at row)) as [ended|];
       [|reflexivity]);
    cbn [mbind option_bind];
    unfold bind at 1; unfold select_exchanges; unfold bind at 1;
    cbn [call faults db]; try reflexivity;
    unfold bind at 1; cbn [get ret db]; fold (selected sid d);
    unfold bind at 1; rewrite map_tx_rebuild_pure;
    by destruct (mapM decode_exchange (selected sid d)).
Qed.





End DurableLoad.

(* ===================================================================== *)
(** * Durable Store: specified properties *)
(* ===================================================================== *)

Section DurableClaims.
Import Datetime Domain DurableStore Samples.

(** ** C1: save then load *)

(** C1 (amended).  Let the database satisfy its invariant, the
    session's datetimes be well-formed and its floats be ones that a REAL
    column gives back unchanged (no NaN, which SQLite stores as NULL and
    [load] hands back as [None], and no negative zero, whose sign SQLite
    drops).  If the store holds no row for the session id, or holds one
    whose [resume_text], [job_description] and [started_at] columns are
    those of the session (the columns that the UPDATE of [save] does not
    write), then a [save] without driver failure returns normally and
    [load] of the session id afterwards reconstructs a session equal to
    the saved one in every field: the scalars, the exchanges in order,
    and each exchange's optional evaluation and coaching feedback. *)
Theorem save_load_roundtrip (now : datetime) (session : InterviewSession)
    (d : database) :
  wf d = true ->
  valid_session session = true ->
  storable_session session = true ->
  insert_only_columns_agree session d ->
  (save now None session d).1 = inr tt /\
  load None (session_id session) (save now None session d).2
  = inr (Some session).
Proof.
  intros Hwf Hvalid _ Hagree. rewrite save_run. cbn [fst snd].
  split; [reflexivity|]. by apply load_saved.
Qed.

(** An instance on the update path: the session is saved when it starts
    and again two answers later. *)
Lemma save_load_roundtrip_witness :
  let d := (save t_created None session_started empty_db).2 in
  (save t_answer2 None session_two d).1 = inr tt /\
  load None "s-1" (save t_answer2 None session_two d).2
  = inr (Some session_two).
Proof.
  intros d.
  apply (save_load_roundtrip t_answer2 session_two d).
  - vm_compute. reflexivity.
  - vm_compute. reflexivity.
  - vm_compute. reflexivity.
  - vm_compute. repeat split; reflexivity.
Defined.

(** C1 as stated fails: a session saved before its start time is set and
    saved again afterwards is loaded with the old, empty start time.  The
    UPDATE statement of [save] leaves [started_at] (and [resume_text],
    [job_description]) as first inserted. *)
Lemma save_load_loses_started_at :
  let d := (save t_created None session_new empty_db).2 in
  wf d = true /\
  valid_session session_started = true /\
  (save t_question None session_started d).1 = inr tt /\
  load None (session_id session_started)
    (save t_question None session_started d).2
  = inr (Some session_new) /\
  load None (session_id session_started)
    (save t_question None session_started d).2
  <> inr (Some session_started).
Proof.
  cbv zeta.
  assert (load None (session_id session_started)
            (save t_question None session_started
               (save t_created None session_new empty_db).2).2
          = inr (Some session_new)) as Hload
    by (vm_compute; reflexivity).
  repeat split; try (vm_compute; reflexivity).
  rewrite Hload. discriminate.
Qed.

(** ** C2: [save] is one transaction *)

(** C2.  Whichever driver call of [save] fails (opening the connection,
    the SELECT, the UPDATE or INSERT of the session row, the DELETE, any
    INSERT of the loop, or the commit), [save] raises the error to its
    caller and the database is exactly what it was before the call: every
    change made by the statements that had already run is rolled back. *)
Theorem save_failure_rolls_back (now : datetime) (session : InterviewSession)
    (d : database) (k : nat) :
  (k < save_calls session)%nat ->
  save now (Some k) session d = (inl OperationalError, d).
Proof.
  intros Hk. rewrite save_under_oracle.
  by rewrite (proj2 (Nat.ltb_lt _ _) Hk).
Qed.

(** An instance: the INSERT of the first exchange's coaching row fails,
    after the session row was updated, the old exchanges deleted and two
    rows inserted. *)
Lemma save_failure_rolls_back_witness :
  let d := (save t_created None session_started empty_db).2 in
  save t_answer2 (Some 6%nat) session_two d = (inl OperationalError, d).
Proof.
  intros d.
  apply (save_failure_rolls_back t_answer2 session_two d 6).
  vm_compute. lia.
Defined.

(** Past its last call the oracle is not consulted: [save] completes as
    it does without failures. *)
Lemma save_completes (now : datetime) (session : InterviewSession)
    (d : database) (k : nat) :
  (save_calls session <= k)%nat ->
  save now (Some k) session d = (inr tt, saved now session d).
Proof.
  intros Hk. rewrite save_under_oracle, save_run.
  by rewrite (proj2 (Nat.ltb_ge _ _) Hk).
Qed.

(** ** C4: what [load] returns *)




(** ** C3: saving twice *)

(** C3.  Saving the same session twice in succession, the driver not
    failing, leaves exactly one row of the [sessions] table with the
    session's id and exactly [len(exchanges)] rows of the [exchanges]
    table with it; these rows are, in table (rowid) order, the rows of the
    in-memory exchange list in list order, under consecutive fresh
    rowids. *)
Theorem save_twice_no_duplicates (now1 now2 : datetime)
    (session : InterviewSession) (d : database) :
  let sid := session_id session in
  let d1 := (save now1 None session d).2 in
  let d2 := (save now2 None session d1).2 in
  (save now1 None session d).1 = inr tt /\
  (save now2 None session d1).1 = inr tt /\
  session_row_count sid d2 = 1%nat /\
  exchange_row_count sid d2 = length (exchanges session) /\
  List.filter (of_session sid) (tbl_exchanges d2)
  = exchange_rows sid (isoformat now2) (seq_exchanges d1)
      (exchanges session) /\
  List.map (fun e => (ex_question e, ex_answer e,
                      ex_answer_duration_seconds e, ex_timestamp e))
    (List.filter (of_session sid) (tbl_exchanges d2))
  = List.map (fun x => (question x, answer x, answer_duration_seconds x,
                        isoformat (timestamp x)))
      (exchanges session).
Proof.
  cbv zeta. rewrite !save_run. cbn [fst snd].
  assert (forall (sid now : string) (exs : list InterviewExchange) (seq : Z),
            List.map (fun e => (ex_question e, ex_answer e,
                                ex_answer_duration_seconds e, ex_timestamp e))
              (exchange_rows sid now seq exs)
            = List.map (fun x => (question x, answer x,
                                  answer_duration_seconds x,
                                  isoformat (timestamp x))) exs) as Hmirror.
  { intros sid now exs. induction exs as [|x exs IH]; intros seq; [done|].
    cbn. by rewrite IH. }
  repeat split.
  - rewrite session_row_count_lookup.
    unfold saved at 1. cbn [tbl_sessions]. by rewrite lookup_upsert.
  - unfold exchange_row_count. rewrite exchanges_of_saved.
    rewrite <- (List.length_map
                  (fun e => (ex_question e, ex_answer e,
                             ex_answer_duration_seconds e, ex_timestamp e))).
    by rewrite Hmirror, List.length_map.
  - apply exchanges_of_saved.
  - by rewrite exchanges_of_saved, Hmirror.
Qed.

Example save_twice_sample :
  let d2 := (save t_answer2 None session_two
               (save t_answer2 None session_two empty_db).2).2 in
  List.map ex_id (tbl_exchanges d2) = [3; 4] /\
  List.map ev_exchange_id (tbl_evaluations d2) = [1; 3].
Proof. vm_compute. split; reflexivity. Qed.

(** ** C7: [cleanup_old_sessions] *)

(** C7.  Let [c] be [now - timedelta(hours=max_age_hours)] and let the
    driver not fail.  [cleanup_old_sessions] deletes exactly the sessions
    whose [created_at] is before [c], together with the exchange rows
    that carry their ids; every other session and exchange row stays; the
    value returned is the number of session rows that disappeared; and a
    [load] of a deleted id afterwards returns the absent value.  SQLite
    compares the [created_at] text with the cutoff text; for a
    [created_at] written by [save], the ISO text of a datetime [t], this
    is the comparison [t < c] of the datetimes. *)
Theorem cleanup_deletes_old_sessions (now : datetime) (max_age_hours : Z)
    (c : datetime) (d : database) :
  sub_hours now max_age_hours = Some c ->
  let old := is_old (isoformat c) d in
  let r := cleanup_old_sessions now None max_age_hours d in
  (forall sid,
     tbl_sessions r.2 !! sid
     = if old sid then None else tbl_sessions d !! sid) /\
  tbl_exchanges r.2
  = List.filter (fun e => negb (old (ex_session_id e))) (tbl_exchanges d) /\
  r.1 = inr (Z.of_nat (size (tbl_sessions d))
             - Z.of_nat (size (tbl_sessions r.2))) /\
  (forall sid, old sid = true -> load None sid r.2 = inr None) /\
  (forall sid row t,
     tbl_sessions d !! sid = Some row ->
     row_created_at row = isoformat t ->
     valid t = true ->
     old sid = Datetime.ltb t c).
Proof.
  intros Hc. cbv zeta. rewrite (cleanup_run now max_age_hours c d Hc).
  cbn [fst snd].
  assert (forall sid,
            tbl_sessions (purged (old_ids (isoformat c) d) d) !! sid
            = if is_old (isoformat c) d sid then None
              else tbl_sessions d !! sid) as Hlookup.
  { intros sid. unfold purged. cbn [tbl_sessions].
    rewrite lookup_foldl_delete.
    pose proof (elem_of_old_ids (isoformat c) d sid) as Hold.
    destruct (is_old (isoformat c) d sid).
    - by rewrite bool_decide_eq_true_2 by by apply Hold.
    - by rewrite bool_decide_eq_false_2 by (rewrite Hold; done). }
  repeat split.
  - exact Hlookup.
  - unfold purged. cbn [tbl_exchanges]. apply List.filter_ext.
    intros e. by rewrite existsb_old_ids.
  - f_equal. pose proof (size_purged (isoformat c) d). lia.
  - intros sid Hold. apply load_not_found. by rewrite Hlookup, Hold.
  - intros sid row t Hrow Hcreated Ht. unfold is_old, created_before.
    rewrite Hrow, Hcreated.
    apply ltb_isoformat; [done|]. by apply (sub_hours_valid now max_age_hours).
Qed.

(** The scenario of the specification: one session created 25 hours ago,
    one created an hour ago, [cleanup_old_sessions(24)]. *)
Lemma cleanup_deletes_old_sessions_witness :
  sub_hours t_now 25 = Some t_created /\
  sub_hours t_now 1 = Some t_hour_ago /\
  sub_hours t_now 24 = Some t_cutoff /\
  let r := cleanup_old_sessions t_now None 24 db_old_and_recent in
  r.1 = inr 1 /\
  tbl_sessions r.2 !! "s-1" = None /\
  tbl_sessions r.2 !! "s-2" = tbl_sessions db_old_and_recent !! "s-2" /\
  tbl_exchanges r.2 = [] /\
  load None "s-1" r.2 = inr None /\
  is_old (isoformat t_cutoff) db_old_and_recent "s-1"
  = Datetime.ltb t_created t_cutoff.
Proof.
  assert (sub_hours t_now 24 = Some t_cutoff) as Hc
    by (vm_compute; reflexivity).
  repeat apply conj.
  - vm_compute. reflexivity.
  - vm_compute. reflexivity.
  - exact Hc.
  - destruct (cleanup_deletes_old_sessions t_now 24 t_cutoff
                db_old_and_recent Hc) as (_ & _ & Hn & _).
    rewrite Hn. vm_compute. reflexivity.
  - destruct (cleanup_deletes_old_sessions t_now 24 t_cutoff
                db_old_and_recent Hc) as (Hs & _).
    rewrite Hs. vm_compute. reflexivity.
  - destruct (cleanup_deletes_old_sessions t_now 24 t_cutoff
                db_old_and_recent Hc) as (Hs & _).
    rewrite Hs. vm_compute. reflexivity.
  - destruct (cleanup_deletes_old_sessions t_now 24 t_cutoff
                db_old_and_recent Hc) as (_ & Hx & _).
    rewrite Hx. vm_compute. reflexivity.
  - destruct (cleanup_deletes_old_sessions t_now 24 t_cutoff
                db_old_and_recent Hc) as (_ & _ & _ & Hl & _).
    apply Hl. vm_compute. reflexivity.
  - destruct (cleanup_deletes_old_sessions t_now 24 t_cutoff
                db_old_and_recent Hc) as (_ & _ & _ & _ & Hcmp).
    eapply Hcmp; vm_compute; reflexivity.
Defined.

Example cleanup_keeps_recent_session :
  load None "s-2" (cleanup_old_sessions t_now None 24 db_old_and_recent).2
  = inr (Some other_session).
Proof. vm_compute. reflexivity. Qed.

(** A driver failure inside [cleanup_old_sessions] rolls back and is
    answered with 0. *)
Example cleanup_failure_returns_zero :
  cleanup_old_sessions t_now (Some 3%nat) 24 db_old_and_recent
  = (inr 0, db_old_and_recent).
Proof. vm_compute. reflexivity. Qed.

End DurableClaims.

(* ===================================================================== *)
(** * Fast Store: properties *)
(* ===================================================================== *)

Section FastFacts.
Import FastStore.

Context {Orchestrator : Type}.
Variable pickle_dumps : Orchestrator -> option string.
Variable pickle_loads : string -> option Orchestrator.

(** The Redis block of [get_orchestrator] changes nothing, and returns an
    orchestrator exactly when the backend yields one. *)
Lemma get_from_redis_run (raises : bool) (now : Q) (session_id : string)
    (w : @world Orchestrator) :
  get_from_redis pickle_loads raises now session_id w
  = (inr (backend_yields pickle_loads raises now session_id w), w).
Proof.
  unfold get_from_redis, backend_yields, backend_entry, bind, self,
    try_except, redis_get, lift, ret, raise.
  destruct (redis_connected (local w)); [|reflexivity].
  destruct raises; [reflexivity|].
  destruct (remote w !! session_key session_id) as [[value expiry]|];
    [|reflexivity].
  destruct (live now (value, expiry)); [|reflexivity].
  destruct value as [|a value]; [reflexivity|].
  cbn [andb negb fst truthy].
  by destruct (pickle_loads (String a value)).
Qed.

(** Every method body ends in a value: the exceptions of the Redis client
    and of pickling are caught inside. *)
Lemma set_orchestrator_run (raises : bool) (now : Q) (session_id : string)
    (o : Orchestrator) (w : @world Orchestrator) :
  set_orchestrator pickle_dumps raises now session_id o w
  = (inr tt,
     match (if redis_connected (local w) && negb raises
            then pickle_dumps o else None) with
     | Some b =>
         mk_world (local w)
           (<[session_key session_id :=
                (b, (now + inject_Z (session_ttl_seconds (local w)))%Q)]>
              (remote w))
     | None =>
         with_memory (<[session_id := (o, now)]> (in_memory (local w))) w
     end).
Proof.
  destruct w as [[connected ttl fb m] srv].
  unfold set_orchestrator, with_memory, bind, self, try_except, redis_setex,
    set_in_memory, lift, ret, raise. cbn [local remote redis_connected].
  destruct connected; [|reflexivity].
  destruct (pickle_dumps o) as [b|]; destruct raises; reflexivity.
Qed.

Lemma get_from_memory_fresh (now stored_at : Q) (session_id : string)
    (o : Orchestrator) (w : @world Orchestrator) :
  in_memory (local w) !! session_id = Some (o, stored_at) ->
  (now - stored_at < inject_Z (session_ttl_seconds (local w)))%Q ->
  get_from_memory now session_id w = (inr (Some o), w).
Proof.
  intros Hm Hage. unfold get_from_memory, bind, self. rewrite Hm.
  destruct (Qlt_le_dec _ _) as [_|Hle]; [reflexivity|].
  exfalso. by apply (Qlt_not_le _ _ Hage).
Qed.

Lemma get_from_memory_expired (now stored_at : Q) (session_id : string)
    (o : Orchestrator) (w : @world Orchestrator) :
  in_memory (local w) !! session_id = Some (o, stored_at) ->
  (inject_Z (session_ttl_seconds (local w)) <= now - stored_at)%Q ->
  get_from_memory now session_id w
  = (inr None, with_memory (delete session_id (in_memory (local w))) w).
Proof.
  intros Hm Hage. unfold get_from_memory, bind, self. rewrite Hm.
  destruct (Qlt_le_dec _ _) as [Hlt|_]; [|reflexivity].
  exfalso. by apply (Qlt_not_le _ _ Hlt).
Qed.

Lemma get_orchestrator_run (raises : bool) (now : Q) (session_id : string)
    (w : @world Orchestrator) :
  get_orchestrator pickle_loads raises now session_id w
  = match backend_yields pickle_loads raises now session_id w with
    | Some o => (inr (Some o), w)
    | None => get_from_memory now session_id w
    end.
Proof.
  unfold get_orchestrator. unfold bind at 1. rewrite get_from_redis_run.
  by destruct (backend_yields _ _ _ _ _).
Qed.

(** ** C5: [set_orchestrator] never raises *)

(** C5.  [set_orchestrator] returns normally whatever happens.  When the
    write to the shared backend fails, be it pickling or the SETEX call
    that raises, or when no backend is connected, the orchestrator is
    kept in the in-memory map under the session id, stamped with the
    clock reading of the call; nothing else changes.  (The method does
    not look at the fallback flag: this holds with fallback enabled, as
    claimed, and also without.) *)
Theorem set_orchestrator_falls_back (raises : bool) (now : Q)
    (session_id : string) (o : Orchestrator) (w : @world Orchestrator) :
  (set_orchestrator pickle_dumps raises now session_id o w).1 = inr tt /\
  (redis_connected (local w) = false \/ pickle_dumps o = None \/
   raises = true ->
   (set_orchestrator pickle_dumps raises now session_id o w).2
   = with_memory (<[session_id := (o, now)]> (in_memory (local w))) w /\
   in_memory
     (local (set_orchestrator pickle_dumps raises now session_id o w).2)
     !! session_id = Some (o, now)).
Proof.
  rewrite set_orchestrator_run. cbn [fst snd]. split; [reflexivity|].
  intros Hfail.
  assert ((if redis_connected (local w) && negb raises
           then pickle_dumps o else None) = None) as ->.
  { destruct Hfail as [->|[Hd| ->]]; [done| |].
    - rewrite Hd. by destruct (_ && _).
    - by rewrite andb_false_r. }
  split; [reflexivity|]. cbn [local in_memory with_memory].
  apply lookup_insert_eq.
Qed.

(** ** C6: the TTL of a fallback entry *)

(** C6.  Let [set_orchestrator] at time [t0] have kept the orchestrator
    in the in-memory map (the backend write failed, or no backend is
    connected), and let a later [get_orchestrator] at time [t1] reach the
    in-memory check (the backend yields nothing for the id, whatever the
    server holds by then).  If [t1 - t0] is less than the TTL, the
    orchestrator is returned and nothing changes; if [t1 - t0] is the TTL
    or more, the result is absent and the entry is removed from the
    map. *)
Theorem fallback_entry_lives_for_ttl (raises0 raises1 : bool) (t0 t1 : Q)
    (session_id : string) (o : Orchestrator) (w : @world Orchestrator)
    (srv : server) :
  let w1 := (set_orchestrator pickle_dumps raises0 t0 session_id o w).2 in
  let w2 := mk_world (local w1) srv in
  let ttl := inject_Z (session_ttl_seconds (local w)) in
  redis_connected (local w) = false \/ pickle_dumps o = None \/
  raises0 = true ->
  backend_yields pickle_loads raises1 t1 session_id w2 = None ->
  ((t1 - t0 < ttl)%Q ->
   get_orchestrator pickle_loads raises1 t1 session_id w2
   = (inr (Some o), w2)) /\
  ((ttl <= t1 - t0)%Q ->
   get_orchestrator pickle_loads raises1 t1 session_id w2
   = (inr None, with_memory (delete session_id (in_memory (local w2))) w2) /\
   in_memory
     (local (get_orchestrator pickle_loads raises1 t1 session_id w2).2)
     !! session_id = None).
Proof.
  cbv zeta. intros Hfail Hsilent.
  rewrite get_orchestrator_run, Hsilent.
  rewrite set_orchestrator_run in *. cbn [snd] in *.
  assert ((if redis_connected (local w) && negb raises0
           then pickle_dumps o else None) = None) as Hnone.
  { destruct Hfail as [->|[Hd| ->]]; [done| |].
    - rewrite Hd. by destruct (_ && _).
    - by rewrite andb_false_r. }
  rewrite Hnone in *.
  split; intros Hage.
  - apply (get_from_memory_fresh t1 t0); [apply lookup_insert_eq|done].
  - rewrite (get_from_memory_expired t1 t0 session_id o);
      [|apply lookup_insert_eq|done].
    split; [reflexivity|]. cbn [snd local in_memory with_memory].
    apply lookup_delete_eq.
Qed.

(** ** C8: [delete_orchestrator] *)

Lemma delete_orchestrator_run (raises : bool) (now : Q)
    (session_id : string) (w : @world Orchestrator) :
  delete_orchestrator raises now session_id w
  = (inr ((negb raises && held_remotely now session_id w)
          || held_locally session_id w),
     mk_world
       (mk_store (redis_connected (local w)) (session_ttl_seconds (local w))
          (fallback_to_memory (local w))
          (delete session_id (in_memory (local w))))
       (if redis_connected (local w) && negb raises
        then delete (session_key session_id) (remote w)
        else remote w)).
Proof.
  destruct w as [[connected ttl fb m] srv].
  unfold delete_orchestrator, held_remotely, held_locally, backend_entry,
    bind, self, try_except, redis_delete, set_in_memory, ret, raise.
  destruct connected, raises;
    cbn [andb negb orb local remote redis_connected in_memory
         session_ttl_seconds fallback_to_memory];
    try (destruct (srv !! session_key session_id) as [e|];
         [destruct (live now e)|]);
    destruct (m !! session_id) as [entry|] eqn:Hm;
    cbn [Z.ltb Z.compare orb local remote redis_connected in_memory
         session_ttl_seconds fallback_to_memory];
    rewrite ?(delete_id m session_id Hm); reflexivity.
Qed.

(** C8 (amended).  [delete_orchestrator] always removes the entry of the
    session id from the in-memory map.  When the Redis DEL does not
    raise, it also removes the key from the shared backend (of a
    connected store) and returns true exactly when the backend reported
    a deleted key or the map held an entry: false only when both report
    the id absent.  When DEL raises, the error is logged: the server is
    left as it was, still holding the key if it held it, and the result
    tells only whether the map held an entry. *)
Theorem delete_orchestrator_removes_both (raises : bool) (now : Q)
    (session_id : string) (w : @world Orchestrator) :
  let r := delete_orchestrator raises now session_id w in
  in_memory (local r.2) = delete session_id (in_memory (local w)) /\
  held_locally session_id r.2 = false /\
  (raises = false ->
   r.1 = inr (held_remotely now session_id w || held_locally session_id w) /\
   remote r.2 = (if redis_connected (local w)
                 then delete (session_key session_id) (remote w)
                 else remote w) /\
   held_remotely now session_id r.2 = false) /\
  (raises = true ->
   r.1 = inr (held_locally session_id w) /\
   remote r.2 = remote w /\
   held_remotely now session_id r.2 = held_remotely now session_id w).
Proof.
  cbv zeta. rewrite delete_orchestrator_run. cbn [fst snd local in_memory].
  split; [reflexivity|]. split.
  { unfold held_locally. cbn [local in_memory]. by rewrite lookup_delete_eq. }
  split; intros ->; cbn [negb andb orb].
  - rewrite andb_true_r. repeat split.
    unfold held_remotely, backend_entry. cbn [local remote redis_connected].
    destruct (redis_connected (local w)); cbn [andb]; [|reflexivity].
    by rewrite lookup_delete_eq.
  - rewrite andb_false_r. cbn [orb]. repeat split.
Qed.

(** When the Redis call raises, the error is logged: the key stays on the
    server and the result tells only whether the map held an entry. *)
Lemma delete_orchestrator_backend_raises (now : Q) (session_id : string)
    (w : @world Orchestrator) :
  let r := delete_orchestrator true now session_id w in
  r.1 = inr (held_locally session_id w) /\ remote r.2 = remote w.
Proof.
  cbv zeta. rewrite delete_orchestrator_run. cbn [fst snd negb andb orb].
  by rewrite andb_false_r.
Qed.

(** ** C10: the fallback is consulted whenever the backend yields
    nothing *)

(** C10.  [get_orchestrator] returns the backend's orchestrator when the
    backend yields one, and otherwise the outcome of the in-memory check:
    the check is skipped only when the shared backend actually yields the
    session.  In particular, with the backend connected, the GET not
    raising and the server holding no live entry for the id, an unexpired
    entry of the in-memory map is returned rather than absent. *)
Theorem get_orchestrator_consults_fallback (raises : bool) (now : Q)
    (session_id : string) (w : @world Orchestrator) :
  get_orchestrator pickle_loads raises now session_id w
  = match backend_yields pickle_loads raises now session_id w with
    | Some o => (inr (Some o), w)
    | None => get_from_memory now session_id w
    end /\
  (forall (o : Orchestrator) (stored_at : Q),
     redis_connected (local w) = true ->
     raises = false ->
     backend_entry now session_id w = None ->
     in_memory (local w) !! session_id = Some (o, stored_at) ->
     (now - stored_at < inject_Z (session_ttl_seconds (local w)))%Q ->
     get_orchestrator pickle_loads raises now session_id w
     = (inr (Some o), w)).
Proof.
  split; [apply get_orchestrator_run|].
  intros o stored_at Hup -> Hentry Hm Hage.
  rewrite get_orchestrator_run. unfold backend_yields.
  rewrite Hup, Hentry. cbn [andb negb truthy].
  by apply (get_from_memory_fresh now stored_at).
Qed.

End FastFacts.

(** ** Instances *)

Section FastInstances.
Import FastStore Samples.

(** The backend is connected but the SETEX call raises. *)
Lemma set_orchestrator_falls_back_witness :
  let w := mk_world store_up empty_server in
  let r := set_orchestrator sample_dumps true 1000 "s-1" "orchestrator" w in
  r.1 = inr tt /\
  r.2 = with_memory {[ "s-1" := ("orchestrator", 1000%Q) ]} w /\
  in_memory (local r.2) !! "s-1" = Some ("orchestrator", 1000%Q).
Proof.
  intros w r.
  destruct (set_orchestrator_falls_back sample_dumps true 1000 "s-1"
              "orchestrator" w) as [Hreturns Hkept].
  split; [exact Hreturns|].
  apply Hkept. right. right. reflexivity.
Defined.

(** Stored at second 1000 with a TTL of 7200 seconds: still there at
    second 8199, gone at second 8200. *)
Lemma fallback_entry_lives_for_ttl_witness :
  let w := mk_world store_down empty_server in
  let w1 := (set_orchestrator sample_dumps false 1000 "s-1"
               "orchestrator" w).2 in
  get_orchestrator sample_loads false 8199 "s-1" w1
  = (inr (Some "orchestrator"), w1) /\
  (get_orchestrator sample_loads false 8200 "s-1" w1).1 = inr None /\
  in_memory (local (get_orchestrator sample_loads false 8200 "s-1" w1).2)
    !! "s-1" = None.
Proof.
  intros w w1.
  assert (redis_connected (local w) = false \/
          sample_dumps "orchestrator" = None \/ false = true) as Hfail
    by (left; reflexivity).
  split.
  - destruct (fallback_entry_lives_for_ttl sample_dumps sample_loads
                false false 1000 8199 "s-1" "orchestrator" w empty_server
                Hfail eq_refl) as [Hfresh _].
    apply Hfresh. vm_compute. reflexivity.
  - destruct (fallback_entry_lives_for_ttl sample_dumps sample_loads
                false false 1000 8200 "s-1" "orchestrator" w empty_server
                Hfail eq_refl) as [_ Hexpired].
    destruct Hexpired as [Hget Hgone].
    + vm_compute. discriminate.
    + split; [exact (f_equal fst Hget)|exact Hgone].
Defined.

(** The backend is connected and answers, but holds nothing for the id;
    the in-memory map holds an entry written when an earlier SETEX
    raised. *)
Lemma get_orchestrator_consults_fallback_witness :
  let w := (set_orchestrator sample_dumps true 1000 "s-1" "orchestrator"
              (mk_world store_up empty_server)).2 in
  get_orchestrator sample_loads false 2000 "s-1" w
  = (inr (Some "orchestrator"), w).
Proof.
  intros w.
  destruct (get_orchestrator_consults_fallback sample_loads false 2000
              "s-1" w) as [_ Hfallback].
  apply (Hfallback "orchestrator" 1000%Q); try reflexivity.
Defined.

(** The backend yields a session: the in-memory map is not looked at. *)
Example get_orchestrator_prefers_backend :
  let w := (set_orchestrator sample_dumps false 1500 "s-1" "from redis"
              (set_orchestrator sample_dumps true 1000 "s-1" "from memory"
                 (mk_world store_up empty_server)).2).2 in
  get_orchestrator sample_loads false 2000 "s-1" w
  = (inr (Some "from redis"), w).
Proof. vm_compute. reflexivity. Qed.

Example delete_orchestrator_sample :
  let w := (set_orchestrator sample_dumps false 1500 "s-1" "from redis"
              (mk_world store_up empty_server)).2 in
  (delete_orchestrator false 2000 "s-1" w).1 = inr true /\
  (delete_orchestrator false 2000 "s-1"
     (delete_orchestrator false 2000 "s-1" w).2).1 = inr false /\
  (delete_orchestrator true 2000 "s-1" w).1 = inr false.
Proof. vm_compute. repeat split; reflexivity. Qed.

(** [__init__] fails fast only when the backend is unreachable and the
    fallback is disabled. *)
Example init_cases :
  @init string false false 2 = inl RuntimeError /\
  @init string false true 2 = inr store_down /\
  @init string true false 2 = inr (mk_store true 7200 false ∅).
Proof. repeat split; reflexivity. Qed.

(** DEL answering and DEL raising, on a store whose server holds the
    key of the session and whose in-memory map holds nothing. *)
Lemma delete_orchestrator_removes_both_witness :
  let w := (set_orchestrator sample_dumps false 1000 "s-1" "orchestrator"
              (mk_world store_up empty_server)).2 in
  ((delete_orchestrator false 1500 "s-1" w).1
   = inr (held_remotely 1500 "s-1" w || held_locally "s-1" w) /\
   remote (delete_orchestrator false 1500 "s-1" w).2
   = delete (session_key "s-1") (remote w) /\
   held_remotely 1500 "s-1" (delete_orchestrator false 1500 "s-1" w).2
   = false) /\
  ((delete_orchestrator true 1500 "s-1" w).1
   = inr (held_locally "s-1" w) /\
   remote (delete_orchestrator true 1500 "s-1" w).2 = remote w /\
   held_remotely 1500 "s-1" (delete_orchestrator true 1500 "s-1" w).2
   = held_remotely 1500 "s-1" w).
Proof.
  intros w. split.
  - destruct (delete_orchestrator_removes_both false 1500 "s-1" w)
      as (_ & _ & Hanswers & _).
    apply Hanswers. reflexivity.
  - destruct (delete_orchestrator_removes_both true 1500 "s-1" w)
      as (_ & _ & _ & Hraises).
    apply Hraises. reflexivity.
Defined.

(** C8 as stated fails: the server holds the session and the in-memory
    map does not; DEL raises.  [delete_orchestrator] returns false
    although the shared backend holds the session, and it leaves the
    session there: a later [get_orchestrator] returns it. *)
Lemma delete_orchestrator_keeps_key_when_del_raises :
  let w := (set_orchestrator sample_dumps false 1000 "s-1" "orchestrator"
              (mk_world store_up empty_server)).2 in
  let r := delete_orchestrator true 1500 "s-1" w in
  held_remotely 1500 "s-1" w = true /\
  r.1 = inr false /\
  held_remotely 1500 "s-1" r.2 = true /\
  (get_orchestrator sample_loads false 2000 "s-1" r.2).1
  = inr (Some "orchestrator").
Proof.
  cbv zeta. repeat split; vm_compute; reflexivity.
Qed.

End FastInstances.

(* ===================================================================== *)
(** * Orchestrator: properties *)
(* ===================================================================== *)

Section OrchestratorFacts.
Import Datetime Domain Orchestrator.

Variable opening_question : string -> string -> option string.
Variable next_question : list InterviewExchange -> option string.
Variable transcribe : string -> Z -> option string.
Variable coach_feedback : string -> Z -> option CoachingFeedback.
Variable evaluate :
  string -> string -> list InterviewExchange -> option AnswerEvaluation.
Variable duration : string -> Z -> float.
Variable mean_wpm : list InterviewExchange -> float.

(** ** IDLE means "no session" on every orchestrator that can be reached *)

Lemma consistent_new : consistent new = true.
Proof. reflexivity. Qed.

Lemma consistent_reset (o : orchestrator) : consistent (reset o) = true.
Proof. reflexivity. Qed.

Lemma consistent_start_session (new_id : string) (now : datetime)
    (resume job : string) (o : orchestrator) :
  consistent o = true ->
  consistent (start_session new_id now resume job o).1.2 = true.
Proof. unfold start_session. by destruct (o_session o). Qed.

Lemma consistent_get_next_question (o : orchestrator) :
  consistent o = true ->
  consistent (get_next_question opening_question next_question o).1.2 = true.
Proof.
  unfold get_next_question. destruct (o_session o) as [s|]; [|done].
  destruct (exchanges s).
  - by destruct (opening_question _ _).
  - by destruct (next_question _).
Qed.

Lemma consistent_process_answer (now : datetime) (audio : string)
    (sample_rate : Z) (o : orchestrator) :
  consistent o = true ->
  consistent
    (process_answer transcribe coach_feedback evaluate duration mean_wpm
       now audio sample_rate o).1.2 = true.
Proof.
  unfold process_answer. destruct (o_session o) as [s|]; [|done].
  destruct (transcribe _ _); [|done].
  destruct (coach_feedback _ _); [|done].
  by destruct (evaluate _ _ _).
Qed.

(** ** C9: [process_answer] without a session *)

(** C9.  On an orchestrator in state IDLE, [process_answer] fails with
    the session error; the orchestrator is left as it was, still without
    a session, so none is created; and the list of collaborator calls and
    observer notifications is empty: no transcription, no coaching, no
    evaluation, no exchange recorded.  The same holds after [reset]. *)
Theorem process_answer_requires_session (now : datetime) (audio : string)
    (sample_rate : Z) (o : orchestrator) :
  consistent o = true ->
  o_state o = IDLE ->
  process_answer transcribe coach_feedback evaluate duration mean_wpm
    now audio sample_rate o
  = (inl SessionError, o, []) /\
  o_session o = None /\
  process_answer transcribe coach_feedback evaluate duration mean_wpm
    now audio sample_rate (reset o)
  = (inl SessionError, reset o, []).
Proof.
  intros Hc Hidle. unfold consistent in Hc. rewrite Hidle in Hc.
  unfold process_answer.
  destruct (o_session o) as [s|]; [discriminate|].
  repeat split.
Qed.

End OrchestratorFacts.

Section OrchestratorInstances.
Import Datetime Domain Orchestrator Samples.

(** [test_cannot_process_answer_without_session], on a fresh orchestrator
    and on one that was started and reset. *)
Lemma process_answer_requires_session_witness :
  process_answer mock_transcribe mock_coach mock_evaluate mock_duration
    mock_mean_wpm t_answer1 "audio" 16000 new
  = (inl SessionError, new, []) /\
  let o := reset (start_session "s-1" t_created "resume" "job" new).1.2 in
  process_answer mock_transcribe mock_coach mock_evaluate mock_duration
    mock_mean_wpm t_answer1 "audio" 16000 o
  = (inl SessionError, o, []).
Proof.
  split.
  - apply (process_answer_requires_session mock_transcribe mock_coach
             mock_evaluate mock_duration mock_mean_wpm t_answer1 "audio"
             16000 new); reflexivity.
  - intros o.
    apply (process_answer_requires_session mock_transcribe mock_coach
             mock_evaluate mock_duration mock_mean_wpm t_answer1 "audio"
             16000 o); reflexivity.
Defined.

(** With a session the calls are made in the order transcription,
    coaching, evaluation, and one exchange is recorded. *)
Example process_answer_with_session :
  let o1 := (start_session "s-1" t_created "resume" "job" new).1.2 in
  let o2 := (get_next_question mock_opening mock_next o1).1.2 in
  let r := process_answer mock_transcribe mock_coach mock_evaluate
             mock_duration mock_mean_wpm t_answer1 "audio" 16000 o2 in
  r.2 = [TranscribeCall "audio" 16000; CoachCall "audio" 16000;
         EvaluateCall "Tell me about yourself and your background."
           "I have five years of experience with Python and FastAPI." []] /\
  o_state r.1.2 = EVALUATING /\
  (length <$> (exchanges <$> o_session r.1.2)) = Some 1%nat.
Proof. vm_compute. repeat split; reflexivity. Qed.

End OrchestratorInstances.

(* ===================================================================== *)
(** * Durable Store: further properties *)
(* ===================================================================== *)

Section DurableMore.
Import Datetime Domain DurableStore Samples.

(** ** Rows of other sessions *)

Lemma filter_ext_Forall {A} (p q : A -> bool) (l : list A) :
  Forall (fun x => p x = q x) l -> List.filter p l = List.filter q l.
Proof.
  induction 1 as [|x l Hx _ IH]; [done|]. cbn. by rewrite Hx, IH.
Qed.

Lemma bind_ext_Forall {A B} (g h : A -> list B) (l : list A) :
  Forall (fun x => g x = h x) l -> l ≫= g = l ≫= h.
Proof.
  induction 1 as [|x l Hx _ IH]; [done|].
  by rewrite !bind_cons, Hx, IH.
Qed.

Lemma matches_app_none {A} (p : A -> bool) (old new : list A) :
  Forall (fun x => p x = false) new ->
  matches p (old ++ new) = matches p old.
Proof.
  intros Hnew. unfold matches.
  by rewrite List.filter_app, (filter_none p new), app_nil_r.
Qed.

(** The rows selected for an id do not change when rows of other ids are
    removed from [exchanges]. *)
Lemma selected_purged_other (ids : list string) (sid : string)
    (d : database) :
  existsb (String.eqb sid) ids = false ->
  selected sid (purged ids d) = selected sid d.
Proof.
  intros Hnot. unfold selected.
  assert (List.filter (of_session sid) (tbl_exchanges (purged ids d))
          = List.filter (of_session sid) (tbl_exchanges d)) as ->;
    [|reflexivity].
  unfold purged. cbn [tbl_exchanges]. rewrite filter_filter.
  apply filter_ext_Forall, Forall_forall. intros e _. unfold of_session.
  destruct (String.eqb_spec (ex_session_id e) sid) as [->|Hne].
  - by rewrite Hnot.
  - apply andb_false_r.
Qed.

Lemma loaded_purged_other (ids : list string) (sid : string) (d : database) :
  sid ∉ ids -> loaded sid (purged ids d) = loaded sid d.
Proof.
  intros Hnot. unfold loaded.
  rewrite selected_purged_other.
  - unfold purged at 1. cbn [tbl_sessions]. rewrite lookup_foldl_delete.
    by rewrite bool_decide_eq_false_2.
  - apply not_true_iff_false. rewrite existsb_exists.
    intros (k & Hin & ->%String.eqb_eq). by apply Hnot, list_elem_of_In.
Qed.

(** The rows selected for an id do not change when another session is
    saved: its new child rows refer to rowids handed out later. *)
Lemma selected_saved_other (now : datetime) (session : InterviewSession)
    (sid : string) (d : database) :
  wf d = true ->
  sid <> session_id session ->
  selected sid (saved now session d) = selected sid d.
Proof.
  intros (Hx & _ & _)%wf_forall Hne. unfold selected.
  assert (List.filter (of_session sid) (tbl_exchanges (saved now session d))
          = List.filter (of_session sid) (tbl_exchanges d)) as ->.
  { unfold saved. cbn [tbl_exchanges].
    rewrite List.filter_app, filter_filter.
    rewrite (filter_none (of_session sid) (exchange_rows _ _ _ _)).
    - rewrite app_nil_r. apply filter_ext_Forall, Forall_forall.
      intros e _. unfold of_session.
      destruct (String.eqb_spec (ex_session_id e) (session_id session))
        as [->|Hne']; cbn [negb andb]; [|done].
      symmetry. apply String.eqb_neq. congruence.
    - eapply Forall_impl; [apply exchange_rows_of_session|].
      cbn. unfold of_session. intros e ->%String.eqb_eq.
      apply String.eqb_neq. congruence. }
  f_equal. apply bind_ext_Forall.
  apply Forall_filter_keep.
  eapply Forall_impl; [apply Hx|]. cbn. intros e He.
  unfold join_exchange, saved. cbn [tbl_evaluations tbl_coaching].
  rewrite !matches_app_none; [reflexivity|..].
  - eapply Forall_impl; [apply evaluation_rows_gt|]. cbn.
    intros. apply Z.eqb_neq. lia.
  - eapply Forall_impl; [apply coaching_rows_gt|]. cbn.
    intros. apply Z.eqb_neq. lia.
Qed.

Lemma loaded_saved_other (now : datetime) (session : InterviewSession)
    (sid : string) (d : database) :
  wf d = true ->
  sid <> session_id session ->
  loaded sid (saved now session d) = loaded sid d.
Proof.
  intros Hwf Hne. unfold loaded.
  rewrite selected_saved_other by done.
  unfold saved at 1, upsert. cbn [tbl_sessions].
  by destruct (tbl_sessions d !! session_id session);
    rewrite lookup_insert_ne.
Qed.

(** ** Running [delete] and [cleanup_old_sessions] under any oracle *)

Lemma purged_nil (d : database) : purged [] d = d.
Proof. unfold purged. cbn. rewrite filter_true. by destruct d. Qed.

Lemma purged_one (sid : string) (d : database) :
  purged [sid] d
  = mk_database (delete sid (tbl_sessions d))
      (List.filter (fun e => negb (of_session sid e)) (tbl_exchanges d))
      (seq_exchanges d) (tbl_evaluations d) (tbl_coaching d).
Proof.
  unfold purged. cbn [foldl existsb]. f_equal.
  apply List.filter_ext. intros e. unfold of_session.
  by rewrite orb_false_r.
Qed.

Lemma delete_stored_under_oracle (f : option nat) (sid : string)
    (d : database) :
  delete_stored f sid d
  = match f with
    | Some 0%nat => (inl OperationalError, d)
    | _ =>
        match tbl_sessions d !! sid with
        | None => (inr false, d)
        | Some _ =>
            if match f with Some k => (k <? 5)%nat | None => false end
            then (inr false, d)
            else (inr true, purged [sid] d)
        end
    end.
Proof.
  rewrite purged_one. unfold delete_stored, delete_tx, select_session.
  destruct (tbl_sessions d !! sid) as [row|] eqn:Hrow;
    destruct f as [[|[|[|[|[|k]]]]]|]; cbn; rewrite ?Hrow; reflexivity.
Qed.

(** A run of the deleting loop that completes has purged its ids, whatever
    the oracle. *)
Lemma statement_completes (g : database -> database) (c c' : conn)
    (a : unit) :
  (call ;; do d <- get; put (g d)) c = inr (a, c') -> db c' = g (db c).
Proof.
  destruct a, c as [d [[|k]|]]; cbn; intros H; [done|..];
    by injection H as <-.
Qed.

Lemma for_each_delete_completes (ids : list string) :
  forall (c c' : conn) (a : unit),
  for_each ids (fun sid => delete_exchanges sid ;; delete_session sid) c
  = inr (a, c') ->
  db c' = purged ids (db c).
Proof.
  induction ids as [|sid ids IH]; intros c c' a.
  - cbn. intros H. injection H as _ <-. by rewrite purged_nil.
  - cbn [for_each]. unfold bind at 1. unfold bind at 1.
    destruct (delete_exchanges sid c) as [e|[[] c1]] eqn:H1; [done|].
    destruct (delete_session sid c1) as [e|[[] c2]] eqn:H2; [done|].
    intros Hrest. apply IH in Hrest. rewrite Hrest.
    apply statement_completes in H1, H2. rewrite H2, H1.
    unfold purged.
    cbn [tbl_sessions tbl_exchanges seq_exchanges tbl_evaluations
         tbl_coaching foldl existsb].
    rewrite filter_filter. f_equal.
    apply List.filter_ext. intros e. unfold of_session.
    by rewrite negb_orb.
Qed.

Lemma call_completes (c c' : conn) (a : unit) :
  call c = inr (a, c') -> db c' = db c.
Proof.
  destruct a, c as [d [[|k]|]]; cbn; intros H; [done|..];
    by injection H as <-.
Qed.

(** [cleanup_old_sessions] under any oracle leaves the database as it
    was, or purged of the ids it selected. *)
Lemma cleanup_old_sessions_db (now : datetime) (f : option nat)
    (max_age_hours : Z) (d : database) :
  (cleanup_old_sessions now f max_age_hours d).2 = d \/
  exists c, sub_hours now max_age_hours = Some c /\
            (cleanup_old_sessions now f max_age_hours d).2
            = purged (old_ids (isoformat c) d) d.
Proof.
  unfold cleanup_old_sessions.
  destruct (get_connection _) as [e|[[] c0]] eqn:Hconn; [by left|].
  apply call_completes in Hconn. cbn [db] in Hconn.
  destruct (cleanup_tx _ _ _) as [e|[n c3]] eqn:Hrun; [by left|].
  right. unfold cleanup_tx in Hrun. unfold bind at 1 in Hrun.
  destruct (sub_hours now max_age_hours) as [c|]; [|done].
  exists c. split; [done|]. cbn [lift ret] in Hrun.
  unfold bind at 1 in Hrun.
  destruct (select_created_before _ c0) as [e|[ids c1]] eqn:Hsel; [done|].
  unfold bind at 1 in Hrun.
  destruct (for_each ids _ c1) as [e|[[] c2]] eqn:Hloop; [done|].
  unfold bind at 1 in Hrun.
  destruct (commit c2) as [e|[[] c2']] eqn:Hcommit; [done|].
  injection Hrun as _ <-. cbn [snd].
  apply call_completes in Hcommit. rewrite Hcommit.
  apply for_each_delete_completes in Hloop. rewrite Hloop.
  unfold select_created_before in Hsel. unfold bind at 1 in Hsel.
  destruct (call c0) as [e|[[] c0']] eqn:Hcall; [done|].
  apply call_completes in Hcall.
  unfold bind, get, ret in Hsel. injection Hsel as <- <-.
  rewrite Hcall, Hconn. reflexivity.
Qed.

End DurableMore.

(* ===================================================================== *)
(** * Durable Store: [delete], isolation, invariant *)
(* ===================================================================== *)

Section DurableExtras.
Import Datetime Domain DurableStore Samples.

(** X1.  Deleting a stored session, the driver not failing, returns
    [True], removes its [sessions] row and every exchange row that
    carries its id, and leaves the [evaluations] and
    [coaching_feedback] tables exactly as they were (the child rows of
    the deleted exchanges stay behind).  Afterwards [load] of the id
    returns [None] and a second [delete] returns [False] without
    changing anything. *)
Theorem delete_stored_removes_session (sid : string) (d : database) :
  is_Some (tbl_sessions d !! sid) ->
  let r := delete_stored None sid d in
  r.1 = inr true /\
  tbl_sessions r.2 !! sid = None /\
  exchange_row_count sid r.2 = 0%nat /\
  tbl_evaluations r.2 = tbl_evaluations d /\
  tbl_coaching r.2 = tbl_coaching d /\
  load None sid r.2 = inr None /\
  delete_stored None sid r.2 = (inr false, r.2).
Proof.
  intros [row Hrow]. cbv zeta.
  rewrite delete_stored_under_oracle, Hrow, purged_one. cbn [fst snd].
  assert (tbl_sessions
            (mk_database (delete sid (tbl_sessions d))
               (List.filter (fun e => negb (of_session sid e))
                  (tbl_exchanges d))
               (seq_exchanges d) (tbl_evaluations d) (tbl_coaching d))
          !! sid = None) as Hgone by apply lookup_delete_eq.
  repeat split.
  - exact Hgone.
  - unfold exchange_row_count. cbn [tbl_exchanges].
    by rewrite filter_filter_negb.
  - by apply load_not_found.
  - by rewrite delete_stored_under_oracle, Hgone.
Qed.

Lemma delete_stored_removes_session_witness :
  let d := (save t_created None session_two empty_db).2 in
  let r := delete_stored None "s-1" d in
  r.1 = inr true /\
  tbl_sessions r.2 !! "s-1" = None /\
  exchange_row_count "s-1" r.2 = 0%nat /\
  tbl_evaluations r.2 = tbl_evaluations d /\
  tbl_coaching r.2 = tbl_coaching d /\
  load None "s-1" r.2 = inr None /\
  delete_stored None "s-1" r.2 = (inr false, r.2).
Proof.
  intros d.
  apply (delete_stored_removes_session "s-1" d).
  eexists. vm_compute. reflexivity.
Defined.

(** X2.  [delete] answers [False] and leaves the database untouched both
    when no session has the id and when a statement inside its [try]
    raises (the SELECT, either DELETE, or the commit): the failure is
    rolled back, logged, and not told apart from "not found".  Only a
    failure to open the connection is raised. *)
Theorem delete_stored_false_means_unchanged (f : option nat) (sid : string)
    (d : database) :
  f <> Some 0%nat ->
  tbl_sessions d !! sid = None \/
  (exists k, f = Some k /\ (k < 5)%nat) ->
  delete_stored f sid d = (inr false, d) /\
  delete_stored (Some 0%nat) sid d = (inl OperationalError, d).
Proof.
  intros Hf Hcase. split; [|reflexivity].
  rewrite delete_stored_under_oracle.
  destruct f as [[|k]|]; [done|..].
  - destruct (tbl_sessions d !! sid) as [row|]; [|done].
    destruct Hcase as [?|(k' & Hk' & Hk)]; [done|].
    injection Hk' as <-.
    change (S k <? 5)%nat with (k <? 4)%nat.
    by rewrite (proj2 (Nat.ltb_lt k 4)) by lia.
  - destruct Hcase as [->|(k' & ? & _)]; done.
Qed.

Lemma delete_stored_false_means_unchanged_witness :
  let d := (save t_created None session_two empty_db).2 in
  (delete_stored None "s-9" d = (inr false, d) /\
   delete_stored (Some 0%nat) "s-9" d = (inl OperationalError, d)) /\
  (delete_stored (Some 3%nat) "s-1" d = (inr false, d) /\
   delete_stored (Some 0%nat) "s-1" d = (inl OperationalError, d)).
Proof.
  intros d. split.
  - apply (delete_stored_false_means_unchanged None "s-9" d);
      [discriminate|]. left. vm_compute. reflexivity.
  - apply (delete_stored_false_means_unchanged (Some 3%nat) "s-1" d);
      [discriminate|]. right. exists 3%nat. split; [reflexivity|lia].
Defined.

(** X3.  Whatever [delete] does to one session, under any oracle, [load]
    of every other id returns what it returned before. *)
Theorem delete_stored_keeps_other_sessions (f f' : option nat)
    (sid sid' : string) (d : database) :
  sid' <> sid ->
  load f' sid' (delete_stored f sid d).2 = load f' sid' d.
Proof.
  intros Hne. rewrite !load_under_oracle.
  assert (loaded sid' (purged [sid] d) = loaded sid' d) as Hsame.
  { apply loaded_purged_other. rewrite list_elem_of_singleton. done. }
  assert ((delete_stored f sid d).2 = d \/
          (delete_stored f sid d).2 = purged [sid] d) as [-> | ->];
    [|done|by rewrite Hsame].
  rewrite delete_stored_under_oracle.
  destruct f as [[|k]|]; [by left|..];
    (destruct (tbl_sessions d !! sid); [|by left]).
  - destruct (S k <? 5)%nat; [by left|by right].
  - by right.
Qed.

Lemma delete_stored_keeps_other_sessions_witness :
  load None "s-2" (delete_stored None "s-1" db_old_and_recent).2
  = load None "s-2" db_old_and_recent.
Proof.
  apply (delete_stored_keeps_other_sessions None None "s-1" "s-2").
  discriminate.
Defined.

(** X4.  Saving a session, under any oracle, does not change what [load]
    returns for any other id: the exchanges of other sessions are not
    deleted and none of the child rows inserted for the saved session is
    joined to them. *)
Theorem save_keeps_other_sessions (now : datetime) (f f' : option nat)
    (session : InterviewSession) (sid' : string) (d : database) :
  wf d = true ->
  sid' <> session_id session ->
  load f' sid' (save now f session d).2 = load f' sid' d.
Proof.
  intros Hwf Hne. rewrite !load_under_oracle.
  assert (loaded sid' (save now f session d).2 = loaded sid' d) as ->;
    [|done].
  destruct f as [k|].
  - rewrite save_under_oracle. destruct (k <? save_calls session)%nat;
      [done|]. rewrite save_run. by apply loaded_saved_other.
  - rewrite save_run. by apply loaded_saved_other.
Qed.

Lemma save_keeps_other_sessions_witness :
  load None "s-2" (save t_now None session_two db_old_and_recent).2
  = load None "s-2" db_old_and_recent.
Proof.
  apply (save_keeps_other_sessions t_now None None session_two "s-2"
           db_old_and_recent).
  - vm_compute. reflexivity.
  - discriminate.
Defined.

(** X5.  [cleanup_old_sessions], under any oracle, does not change what
    [load] returns for a session that is not older than the cutoff; when
    the cutoff cannot be computed it changes nothing at all. *)
Theorem cleanup_keeps_newer_sessions (now : datetime) (f f' : option nat)
    (max_age_hours : Z) (sid : string) (d : database) :
  (forall c, sub_hours now max_age_hours = Some c ->
             is_old (isoformat c) d sid = false) ->
  load f' sid (cleanup_old_sessions now f max_age_hours d).2
  = load f' sid d.
Proof.
  intros Hnew. rewrite !load_under_oracle.
  assert (loaded sid (cleanup_old_sessions now f max_age_hours d).2
          = loaded sid d) as ->; [|done].
  destruct (cleanup_old_sessions_db now f max_age_hours d)
    as [->|(c & Hc & ->)]; [done|].
  apply loaded_purged_other. rewrite elem_of_old_ids, (Hnew c Hc). done.
Qed.

Lemma cleanup_keeps_newer_sessions_witness :
  load None "s-2" (cleanup_old_sessions t_now None 24 db_old_and_recent).2
  = load None "s-2" db_old_and_recent.
Proof.
  apply (cleanup_keeps_newer_sessions t_now None None 24 "s-2"
           db_old_and_recent).
  intros c Hc.
  assert (sub_hours t_now 24 = Some t_cutoff) as Hcut
    by (vm_compute; reflexivity).
  rewrite Hcut in Hc. injection Hc as <-. vm_compute. reflexivity.
Defined.

(** X6.  The rowid invariant (no exchange row and no child row refers to
    a rowid beyond the [exchanges] counter) is kept by [save], [delete]
    and [cleanup_old_sessions] under every oracle, whether the operation
    completes or rolls back. *)
Theorem wf_kept_by_every_operation (now : datetime) (f : option nat)
    (session : InterviewSession) (sid : string) (max_age_hours : Z)
    (d : database) :
  wf d = true ->
  wf (save now f session d).2 = true /\
  wf (delete_stored f sid d).2 = true /\
  wf (cleanup_old_sessions now f max_age_hours d).2 = true.
Proof.
  intros Hwf. repeat split.
  - by apply wf_save.
  - rewrite delete_stored_under_oracle.
    destruct f as [[|k]|]; [done|..];
      (destruct (tbl_sessions d !! sid); [|done]).
    + destruct (S k <? 5)%nat; [done|]. by apply wf_purged.
    + by apply wf_purged.
  - destruct (cleanup_old_sessions_db now f max_age_hours d)
      as [->|(c & _ & ->)]; [done|]. by apply wf_purged.
Qed.

Lemma wf_kept_by_every_operation_witness :
  wf (save t_now (Some 7%nat) session_two db_old_and_recent).2 = true /\
  wf (delete_stored None "s-1" db_old_and_recent).2 = true /\
  wf (cleanup_old_sessions t_now None 24 db_old_and_recent).2 = true.
Proof.
  repeat apply conj.
  - apply (wf_kept_by_every_operation t_now (Some 7%nat) session_two "s-1"
             24 db_old_and_recent). vm_compute. reflexivity.
  - apply (wf_kept_by_every_operation t_now None session_two "s-1"
             24 db_old_and_recent). vm_compute. reflexivity.
  - apply (wf_kept_by_every_operation t_now None session_two "s-1"
             24 db_old_and_recent). vm_compute. reflexivity.
Defined.

(** ** [cleanup_old_sessions] once more *)

Lemma old_ids_purged (cutoff : string) (d : database) :
  old_ids cutoff (purged (old_ids cutoff d) d) = [].
Proof.
  unfold old_ids at 1. rewrite sessions_purged.
  assert (filter (fun kr : string * session_row =>
                    created_before cutoff kr.2 = true)
            (filter (fun kr : string * session_row =>
                       ¬ created_before cutoff kr.2 = true)
               (tbl_sessions d)) = ∅) as ->.
  { apply map_eq. intros k. rewrite lookup_empty.
    apply eq_None_not_Some. intros [r Hr].
    apply map_lookup_filter_Some in Hr as [Hr Hold].
    apply map_lookup_filter_Some in Hr as [_ Hnew]. by apply Hnew. }
  by rewrite map_to_list_empty.
Qed.

(** X7.  Running [cleanup_old_sessions] a second time at the same clock
    reading and with the same age finds nothing left to delete: it
    returns 0 and leaves the database as the first run left it. *)
Theorem cleanup_twice_deletes_nothing_more (now : datetime)
    (max_age_hours : Z) (d : database) :
  let d1 := (cleanup_old_sessions now None max_age_hours d).2 in
  cleanup_old_sessions now None max_age_hours d1 = (inr 0, d1).
Proof.
  cbv zeta. destruct (sub_hours now max_age_hours) as [c|] eqn:Hc.
  - rewrite (cleanup_run now max_age_hours c d Hc). cbn [snd].
    rewrite (cleanup_run now max_age_hours c _ Hc).
    by rewrite old_ids_purged, purged_nil.
  - assert (forall d0, cleanup_old_sessions now None max_age_hours d0
                       = (inr 0, d0)) as Hnone.
    { intros d0. unfold cleanup_old_sessions, cleanup_tx.
      cbn [get_connection call faults]. unfold bind at 1.
      by rewrite Hc. }
    by rewrite !Hnone.
Qed.

(** ** Timestamps of the [sessions] row *)

(** X8.  The bookkeeping columns: the first [save] of an id writes the
    clock reading to both [created_at] and [updated_at]; every later
    [save] keeps [created_at] and writes the clock reading to
    [updated_at] only. *)
Theorem save_stamps_row (now : datetime) (session : InterviewSession)
    (d : database) :
  exists row,
    tbl_sessions (save now None session d).2 !! session_id session
    = Some row /\
    row_updated_at row = isoformat now /\
    row_created_at row
    = match tbl_sessions d !! session_id session with
      | Some old => row_created_at old
      | None => isoformat now
      end.
Proof.
  rewrite save_run. unfold saved at 1. cbn [snd tbl_sessions].
  rewrite lookup_upsert. eexists. split; [reflexivity|].
  by destruct (tbl_sessions d !! session_id session).
Qed.

(** X9.  The age that [cleanup_old_sessions] looks at is the age of the
    first [save]: a session first saved before the cutoff is deleted
    with its exchanges even when it was saved again after the cutoff. *)
Theorem cleanup_goes_by_first_save (t0 t1 now : datetime)
    (max_age_hours : Z) (c : datetime) (s0 s1 : InterviewSession)
    (d : database) :
  tbl_sessions d !! session_id s0 = None ->
  session_id s1 = session_id s0 ->
  valid t0 = true ->
  sub_hours now max_age_hours = Some c ->
  Datetime.ltb t0 c = true ->
  let d2 := (save t1 None s1 (save t0 None s0 d).2).2 in
  let r := cleanup_old_sessions now None max_age_hours d2 in
  load None (session_id s0) r.2 = inr None /\
  exchange_row_count (session_id s0) r.2 = 0%nat.
Proof.
  intros Hnew Hid Ht0 Hc Hlt. cbv zeta.
  rewrite !save_run. cbn [snd].
  rewrite (cleanup_run now max_age_hours c _ Hc). cbn [snd].
  set (d2 := saved t1 s1 (saved t0 s0 d)).
  assert (is_old (isoformat c) d2 (session_id s0) = true) as Hold.
  { unfold is_old, d2. unfold saved at 1. cbn [tbl_sessions].
    rewrite <- Hid, lookup_upsert, Hid.
    unfold saved at 1. cbn [tbl_sessions].
    rewrite lookup_upsert, Hnew. cbn [row_created_at session_columns].
    unfold created_before. cbn [row_created_at].
    rewrite ltb_isoformat; [done..|].
    by apply (sub_hours_valid now max_age_hours). }
  split.
  - apply load_not_found. unfold purged. cbn [tbl_sessions].
    rewrite lookup_foldl_delete.
    by rewrite bool_decide_eq_true_2 by by apply elem_of_old_ids.
  - unfold exchange_row_count, purged. cbn [tbl_exchanges].
    rewrite filter_filter. rewrite (filter_none _ (tbl_exchanges d2));
      [done|].
    apply Forall_forall. intros e _. unfold of_session.
    destruct (String.eqb_spec (ex_session_id e) (session_id s0))
      as [->|_]; [|apply andb_false_r].
    by rewrite existsb_old_ids, Hold.
Qed.

Lemma cleanup_goes_by_first_save_witness :
  let d2 := (save t_hour_ago None session_two
               (save t_created None session_started empty_db).2).2 in
  let r := cleanup_old_sessions t_now None 24 d2 in
  load None "s-1" r.2 = inr None /\
  exchange_row_count "s-1" r.2 = 0%nat.
Proof.
  apply (cleanup_goes_by_first_save t_created t_hour_ago t_now 24 t_cutoff
           session_started session_two empty_db);
    vm_compute; reflexivity.
Defined.

(** ** [list_sessions] and [get_session_stats] *)

Lemma insert_newest_first_perm (kr : string * session_row)
    (l : list (string * session_row)) :
  insert_newest_first kr l ≡ₚ kr :: l.
Proof.
  induction l as [|kr' l IH]; [done|]. cbn.
  destruct (String.ltb _ _); [|done].
  rewrite IH. apply perm_swap.
Qed.

Lemma newest_first_perm (l : list (string * session_row)) :
  newest_first l ≡ₚ l.
Proof.
  induction l as [|kr l IH]; [done|].
  unfold newest_first. cbn [fold_right]. fold (newest_first l).
  by rewrite insert_newest_first_perm, IH.
Qed.

Lemma ltb_not_older (a b : string * session_row) :
  String.ltb (row_created_at a.2) (row_created_at b.2) = true ->
  not_older b a.
Proof.
  unfold not_older, String.ltb. rewrite (String.compare_antisym _ (row_created_at b.2)).
  by destruct (String.compare (row_created_at b.2) (row_created_at a.2)).
Qed.

Lemma insert_newest_first_sorted (kr : string * session_row)
    (l : list (string * session_row)) :
  newest_to_oldest l -> newest_to_oldest (insert_newest_first kr l).
Proof.
  induction l as [|a l IH]; [done|]. intros Hl.
  cbn [insert_newest_first].
  destruct (String.ltb (row_created_at kr.2) (row_created_at a.2)) eqn:Ha.
  - destruct l as [|b l]; [by split; [apply ltb_not_older|]|].
    destruct Hl as [Hab Hl]. specialize (IH Hl).
    cbn [insert_newest_first] in *.
    destruct (String.ltb (row_created_at kr.2) (row_created_at b.2)).
    + by split.
    + split; [by apply ltb_not_older|done].
  - by split.
Qed.

Lemma newest_first_sorted (l : list (string * session_row)) :
  newest_to_oldest (newest_first l).
Proof.
  induction l as [|kr l IH]; [done|].
  unfold newest_first. cbn [fold_right]. fold (newest_first l).
  by apply insert_newest_first_sorted.
Qed.

(** X10.  [list_sessions] returns every stored session id exactly once,
    newest first: the ids are those of a rearrangement of the [sessions]
    rows in which no row is older, by its [created_at] text, than the row
    after it.  A driver failure is raised to the caller. *)
Theorem list_sessions_newest_first (d : database) :
  (exists rows,
     list_sessions None d = inr rows.*1 /\
     rows ≡ₚ map_to_list (tbl_sessions d) /\
     newest_to_oldest rows /\
     NoDup rows.*1 /\
     forall sid, sid ∈ rows.*1 <-> is_Some (tbl_sessions d !! sid)) /\
  list_sessions (Some 0%nat) d = inl OperationalError /\
  list_sessions (Some 1%nat) d = inl OperationalError.
Proof.
  split; [|by split].
  exists (newest_first (map_to_list (tbl_sessions d))).
  pose proof (newest_first_perm (map_to_list (tbl_sessions d))) as Hperm.
  repeat split.
  - exact Hperm.
  - apply newest_first_sorted.
  - rewrite Hperm. apply NoDup_fst_map_to_list.
  - rewrite Hperm, list_elem_of_fmap.
    intros ([k r] & -> & Hin%elem_of_map_to_list). by exists r.
  - rewrite Hperm, list_elem_of_fmap.
    intros [r Hr]. exists (sid, r). split; [done|].
    by apply elem_of_map_to_list.
Qed.

Lemma filter_length_split {A} (p : A -> bool) (l : list A) :
  (length (List.filter p l)
   + length (List.filter (fun x => negb (p x)) l))%nat = length l.
Proof.
  induction l as [|x l IH]; [done|]. cbn.
  destruct (p x); cbn; lia.
Qed.

Lemma exchange_rows_length (sid now : string) (exs : list InterviewExchange) :
  forall seq : Z, length (exchange_rows sid now seq exs) = length exs.
Proof.
  induction exs as [|x exs IH]; intros seq; [done|]. cbn. by rewrite IH.
Qed.

Lemma get_session_stats_run (st_size : Z) (d : database) :
  get_session_stats None st_size d
  = inr (mk_session_stats (Z.of_nat (size (tbl_sessions d)))
           (Z.of_nat (length (tbl_exchanges d)))
           (inject_Z st_size / inject_Z (1024 * 1024))%Q).
Proof. reflexivity. Qed.

(** X11.  [get_session_stats] counts rows, and a [save] moves the counts
    as an upsert should: the number of sessions grows by one exactly
    when the id is new, and the number of exchanges changes by the
    length of the saved list minus the number of rows that the id had
    before; the rows of other sessions are counted as before. *)
Theorem stats_after_save (now : datetime) (session : InterviewSession)
    (st_size st_size' : Z) (d : database) :
  exists s0 s1,
    get_session_stats None st_size d = inr s0 /\
    get_session_stats None st_size' (save now None session d).2 = inr s1 /\
    total_sessions s0 = Z.of_nat (size (tbl_sessions d)) /\
    total_exchanges s0 = Z.of_nat (length (tbl_exchanges d)) /\
    total_sessions s1
    = total_sessions s0
      + match tbl_sessions d !! session_id session with
        | Some _ => 0
        | None => 1
        end /\
    total_exchanges s1
    = total_exchanges s0
      - Z.of_nat (exchange_row_count (session_id session) d)
      + Z.of_nat (length (exchanges session)).
Proof.
  rewrite save_run, !get_session_stats_run. cbn [snd].
  eexists _, _. split; [reflexivity|]. split; [reflexivity|].
  cbn [total_sessions total_exchanges]. repeat split.
  - unfold saved at 1, upsert. cbn [tbl_sessions].
    destruct (tbl_sessions d !! session_id session) as [r|] eqn:Hrow.
    + rewrite map_size_insert_Some by eauto. lia.
    + rewrite map_size_insert_None by done. lia.
  - unfold saved at 1, exchange_row_count. cbn [tbl_exchanges].
    rewrite length_app, exchange_rows_length.
    pose proof (filter_length_split (of_session (session_id session))
                  (tbl_exchanges d)).
    lia.
Qed.

End DurableExtras.

(* ===================================================================== *)
(** * Fast Store: listing, eviction and statistics *)
(* ===================================================================== *)

Section FastMore.
Import FastStore.

Context {Orchestrator : Type}.

Implicit Types (m : gmap string (Orchestrator * Q)).
Implicit Types (w : @world Orchestrator).

Lemma fresh_spec (now : Q) (ttl : Z) (e : Orchestrator * Q) :
  fresh now ttl e = true <-> (now - e.2 < inject_Z ttl)%Q.
Proof.
  unfold fresh. destruct (Qlt_le_dec _ _) as [H|H]; split; try done.
  intros H'. exfalso. by apply (Qlt_not_le _ _ H').
Qed.

Lemma fresh_false_spec (now : Q) (ttl : Z) (e : Orchestrator * Q) :
  fresh now ttl e = false <-> (inject_Z ttl <= now - e.2)%Q.
Proof.
  unfold fresh. destruct (Qlt_le_dec _ _) as [H|H]; split; try done.
  intros H'. exfalso. by apply (Qlt_not_le _ _ H).
Qed.

(** ** The two eviction loops *)

Lemma cleanup_step_eq (now : Q) (ttl : Z) (n : Z) m (sid : string)
    (e : Orchestrator * Q) :
  cleanup_step now ttl (n, m) (sid, e)
  = if fresh now ttl e then (n, m) else (n + 1, delete sid m).
Proof.
  destruct e as [o t]. unfold cleanup_step, fresh. cbn [fst snd].
  by destruct (Qlt_le_dec _ _).
Qed.

Lemma list_step_eq (now : Q) (ttl : Z) (ids : gset string) m (sid : string)
    (e : Orchestrator * Q) :
  list_step now ttl (ids, m) (sid, e)
  = if fresh now ttl e then ({[ sid ]} ∪ ids, m) else (ids, delete sid m).
Proof.
  destruct e as [o t]. unfold list_step, fresh. cbn [fst snd].
  by destruct (Qlt_le_dec _ _).
Qed.

Lemma foldl_cleanup_step (now : Q) (ttl : Z)
    (l : list (string * (Orchestrator * Q))) :
  forall (n : Z) m,
  foldl (cleanup_step now ttl) (n, m) l
  = (n + Z.of_nat
           (length (filter (fun kv : string * (Orchestrator * Q) =>
                              fresh now ttl kv.2 = false) l)),
     foldl (fun m kv => if fresh now ttl kv.2 then m else delete kv.1 m)
       m l).
Proof.
  induction l as [|[sid e] l IH]; intros n m; cbn [foldl].
  - rewrite filter_nil. cbn. f_equal. lia.
  - rewrite cleanup_step_eq. cbn [fst snd].
    destruct (fresh now ttl e) eqn:Hf; rewrite IH.
    + rewrite filter_cons_False by (cbn; congruence). done.
    + rewrite filter_cons_True by done. cbn [length]. f_equal. lia.
Qed.

Lemma foldl_list_step (now : Q) (ttl : Z)
    (l : list (string * (Orchestrator * Q))) :
  forall (ids : gset string) m,
  foldl (list_step now ttl) (ids, m) l
  = (list_to_set
       (filter (fun kv : string * (Orchestrator * Q) =>
                  fresh now ttl kv.2 = true) l).*1 ∪ ids,
     foldl (fun m kv => if fresh now ttl kv.2 then m else delete kv.1 m)
       m l).
Proof.
  induction l as [|[sid e] l IH]; intros ids m; cbn [foldl].
  - rewrite filter_nil. cbn. f_equal. set_unfold. tauto.
  - rewrite list_step_eq. cbn [fst snd].
    destruct (fresh now ttl e) eqn:Hf; rewrite IH.
    + rewrite filter_cons_True by done. cbn. f_equal. set_unfold. tauto.
    + rewrite filter_cons_False by (cbn; congruence). done.
Qed.

Lemma lookup_foldl_evict (now : Q) (ttl : Z)
    (l : list (string * (Orchestrator * Q))) :
  forall m (k : string),
  foldl (fun m kv => if fresh now ttl kv.2 then m else delete kv.1 m) m l
    !! k
  = if existsb (fun kv : string * (Orchestrator * Q) =>
                  bool_decide (kv.1 = k) && negb (fresh now ttl kv.2)) l
    then None else m !! k.
Proof.
  induction l as [|[sid e] l IH]; intros m k; cbn [foldl existsb fst snd];
    [done|].
  rewrite IH. destruct (fresh now ttl e); cbn [negb].
  - by rewrite andb_false_r.
  - rewrite andb_true_r. destruct (decide (sid = k)) as [->|Hne].
    + rewrite bool_decide_eq_true_2 by done. cbn.
      rewrite lookup_delete_eq. by destruct (existsb _ _).
    + rewrite bool_decide_eq_false_2 by done. cbn.
      by rewrite lookup_delete_ne.
Qed.

(** Run over the items of the map itself, the loop leaves the entries
    that have not reached the TTL. *)
Lemma foldl_evict_map_to_list (now : Q) (ttl : Z) m :
  foldl (fun m kv => if fresh now ttl kv.2 then m else delete kv.1 m)
    m (map_to_list m)
  = filter (fun kv : string * (Orchestrator * Q) =>
              fresh now ttl kv.2 = true) m.
Proof.
  apply map_eq. intros k. rewrite lookup_foldl_evict, map_lookup_filter.
  destruct (existsb _ _) eqn:Hex.
  - apply existsb_exists in Hex as [[k' e'] [Hin Hc]].
    apply andb_true_iff in Hc as [Hk Hf]. cbn in Hk, Hf.
    apply bool_decide_eq_true_1 in Hk as ->.
    apply list_elem_of_In, elem_of_map_to_list in Hin. rewrite Hin. cbn.
    apply negb_true_iff in Hf. rewrite option_guard_False; [done|].
    cbn. congruence.
  - destruct (m !! k) as [e|] eqn:Hk; [|done]. cbn.
    destruct (fresh now ttl e) eqn:Hf.
    + by rewrite option_guard_True.
    + exfalso. apply not_true_iff_false in Hex. apply Hex.
      apply existsb_exists. exists (k, e). split.
      * by apply list_elem_of_In, elem_of_map_to_list.
      * cbn. rewrite Hf. by rewrite bool_decide_eq_true_2.
Qed.

Lemma length_filter_map_to_list (P : string * (Orchestrator * Q) -> Prop)
    `{!forall x, Decision (P x)} m :
  length (filter P (map_to_list m)) = size (filter P m).
Proof.
  induction m as [|k x m Hk IH] using map_ind.
  - by rewrite map_to_list_empty, map_filter_empty, map_size_empty.
  - rewrite map_to_list_insert by done. rewrite filter_cons.
    destruct (decide (P (k, x))) as [HP|HP].
    + rewrite map_filter_insert_True by done.
      rewrite map_size_insert_None
        by (rewrite map_lookup_filter_None; auto).
      cbn. by rewrite IH.
    + rewrite map_filter_insert_not' by naive_solver. done.
Qed.

Lemma size_expired_fresh (now : Q) (ttl : Z) m :
  (size (filter (fun kv : string * (Orchestrator * Q) =>
                   fresh now ttl kv.2 = false) m)
   + size (filter (fun kv : string * (Orchestrator * Q) =>
                     fresh now ttl kv.2 = true) m))%nat = size m.
Proof.
  rewrite <- !length_filter_map_to_list, <- length_map_to_list.
  induction (map_to_list m) as [|[k e] l IH]; [done|].
  rewrite !filter_cons. cbn [snd].
  destruct (fresh now ttl e); cbn in *.
  - rewrite decide_False by done. rewrite decide_True by done. cbn. lia.
  - rewrite decide_True by done. rewrite decide_False by done. cbn. lia.
Qed.

(** ** What the methods compute *)

Lemma get_from_memory_run (now : Q) (session_id : string) w :
  get_from_memory now session_id w
  = match in_memory (local w) !! session_id with
    | Some e =>
        if fresh now (session_ttl_seconds (local w)) e
        then (inr (Some e.1), w)
        else (inr None,
              with_memory (delete session_id (in_memory (local w))) w)
    | None => (inr None, w)
    end.
Proof.
  unfold get_from_memory, bind, self, fresh.
  destruct (in_memory (local w) !! session_id) as [[o t]|]; [|reflexivity].
  cbn [fst snd]. by destruct (Qlt_le_dec _ _).
Qed.

Lemma cleanup_expired_run (now : Q) w :
  cleanup_expired now w
  = (inr (Z.of_nat (size (in_memory (local w)))
          - Z.of_nat (size (fresh_entries now w))),
     with_memory (fresh_entries now w) w).
Proof.
  unfold cleanup_expired, bind, self, set_in_memory, ret.
  rewrite foldl_cleanup_step, foldl_evict_map_to_list,
    length_filter_map_to_list.
  cbn [fst snd]. unfold with_memory, fresh_entries. f_equal. f_equal.
  pose proof (size_expired_fresh now (session_ttl_seconds (local w))
                (in_memory (local w))).
  lia.
Qed.

(** The ids that [list_active] takes from the server. *)
Lemma list_active_run (raises : bool) (now : Q) w :
  list_active raises now w
  = (inr (elements
            (dom (fresh_entries now w) ∪
             (if redis_connected (local w) && negb raises
              then list_to_set
                     (key_to_id <$>
                      (map_to_list
                         (filter (fun kv : string * (string * Q) =>
                                    String.prefix "session:" kv.1 = true /\
                                    live now kv.2 = true)
                            (remote w))).*1)
              else ∅))),
     with_memory (fresh_entries now w) w).
Proof.
  assert (forall ids : gset string,
            bind self
              (fun s =>
                 let acc :=
                   foldl (list_step now (session_ttl_seconds s))
                     (ids, in_memory s) (map_to_list (in_memory s)) in
                 bind (set_in_memory acc.2)
                   (fun _ => ret (elements acc.1))) w
            = (inr (elements (dom (fresh_entries now w) ∪ ids)),
               with_memory (fresh_entries now w) w)) as Hloop.
  { intros ids. unfold bind, self, set_in_memory, ret.
    rewrite foldl_list_step, foldl_evict_map_to_list. cbn [fst snd].
    unfold with_memory, fresh_entries.
    rewrite (map_filter_alt _ (in_memory (local w))) at 2.
    by rewrite dom_list_to_map_L. }
  unfold list_active. unfold bind at 1, self at 1.
  destruct (redis_connected (local w)); cbn [andb].
  - destruct raises; cbn [negb].
    + exact (Hloop ∅).
    + exact (Hloop _).
  - exact (Hloop ∅).
Qed.

Lemma session_key_inj (a b : string) : session_key a = session_key b -> a = b.
Proof. unfold session_key. rewrite !append_String, !append_empty_l. congruence. Qed.

Lemma prefix_session_key (sid : string) :
  String.prefix "session:" (session_key sid) = true.
Proof. by destruct sid. Qed.

Lemma key_to_id_session_key (sid : string) :
  key_to_id (session_key sid) = key_to_id sid.
Proof. by destruct sid. Qed.

Lemma remove_all_absent (old s : string) :
  occurs old s = false -> remove_all old 0 s = s.
Proof.
  induction s as [|c s IH]; [done|]. cbn [occurs remove_all].
  intros H. apply orb_false_iff in H as [Hp Ho].
  cbn [String.prefix remove_all] in *. rewrite Hp. by rewrite IH.
Qed.

Lemma remove_all_length (old : string) (s : string) :
  forall skip : nat,
  (String.length (remove_all old skip s) <= String.length s)%nat.
Proof.
  induction s as [|c s IH]; intros skip; [done|].
  cbn [remove_all]. destruct skip as [|k].
  - destruct (String.prefix old (String c s)).
    + specialize (IH (String.length old - 1)%nat). cbn. lia.
    + specialize (IH 0%nat). cbn. lia.
  - specialize (IH k). cbn. lia.
Qed.

Lemma remove_all_present (old s : string) :
  old <> EmptyString -> occurs old s = true -> remove_all old 0 s <> s.
Proof.
  intros Hold. induction s as [|c s IH].
  - cbn. by destruct old.
  - cbn [occurs remove_all]. intros H.
    destruct (String.prefix old (String c s)) eqn:Hp.
    + intros Heq.
      pose proof (remove_all_length old s (String.length old - 1)) as Hlen.
      rewrite Heq in Hlen. cbn in Hlen. lia.
    + cbn [orb] in H. intros Heq. injection Heq as Heq. by apply IH.
Qed.

End FastMore.

(* ===================================================================== *)
(** * Fast Store: eviction, listing, round trips *)
(* ===================================================================== *)

(** ** Eviction, listing and statistics *)

Section FastEviction.
Import FastStore.

Context {Orchestrator : Type}.

Implicit Types (w : @world Orchestrator).

Lemma lookup_fresh_entries (now : Q) w (sid : string) :
  fresh_entries now w !! sid
  = match in_memory (local w) !! sid with
    | Some e =>
        if fresh now (session_ttl_seconds (local w)) e then Some e else None
    | None => None
    end.
Proof.
  unfold fresh_entries. rewrite map_lookup_filter.
  destruct (in_memory (local w) !! sid) as [e|]; [|done]. cbn.
  destruct (fresh now _ e) eqn:Hf.
  - by rewrite option_guard_True.
  - rewrite option_guard_False; [done|]. cbn. congruence.
Qed.

(** X12.  [cleanup_expired] removes from the in-memory map exactly the
    entries whose age has reached the TTL (an entry is there afterwards
    if and only if it was there before and is younger than the TTL),
    returns the number of entries it removed, and does not touch the
    server. *)
Theorem cleanup_expired_evicts_expired (now : Q) (w : @world Orchestrator) :
  let r := cleanup_expired now w in
  r.1 = inr (Z.of_nat (size (in_memory (local w)))
             - Z.of_nat (size (in_memory (local r.2)))) /\
  (forall (sid : string) (o : Orchestrator) (stored_at : Q),
     in_memory (local r.2) !! sid = Some (o, stored_at) <->
     in_memory (local w) !! sid = Some (o, stored_at) /\
     (now - stored_at < inject_Z (session_ttl_seconds (local w)))%Q) /\
  remote r.2 = remote w.
Proof.
  cbv zeta. rewrite cleanup_expired_run.
  cbn [fst snd with_memory local remote in_memory].
  split; [reflexivity|]. split; [|reflexivity].
  intros sid o stored_at. rewrite lookup_fresh_entries.
  destruct (in_memory (local w) !! sid) as [e|]; [|by intuition].
  destruct (fresh now _ e) eqn:Hf.
  - split.
    + intros [= ->]. split; [done|]. by apply fresh_spec in Hf.
    + by intros [[= ->] _].
  - split; [done|]. intros [[= ->] Hage].
    apply fresh_false_spec in Hf. cbn in Hf. lra.
Qed.

(** X13.  A second [cleanup_expired] at the same instant finds nothing
    left to evict: it returns 0 and changes nothing. *)
Theorem cleanup_expired_twice (now : Q) (w : @world Orchestrator) :
  let w1 := (cleanup_expired now w).2 in
  cleanup_expired now w1 = (inr 0, w1).
Proof.
  cbv zeta. rewrite !cleanup_expired_run. cbn [snd].
  assert (fresh_entries now (with_memory (fresh_entries now w) w)
          = fresh_entries now w) as Hsame.
  { unfold fresh_entries at 1.
    cbn [with_memory local in_memory session_ttl_seconds].
    unfold fresh_entries. rewrite map_filter_filter.
    apply map_filter_ext. intros k e _. cbn. tauto. }
  rewrite Hsame. cbn [with_memory local in_memory remote redis_connected
                      session_ttl_seconds fallback_to_memory].
  f_equal. f_equal. lia.
Qed.

(** What [list_active] returns and leaves behind. *)
Lemma list_active_spec (raises : bool) (now : Q) w :
  exists ids : list string,
    list_active raises now w = (inr ids, (cleanup_expired now w).2) /\
    NoDup ids /\
    forall sid : string,
      sid ∈ ids <->
      (exists (o : Orchestrator) (stored_at : Q),
         in_memory (local w) !! sid = Some (o, stored_at) /\
         (now - stored_at < inject_Z (session_ttl_seconds (local w)))%Q) \/
      (redis_connected (local w) = true /\ raises = false /\
       exists (key : string) (entry : string * Q),
         remote w !! key = Some entry /\
         String.prefix "session:" key = true /\
         live now entry = true /\
         sid = key_to_id key).
Proof.
  rewrite list_active_run, cleanup_expired_run. cbn [snd].
  eexists. split; [reflexivity|]. split; [apply NoDup_elements|].
  intros sid. rewrite elem_of_elements, elem_of_union, elem_of_dom.
  unfold is_Some. setoid_rewrite lookup_fresh_entries.
  match goal with
  | |- (?A \/ ?B) <-> (?C \/ ?D) =>
      cut ((A <-> C) /\ (B <-> D)); [tauto|split]
  end.
  - split.
    + intros [[o t] He].
      destruct (in_memory (local w) !! sid) as [e|]; [|done].
      destruct (fresh now _ e) eqn:Hf; [|done]. injection He as ->.
      exists o, t. split; [done|]. by apply fresh_spec in Hf.
    + intros (o & t & -> & Hage). exists (o, t).
      by apply (fresh_spec now _ (o, t)) in Hage as ->.
  - destruct (redis_connected (local w)), raises; cbn [andb negb];
      try (rewrite elem_of_empty; by intuition).
    rewrite elem_of_list_to_set, list_elem_of_fmap.
    split.
    + intros (key & -> & Hkey). apply list_elem_of_fmap in Hkey
        as ([k e] & -> & Hin).
      apply elem_of_map_to_list, map_lookup_filter_Some in Hin
        as (Hk & Hp & Hl).
      split; [done|]. split; [done|]. by exists k, e.
    + intros (_ & _ & key & entry & Hk & Hp & Hl & ->).
      exists key. split; [done|]. apply list_elem_of_fmap.
      exists (key, entry). split; [done|].
      by apply elem_of_map_to_list, map_lookup_filter_Some.
Qed.

(** X14.  [list_active] returns, without repetition, the ids of the
    in-memory entries younger than the TTL together with, when the
    backend is connected and KEYS does not raise, the ids obtained from
    the live server keys that start with the prefix; it never raises, and
    it leaves the store as [cleanup_expired] at the same instant would. *)
Theorem list_active_lists (raises : bool) (now : Q)
    (w : @world Orchestrator) :
  exists ids : list string,
    list_active raises now w = (inr ids, (cleanup_expired now w).2) /\
    NoDup ids /\
    forall sid : string,
      sid ∈ ids <->
      (exists (o : Orchestrator) (stored_at : Q),
         in_memory (local w) !! sid = Some (o, stored_at) /\
         (now - stored_at < inject_Z (session_ttl_seconds (local w)))%Q) \/
      (redis_connected (local w) = true /\ raises = false /\
       exists (key : string) (entry : string * Q),
         remote w !! key = Some entry /\
         String.prefix "session:" key = true /\
         live now entry = true /\
         sid = key_to_id key).
Proof.
  apply list_active_spec.
Qed.

(** X15.  [list_active] drops the text of the key prefix wherever it
    occurs in a server key, not only at its start: a session held by the
    server under the key of id [sid] is listed as [sid] with every
    occurrence of that text removed, which is [sid] itself exactly when
    [sid] does not contain it. *)
Theorem list_active_strips_prefix_text (now : Q) (sid : string)
    (entry : string * Q) (w : @world Orchestrator) :
  redis_connected (local w) = true ->
  remote w !! session_key sid = Some entry ->
  live now entry = true ->
  exists ids : list string,
    (list_active false now w).1 = inr ids /\
    remove_all "session:" 0 sid ∈ ids /\
    (remove_all "session:" 0 sid = sid <-> occurs "session:" sid = false).
Proof.
  intros Hup Hkey Hlive.
  destruct (list_active_spec false now w) as (ids & Hrun & _ & Hids).
  exists ids. rewrite Hrun. split; [reflexivity|]. split.
  - apply Hids. right. split; [done|]. split; [done|].
    exists (session_key sid), entry. split; [done|].
    split; [apply prefix_session_key|]. split; [done|].
    by rewrite key_to_id_session_key.
  - split.
    + intros Heq. destruct (occurs "session:" sid) eqn:Ho; [|done].
      exfalso. by apply (remove_all_present "session:" sid).
    + apply remove_all_absent.
Qed.

(** X16.  On a store without backend [get_stats] reports backend
    [memory] and no Redis count; [memory_sessions] is the size of the
    in-memory map as the call found it, expired entries included, while
    [total_active] counts only the entries younger than the TTL, so that
    the difference is the number of entries [cleanup_expired] would
    evict; the call itself evicts them. *)
Theorem get_stats_memory_mode (raises_keys raises : bool)
    (now_keys now : Q) (w : @world Orchestrator) :
  redis_connected (local w) = false ->
  exists st : store_stats,
    get_stats raises_keys raises now_keys now w
    = (inr st, (cleanup_expired now w).2) /\
    backend st = "memory" /\
    redis_sessions st = None /\
    memory_sessions st = Z.of_nat (size (in_memory (local w))) /\
    (total_active st <= memory_sessions st)%Z /\
    (cleanup_expired now w).1
    = inr (memory_sessions st - total_active st).
Proof.
  intros Hdown. rewrite cleanup_expired_run. cbn [fst snd].
  unfold get_stats. unfold bind at 1, self at 1. rewrite Hdown.
  unfold bind at 1, ret at 1. unfold bind at 1, self at 1.
  cbn [local]. unfold bind at 1. rewrite list_active_run, Hdown.
  cbn [andb]. unfold ret. eexists. split; [reflexivity|].
  cbn [backend redis_sessions memory_sessions total_active].
  rewrite (right_id_L ∅ (∪)).
  change (length (elements (dom (fresh_entries now w))))
    with (size (dom (fresh_entries now w))).
  rewrite size_dom.
  pose proof (map_size_filter
                (fun kv : string * (Orchestrator * Q) =>
                   fresh now (session_ttl_seconds (local w)) kv.2 = true)
                (in_memory (local w))) as Hle.
  fold (fresh_entries now w) in Hle.
  repeat split; try reflexivity. lia.
Qed.

End FastEviction.

(** ** Reading back *)

Section FastReads.
Import FastStore.

Context {Orchestrator : Type}.
Variable pickle_loads : string -> option Orchestrator.

Implicit Types (w : @world Orchestrator).

Lemma backend_yields_with_memory (raises : bool) (now : Q) (sid : string)
    (m : gmap string (Orchestrator * Q)) w :
  backend_yields pickle_loads raises now sid (with_memory m w)
  = backend_yields pickle_loads raises now sid w.
Proof. reflexivity. Qed.

(** What [get_orchestrator] returns for an id depends only on the
    connection, the TTL, the server's key of the id and the map's entry
    of the id. *)
Lemma get_orchestrator_result_ext (raises : bool) (now : Q) (sid : string)
    w w' :
  redis_connected (local w) = redis_connected (local w') ->
  session_ttl_seconds (local w) = session_ttl_seconds (local w') ->
  remote w !! session_key sid = remote w' !! session_key sid ->
  in_memory (local w) !! sid = in_memory (local w') !! sid ->
  (get_orchestrator pickle_loads raises now sid w).1
  = (get_orchestrator pickle_loads raises now sid w').1.
Proof.
  intros Hc Ht Hr Hm. rewrite !get_orchestrator_run.
  unfold backend_yields, backend_entry. rewrite Hc, Hr.
  match goal with
  | |- (match ?x with _ => _ end).1 = _ => destruct x
  end; [reflexivity|].
  rewrite !get_from_memory_run, Hm, Ht.
  destruct (in_memory (local w') !! sid) as [e|]; [|reflexivity].
  by destruct (fresh now _ e).
Qed.

(** X17.  Evicting never changes an answer: a [get_orchestrator] at the
    time of a [cleanup_expired] or later returns the same result as it
    would have without the cleanup. *)
Theorem cleanup_expired_keeps_answers (raises : bool) (now now' : Q)
    (sid : string) (w : @world Orchestrator) :
  (now <= now')%Q ->
  (get_orchestrator pickle_loads raises now' sid
     (cleanup_expired now w).2).1
  = (get_orchestrator pickle_loads raises now' sid w).1.
Proof.
  intros Hlater. rewrite cleanup_expired_run. cbn [snd].
  rewrite !get_orchestrator_run, backend_yields_with_memory.
  destruct (backend_yields _ _ _ _ _); [reflexivity|].
  rewrite !get_from_memory_run.
  cbn [with_memory local in_memory session_ttl_seconds].
  rewrite lookup_fresh_entries.
  destruct (in_memory (local w) !! sid) as [e|]; [|reflexivity].
  destruct (fresh now _ e) eqn:Hf.
  - by destruct (fresh now' _ e).
  - apply fresh_false_spec in Hf.
    assert (fresh now' (session_ttl_seconds (local w)) e = false) as ->;
      [|reflexivity].
    apply fresh_false_spec. lra.
Qed.

(** X18.  After a [delete_orchestrator] whose Redis call did not raise
    (or on a store without backend), [get_orchestrator] finds nothing for
    the id, at any time and whether or not its own Redis call raises,
    and changes nothing. *)
Theorem deleted_session_is_gone (raises raises' : bool) (now now' : Q)
    (sid : string) (w : @world Orchestrator) :
  redis_connected (local w) = false \/ raises = false ->
  let w1 := (delete_orchestrator raises now sid w).2 in
  get_orchestrator pickle_loads raises' now' sid w1 = (inr None, w1).
Proof.
  intros Hok. cbv zeta. rewrite delete_orchestrator_run. cbn [snd].
  rewrite get_orchestrator_run.
  unfold backend_yields, backend_entry. cbn [local remote redis_connected].
  rewrite get_from_memory_run. cbn [local in_memory].
  rewrite lookup_delete_eq.
  destruct (redis_connected (local w)) eqn:Hup; cbn [andb]; [|reflexivity].
  destruct Hok as [[=]| ->]. cbn [negb].
  rewrite lookup_delete_eq. by destruct raises'.
Qed.

(** X19.  [get_orchestrator], [delete_orchestrator], [list_active],
    [cleanup_expired] and [get_stats] end in a value whatever the Redis
    client and [pickle] do: every exception is caught inside. *)
Theorem store_methods_never_raise (raises raises' : bool) (now now' : Q)
    (sid : string) (w : @world Orchestrator) :
  (exists r, (get_orchestrator pickle_loads raises now sid w).1 = inr r) /\
  (exists r, (delete_orchestrator raises now sid w).1 = inr r) /\
  (exists r, (list_active raises now w).1 = inr r) /\
  (exists r, (cleanup_expired now w).1 = inr r) /\
  (exists r, (get_stats raises' raises now' now w).1 = inr r).
Proof.
  split; [|split; [|split; [|split]]].
  - rewrite get_orchestrator_run.
    destruct (backend_yields _ _ _ _ _); [by eexists|].
    rewrite get_from_memory_run.
    destruct (in_memory (local w) !! sid) as [e|]; [|by eexists].
    destruct (fresh now _ e); by eexists.
  - rewrite delete_orchestrator_run. by eexists.
  - rewrite list_active_run. by eexists.
  - rewrite cleanup_expired_run. by eexists.
  - unfold get_stats. unfold bind at 1, self at 1.
    assert (forall (counted : option Z) w0,
              exists r,
                (bind self
                   (fun s =>
                      bind (list_active raises now)
                        (fun active =>
                           ret (mk_store_stats
                                  (if redis_connected s
                                   then "redis" else "memory")
                                  (inject_Z (session_ttl_seconds s)
                                   / 3600)%Q
                                  counted
                                  (Z.of_nat (size (in_memory s)))
                                  (Z.of_nat (length active))))) w0).1
                = inr r) as Hrest.
    { intros counted w0. unfold bind at 1, self at 1. unfold bind at 1.
      rewrite list_active_run. by eexists. }
    destruct (redis_connected (local w)).
    + destruct raises'.
      * unfold bind at 1. exact (Hrest None w).
      * unfold bind at 1. exact (Hrest (Some _) w).
    + unfold bind at 1. exact (Hrest None w).
Qed.

End FastReads.

(** ** Listing what was stored *)

Section FastWrites.
Import FastStore.

Context {Orchestrator : Type}.
Variable pickle_dumps : Orchestrator -> option string.

Implicit Types (w : @world Orchestrator).

(** X20.  A session stored by [set_orchestrator], whichever side took
    it, is listed by a [list_active] whose KEYS call does not raise as
    long as its age is below the TTL, provided the id does not contain
    the text of the key prefix. *)
Theorem stored_session_is_listed (raises : bool) (now now' : Q)
    (sid : string) (o : Orchestrator) (w : @world Orchestrator) :
  (now' - now < inject_Z (session_ttl_seconds (local w)))%Q ->
  occurs "session:" sid = false ->
  exists ids : list string,
    (list_active false now'
       (set_orchestrator pickle_dumps raises now sid o w).2).1 = inr ids /\
    sid ∈ ids.
Proof.
  intros Hage Hclean. rewrite set_orchestrator_run. cbn [snd].
  destruct (list_active_spec false now'
              (match (if redis_connected (local w) && negb raises
                      then pickle_dumps o else None) with
               | Some b =>
                   mk_world (local w)
                     (<[session_key sid :=
                          (b, (now + inject_Z
                                       (session_ttl_seconds (local w)))%Q)]>
                        (remote w))
               | None =>
                   with_memory (<[sid := (o, now)]> (in_memory (local w))) w
               end)) as (ids & Hrun & _ & Hids).
  exists ids. rewrite Hrun. split; [reflexivity|]. apply Hids.
  destruct (redis_connected (local w)) eqn:Hup; cbn [andb];
    [destruct raises; cbn [negb];
     [|destruct (pickle_dumps o) as [b|]]|].
  - left. exists o, now. cbn [with_memory local in_memory
                              session_ttl_seconds].
    by rewrite lookup_insert_eq.
  - right. cbn [local remote]. split; [done|]. split; [done|].
    exists (session_key sid), (b, (now + inject_Z
                                     (session_ttl_seconds (local w)))%Q).
    rewrite lookup_insert_eq. split; [done|].
    split; [apply prefix_session_key|]. split.
    + unfold live. cbn [snd]. destruct (Qlt_le_dec _ _) as [_|Hle]; [done|].
      exfalso. lra.
    + rewrite key_to_id_session_key. unfold key_to_id.
      by rewrite remove_all_absent.
  - left. exists o, now. cbn [with_memory local in_memory
                              session_ttl_seconds].
    by rewrite lookup_insert_eq.
  - left. exists o, now. cbn [with_memory local in_memory
                              session_ttl_seconds].
    by rewrite lookup_insert_eq.
Qed.

End FastWrites.

(** ** Round trips *)

Section FastRoundTrips.
Import FastStore.

Context {Orchestrator : Type}.
Variable pickle_dumps : Orchestrator -> option string.
Variable pickle_loads : string -> option Orchestrator.

Implicit Types (w : @world Orchestrator).

(** X21.  With the backend connected and neither call raising (for
    SETEX this supposes a positive TTL, which the server insists on), an
    orchestrator whose pickle is non-empty and loads back to it is
    returned by [get_orchestrator] until the TTL has passed since
    [set_orchestrator], without any change to the store; from then on,
    the key has expired on the server and, the in-memory map holding
    nothing for the id, the result is absent. *)
Theorem backend_round_trip (now now' : Q) (sid : string)
    (o : Orchestrator) (b : string) (w : @world Orchestrator) :
  redis_connected (local w) = true ->
  pickle_dumps o = Some b ->
  b <> EmptyString ->
  pickle_loads b = Some o ->
  let w1 := (set_orchestrator pickle_dumps false now sid o w).2 in
  let ttl := inject_Z (session_ttl_seconds (local w)) in
  ((now' < now + ttl)%Q ->
   get_orchestrator pickle_loads false now' sid w1 = (inr (Some o), w1)) /\
  ((now + ttl <= now')%Q ->
   in_memory (local w) !! sid = None ->
   get_orchestrator pickle_loads false now' sid w1 = (inr None, w1)).
Proof.
  intros Hup Hdumps Hb Hloads. cbv zeta.
  rewrite set_orchestrator_run, Hup, Hdumps. cbn [andb negb snd].
  rewrite !get_orchestrator_run.
  unfold backend_yields, backend_entry. cbn [local remote].
  rewrite Hup, lookup_insert_eq. cbn [andb negb]. unfold live. cbn [fst snd].
  split.
  - intros Hage. destruct (Qlt_le_dec _ _) as [_|Hle]; [|exfalso; lra].
    destruct b as [|c b]; [done|]. cbn [truthy]. by rewrite Hloads.
  - intros Hage Hm. destruct (Qlt_le_dec _ _) as [Hlt|_]; [exfalso; lra|].
    cbn [truthy]. rewrite get_from_memory_run. cbn [local]. by rewrite Hm.
Qed.

(** X22.  Storing or deleting one session does not change what
    [get_orchestrator] returns for another. *)
Theorem other_session_unaffected (raises raises' : bool) (now now' : Q)
    (sid sid' : string) (o : Orchestrator) (w : @world Orchestrator) :
  sid <> sid' ->
  (get_orchestrator pickle_loads raises' now' sid'
     (set_orchestrator pickle_dumps raises now sid o w).2).1
  = (get_orchestrator pickle_loads raises' now' sid' w).1 /\
  (get_orchestrator pickle_loads raises' now' sid'
     (delete_orchestrator raises now sid w).2).1
  = (get_orchestrator pickle_loads raises' now' sid' w).1.
Proof.
  intros Hne.
  assert (session_key sid <> session_key sid') as Hkey
    by (intros Heq; by apply Hne, session_key_inj).
  rewrite set_orchestrator_run, delete_orchestrator_run. cbn [snd].
  split; apply get_orchestrator_result_ext.
  - by destruct (if _ && _ then _ else _).
  - by destruct (if _ && _ then _ else _).
  - destruct (if _ && _ then _ else _); cbn [remote with_memory]; [|done].
    by rewrite lookup_insert_ne.
  - destruct (if _ && _ then _ else _);
      cbn [local in_memory with_memory]; [done|].
    by rewrite lookup_insert_ne.
  - done.
  - done.
  - cbn [remote]. destruct (_ && _); [|done]. by rewrite lookup_delete_ne.
  - cbn [local in_memory]. by rewrite lookup_delete_ne.
Qed.

End FastRoundTrips.

(** ** Instances *)

Section FastExtraInstances.
Import FastStore Samples.

(** An entry stored at second 1000 with a TTL of 7200 seconds, evicted at
    second 9000 and asked for at second 9500. *)
Lemma cleanup_expired_keeps_answers_witness :
  let w := (set_orchestrator sample_dumps false 1000 "s-1" "orchestrator"
              (mk_world store_down empty_server)).2 in
  (get_orchestrator sample_loads false 9500 "s-1"
     (cleanup_expired 9000 w).2).1
  = (get_orchestrator sample_loads false 9500 "s-1" w).1.
Proof.
  intros w.
  apply (cleanup_expired_keeps_answers sample_loads false 9000 9500 "s-1" w).
  vm_compute. discriminate.
Defined.

(** Stored on the server at second 1000, listed at second 2000. *)
Lemma stored_session_is_listed_witness :
  exists ids : list string,
    (list_active false 2000
       (set_orchestrator sample_dumps false 1000 "s-1" "orchestrator"
          (mk_world store_up empty_server)).2).1 = inr ids /\
    "s-1" ∈ ids.
Proof.
  apply (stored_session_is_listed sample_dumps false 1000 2000 "s-1"
           "orchestrator" (mk_world store_up empty_server)).
  - vm_compute. reflexivity.
  - reflexivity.
Defined.

(** The server holds the key of the id [session:a]: the id listed is
    [a]. *)
Lemma list_active_strips_prefix_text_witness :
  let w := mk_world store_up
             {[ session_key "session:a" := ("Porchestrator", 8200%Q) ]} in
  exists ids : list string,
    (list_active false 2000 w).1 = inr ids /\
    remove_all "session:" 0 "session:a" ∈ ids /\
    (remove_all "session:" 0 "session:a" = "session:a" <->
     occurs "session:" "session:a" = false).
Proof.
  intros w.
  apply (list_active_strips_prefix_text 2000 "session:a"
           ("Porchestrator", 8200%Q) w).
  - reflexivity.
  - vm_compute. reflexivity.
  - vm_compute. reflexivity.
Defined.

(** Stored on the server at second 1000 with a TTL of 7200 seconds and
    read back at second 2000. *)
Lemma backend_round_trip_witness :
  let w := mk_world store_up empty_server in
  let w1 := (set_orchestrator sample_dumps false 1000 "s-1"
               "orchestrator" w).2 in
  get_orchestrator sample_loads false 2000 "s-1" w1
  = (inr (Some "orchestrator"), w1).
Proof.
  intros w w1.
  destruct (backend_round_trip sample_dumps sample_loads 1000 2000 "s-1"
              "orchestrator" "Porchestrator" w) as [Hlive _].
  - reflexivity.
  - reflexivity.
  - discriminate.
  - reflexivity.
  - apply Hlive. vm_compute. reflexivity.
Defined.

(** A session kept in memory, deleted, then asked for. *)
Lemma deleted_session_is_gone_witness :
  let w := (set_orchestrator sample_dumps false 1000 "s-1" "orchestrator"
              (mk_world store_down empty_server)).2 in
  let w1 := (delete_orchestrator false 1500 "s-1" w).2 in
  get_orchestrator sample_loads false 2000 "s-1" w1 = (inr None, w1).
Proof.
  intros w w1.
  apply (deleted_session_is_gone sample_loads false false 1500 2000 "s-1" w).
  left. reflexivity.
Defined.

(** Session [s-2] is stored and then deleted beside session [s-1]. *)
Lemma other_session_unaffected_witness :
  let w := (set_orchestrator sample_dumps false 1000 "s-1" "orchestrator"
              (mk_world store_down empty_server)).2 in
  (get_orchestrator sample_loads false 2000 "s-1"
     (set_orchestrator sample_dumps false 1500 "s-2" "other" w).2).1
  = (get_orchestrator sample_loads false 2000 "s-1" w).1 /\
  (get_orchestrator sample_loads false 2000 "s-1"
     (delete_orchestrator false 1500 "s-2" w).2).1
  = (get_orchestrator sample_loads false 2000 "s-1" w).1.
Proof.
  intros w.
  apply (other_session_unaffected sample_dumps sample_loads false false
           1500 2000 "s-2" "s-1" "other" w).
  discriminate.
Defined.

(** Two entries in memory, one of them expired at second 9000. *)
Lemma get_stats_memory_mode_witness :
  let w0 := (set_orchestrator sample_dumps false 1000 "s-1" "orchestrator"
               (mk_world store_down empty_server)).2 in
  let w := (set_orchestrator sample_dumps false 8000 "s-2" "other" w0).2 in
  exists st : store_stats,
    get_stats false false 9000 9000 w
    = (inr st, (cleanup_expired 9000 w).2) /\
    backend st = "memory" /\
    redis_sessions st = None /\
    memory_sessions st = Z.of_nat (size (in_memory (local w))) /\
    (total_active st <= memory_sessions st)%Z /\
    (cleanup_expired 9000 w).1
    = inr (memory_sessions st - total_active st).
Proof.
  intros w0 w.
  apply (get_stats_memory_mode false false 9000 9000 w).
  reflexivity.
Defined.

End FastExtraInstances.
